(** * proceduralVisuals: audio-reactive sphere and rose scripts

    A shallow embedding of the two browser scripts of the repository
    ([tool2.js], the wire-frame sphere, and the rose canvas script) and
    the properties of their feature extraction, per-tick update and
    start-up/error paths.

    JavaScript numbers are kept behind the interface [JsNum].  The
    instance used for the general theorems is [xnum]: exact rationals
    extended with NaN and the two infinities, so that every division of
    the source is written out with its behaviour at a zero divisor.
    Rounding is not part of that instance; the instance [binary64] is
    IEEE binary64 and is used to replay concrete runs bit for bit.

    The scripts are programs over a world (their global variables and
    the part of the browser they act on) that may throw.  The browser
    is a record of oracles [env]; what it does next is an [input] of
    the event loop [run].  Canvas and WebGL calls are recorded in the
    trace with their arguments and not interpreted. *)

From Stdlib Require Import ZArith QArith Qpower Qabs String List Bool Lia Lqa.
From Stdlib.Strings Require Import Byte.
From Stdlib Require Import Floats Uint63.
Import ListNotations.

Set Implicit Arguments.
Local Open Scope Z_scope.

(** ** Numbers *)

Class JsNum (num : Type) : Type := {
  of_Z : Z -> num;                    (* an integer-valued number *)
  decimal : Q -> num;                 (* a decimal literal, e.g. 0.05 *)
  neg_infinity : num;                 (* -Infinity *)
  add : num -> num -> num;            (* a + b *)
  sub : num -> num -> num;            (* a - b *)
  mul : num -> num -> num;            (* a * b *)
  div : num -> num -> num;            (* a / b *)
  neg : num -> num;                   (* - a *)
  lt : num -> num -> bool;            (* a < b, false when either is NaN *)
  strict_eq : num -> num -> bool;     (* a === b, false when either is NaN *)
  is_nan : num -> bool                (* Number.isNaN *)
}.

(** Exact numbers: a rational, NaN, +Infinity or -Infinity.  There is
    one zero; it behaves as +0 when it divides. *)
Inductive xnum : Type :=
| Fin (q : Q)
| NaN
| PInf
| NInf.

Definition xneg (a : xnum) : xnum :=
  match a with
  | Fin q => Fin (- q)
  | NaN => NaN
  | PInf => NInf
  | NInf => PInf
  end.

Definition xadd (a b : xnum) : xnum :=
  match a, b with
  | NaN, _ | _, NaN => NaN
  | PInf, NInf | NInf, PInf => NaN
  | PInf, _ | _, PInf => PInf
  | NInf, _ | _, NInf => NInf
  | Fin p, Fin q => Fin (p + q)
  end.

Definition xsub (a b : xnum) : xnum := xadd a (xneg b).

(** The infinity whose sign is that of the comparison of a factor with 0;
    [Eq] is the indeterminate form. *)
Definition signed_inf (c : comparison) : xnum :=
  match c with
  | Gt => PInf
  | Lt => NInf
  | Eq => NaN
  end.

Definition xmul (a b : xnum) : xnum :=
  match a, b with
  | NaN, _ | _, NaN => NaN
  | Fin p, Fin q => Fin (p * q)
  | PInf, Fin q | Fin q, PInf => signed_inf (q ?= 0)%Q
  | NInf, Fin q | Fin q, NInf => signed_inf (0 ?= q)%Q
  | PInf, PInf | NInf, NInf => PInf
  | PInf, NInf | NInf, PInf => NInf
  end.

Definition xdiv (a b : xnum) : xnum :=
  match a, b with
  | NaN, _ | _, NaN => NaN
  | Fin p, Fin q =>
      match (q ?= 0)%Q with
      | Eq => signed_inf (p ?= 0)%Q          (* p / 0 : NaN, +Inf or -Inf *)
      | _ => Fin (p / q)
      end
  | Fin _, (PInf | NInf) => Fin 0
  | PInf, Fin q =>
      match (q ?= 0)%Q with Lt => NInf | _ => PInf end
  | NInf, Fin q =>
      match (q ?= 0)%Q with Lt => PInf | _ => NInf end
  | (PInf | NInf), (PInf | NInf) => NaN
  end.

Definition xlt (a b : xnum) : bool :=
  match a, b with
  | NaN, _ | _, NaN => false
  | Fin p, Fin q => match (p ?= q)%Q with Lt => true | _ => false end
  | NInf, (Fin _ | PInf) => true
  | Fin _, PInf => true
  | _, _ => false
  end.

Definition xeq (a b : xnum) : bool :=
  match a, b with
  | Fin p, Fin q => Qeq_bool p q
  | PInf, PInf | NInf, NInf => true
  | _, _ => false
  end.

Definition x_is_nan (a : xnum) : bool :=
  match a with NaN => true | _ => false end.

#[export] Instance exact : JsNum xnum := {
  of_Z z := Fin (inject_Z z);
  decimal q := Fin q;
  neg_infinity := NInf;
  add := xadd;
  sub := xsub;
  mul := xmul;
  div := xdiv;
  neg := xneg;
  lt := xlt;
  strict_eq := xeq;
  is_nan := x_is_nan
}.

(** Two exact numbers denote the same value. *)
Definition same (a b : xnum) : Prop :=
  match a, b with
  | Fin p, Fin q => (p == q)%Q
  | NaN, NaN | PInf, PInf | NInf, NInf => True
  | _, _ => False
  end.

Infix "=n=" := same (at level 70, no associativity).

(** ** Feature extraction (both scripts) *)

Section Features.
Context {num : Type} {N : JsNum num}.

(** An element of a [Uint8Array] read as a number. *)
Definition of_byte (b : byte) : num := of_Z (Z.of_N (Byte.to_N b)).

(** [dataArray.length] *)
Definition array_length (dataArray : list byte) : num :=
  of_Z (Z.of_nat (length dataArray)).

(** [dataArray.reduce((a, b) => a + b, 0)] *)
Definition reduce_sum (dataArray : list byte) : num :=
  fold_left (fun a b => add a (of_byte b)) dataArray (of_Z 0).

(** tool2.js, [getAverageFrequency]. *)
Definition getAverageFrequency (dataArray : list byte) : num :=
  let sum := reduce_sum dataArray in
  div sum (array_length dataArray).

(** [Math.max(a, b)] on two numbers. *)
Definition max2 (a b : num) : num :=
  if is_nan a then a
  else if is_nan b then b
  else if lt a b then b else a.

(** [Math.max(...dataArray)]: -Infinity for no argument. *)
Definition Math_max (args : list num) : num :=
  fold_left max2 args neg_infinity.

(** [dataArray.indexOf(x)]: the first index whose element is strictly
    equal to [x], or -1. *)
Fixpoint indexOf_from (i : Z) (dataArray : list byte) (x : num) : Z :=
  match dataArray with
  | [] => -1
  | b :: rest =>
      if strict_eq (of_byte b) x then i
      else indexOf_from (i + 1) rest x
  end.

Definition indexOf (dataArray : list byte) (x : num) : Z :=
  indexOf_from 0 dataArray x.

(** A CSS colour [hsl(h, s%, l%)]; the template string of the source
    is kept as its three interpolated fields. *)
Record hsl : Type := Hsl { hsl_hue : num; hsl_saturation : Z; hsl_lightness : Z }.

(** Rose script, [getPitchColor]. *)
Definition getPitchColor (dataArray : list byte) : hsl :=
  let maxIndex := indexOf dataArray (Math_max (map of_byte dataArray)) in
  let hue := mul (div (of_Z maxIndex) (array_length dataArray)) (of_Z 360) in
  Hsl hue 100 50.

End Features.

(** ** Exceptions, events and the host

    The browser is the environment: it answers the microphone request,
    fills analyser snapshots, draws random numbers and later runs the
    callbacks the scripts hand to it.  Every call a script makes that the
    user or the host can observe is appended to a trace. *)

Inductive mic_error : Type :=
| NotAllowedError          (* permission denied *)
| NotFoundError.           (* no input device *)

Inductive mic_response : Type :=
| Granted
| Rejected (e : mic_error).

Inductive exn : Type :=
| TypeError (what : string)
| MediaError (e : mic_error).

Inductive result (A : Type) : Type :=
| Ok (a : A)
| Throw (e : exn).
Arguments Ok {A} a.
Arguments Throw {A} e.

(** The functions the scripts pass to [requestAnimationFrame] and
    [setTimeout]. *)
Inductive callback : Type :=
| CbAnimate                (* tool2.js: animate *)
| CbDrawAnimation          (* rose: drawAnimation *)
| CbRequestDraw.           (* rose: () => requestAnimationFrame(drawAnimation) *)

(** The Web Audio analyser node, as far as the scripts use it. *)
Record analyser_node : Type := Analyser { fftSize : Z; has_source : bool }.

Definition createAnalyser : analyser_node := Analyser 2048 false.
Definition frequencyBinCount (a : analyser_node) : nat := Z.to_nat (fftSize a / 2).

(** [new Uint8Array(n)] *)
Definition new_Uint8Array (n : nat) : list byte := repeat x00 n.

(** What the analyser holds, cut or zero-padded to [n] bins. *)
Definition resize (n : nat) (l : list byte) : list byte :=
  firstn n (l ++ repeat x00 n).

(** Filling the caller's array in place: as many elements as both have;
    the array keeps its length. *)
Definition copy_into (dst src : list byte) : list byte :=
  firstn (List.length dst) src ++ skipn (List.length src) dst.

Section Host.
Context {num : Type} {N : JsNum num}.

Inductive event : Type :=
| EvConsoleError (msg : string) (e : exn)
| EvRequestAnimationFrame (cb : callback)
| EvSetTimeout (cb : callback) (delay : num)
| EvHideStartButton
| EvAppendCanvas
| EvAddMouseMoveListener
| EvSetSize (w h : num)
| EvUpdateProjectionMatrix
| EvRender
| EvClearRect
| EvPetal (turn rnd radius petalLength petalWidth : num) (color : @hsl num)
| EvCenter (radius : num) (color : @hsl num)
| EvUncaught (e : exn).

(** The part of the browser the scripts act on. *)
Record host_state : Type := HostState {
  trace : list event;                     (* oldest first *)
  frame_queue : list callback;            (* requestAnimationFrame *)
  timer_queue : list (callback * num);    (* setTimeout, with its delay *)
  button_hidden : bool;                   (* startButton.style.display = 'none' *)
  mouse_listener : bool;                  (* window 'mousemove' listener *)
  reads : nat                             (* host values consumed so far *)
}.

Definition host0 : host_state := HostState [] [] [] false false 0.

Definition record_event (e : event) (h : host_state) : host_state :=
  HostState (trace h ++ [e]) (frame_queue h) (timer_queue h)
            (button_hidden h) (mouse_listener h) (reads h).

Definition consume (h : host_state) : host_state :=
  HostState (trace h) (frame_queue h) (timer_queue h)
            (button_hidden h) (mouse_listener h) (S (reads h)).

Definition enqueue_frame (cb : callback) (h : host_state) : host_state :=
  HostState (trace h) (frame_queue h ++ [cb]) (timer_queue h)
            (button_hidden h) (mouse_listener h) (reads h).

Definition enqueue_timer (cb : callback) (delay : num) (h : host_state)
  : host_state :=
  HostState (trace h) (frame_queue h) (timer_queue h ++ [(cb, delay)])
            (button_hidden h) (mouse_listener h) (reads h).

Definition hide_button (h : host_state) : host_state :=
  HostState (trace h) (frame_queue h) (timer_queue h)
            true (mouse_listener h) (reads h).

Definition listen_mouse (h : host_state) : host_state :=
  HostState (trace h) (frame_queue h) (timer_queue h)
            (button_hidden h) true (reads h).

Definition take_frames (h : host_state) : host_state :=
  HostState (trace h) [] (timer_queue h)
            (button_hidden h) (mouse_listener h) (reads h).

Definition take_timers (h : host_state) : host_state :=
  HostState (trace h) (frame_queue h) []
            (button_hidden h) (mouse_listener h) (reads h).

(** What the browser supplies. *)
Record env : Type := Env {
  microphone : mic_response;              (* answer to getUserMedia *)
  spectrum : nat -> list byte;            (* byte frequency data *)
  waveform : nat -> list byte;            (* byte time-domain data *)
  random : nat -> num;                    (* Math.random() *)
  now : nat -> num;                       (* performance.now() *)
  innerWidth : num;
  innerHeight : num;
  canvas_width : num;
  canvas_height : num
}.

Record world (G : Type) : Type := World { globals : G; host : host_state }.

(** Scripts: state over the world, with exceptions. *)
Definition M (G A : Type) : Type := world G -> result A * world G.

Definition ret {G A} (a : A) : M G A := fun w => (Ok a, w).

Definition bind {G A B} (m : M G A) (k : A -> M G B) : M G B :=
  fun w =>
    match m w with
    | (Ok a, w') => k a w'
    | (Throw e, w') => (Throw e, w')
    end.

Definition throw {G A} (e : exn) : M G A := fun w => (Throw e, w).

(** [try { body } catch (error) { handler }] *)
Definition try_catch {G A} (body : M G A) (handler : exn -> M G A) : M G A :=
  fun w =>
    match body w with
    | (Ok a, w') => (Ok a, w')
    | (Throw e, w') => handler e w'
    end.

Definition get_globals {G} : M G G := fun w => (Ok (globals w), w).

Definition update {G} (f : G -> G) : M G unit :=
  fun w => (Ok tt, World (f (globals w)) (host w)).

Definition update_host {G} (f : host_state -> host_state) : M G unit :=
  fun w => (Ok tt, World (globals w) (f (host w))).

Definition emit {G} (e : event) : M G unit :=
  update_host (record_event e).

(** Reading a variable that must hold an object: a property access on
    [undefined] is a TypeError. *)
Definition deref {G A} (what : string) (o : option A) : M G A :=
  match o with
  | Some a => ret a
  | None => throw (TypeError what)
  end.

(** The next value of a host stream. *)
Definition host_read {G A} (stream : nat -> A) : M G A :=
  fun w =>
    (Ok (stream (reads (host w))), World (globals w) (consume (host w))).

(** [requestAnimationFrame(cb)] *)
Definition requestAnimationFrame {G} (cb : callback) : M G unit :=
  bind (emit (EvRequestAnimationFrame cb)) (fun _ =>
  update_host (enqueue_frame cb)).

(** The delay a timer really waits: a negative or NaN argument is 0. *)
Definition timer_delay (delay : num) : num :=
  if lt (of_Z 0) delay then delay else of_Z 0.

(** [setTimeout(cb, delay)]. The call accepts every number. *)
Definition setTimeout {G} (cb : callback) (delay : num) : M G unit :=
  bind (emit (EvSetTimeout cb delay)) (fun _ =>
  update_host (enqueue_timer cb (timer_delay delay))).

(** [document.getElementById('startButton').style.display = 'none'] *)
Definition hide_start_button {G} : M G unit :=
  bind (emit EvHideStartButton) (fun _ => update_host hide_button).

(** [window.addEventListener('mousemove', onMouseMove, false)] *)
Definition add_mousemove_listener {G} : M G unit :=
  bind (emit EvAddMouseMoveListener) (fun _ => update_host listen_mouse).

Variable E : env.

(** [navigator.mediaDevices.getUserMedia(...)] once it has settled: the
    stream, or the rejection thrown at whoever awaits it. *)
Definition getUserMedia {G} : M G unit :=
  match microphone E with
  | Granted => ret tt
  | Rejected e => throw (MediaError e)
  end.

(** [analyser.getByteFrequencyData(array)] and
    [analyser.getByteTimeDomainData(array)]: the argument must be a
    [Uint8Array]; [undefined] is refused with a TypeError. *)
Definition get_byte_data {G} (stream : nat -> list byte)
           (a : analyser_node) (array : option (list byte)) : M G (list byte) :=
  match array with
  | None => throw (TypeError "parameter 1 is not of type 'Uint8Array'")
  | Some dst =>
      bind (host_read stream) (fun src =>
      ret (copy_into dst (resize (frequencyBinCount a) src)))
  end.

Definition getByteFrequencyData {G} := @get_byte_data G (spectrum E).
Definition getByteTimeDomainData {G} := @get_byte_data G (waveform E).

(** The host runs a callback; an exception nobody caught is reported
    by the host and ends that callback only. *)
Definition run_callback {G} (m : M G unit) (w : world G) : world G :=
  match m w with
  | (Ok _, w') => w'
  | (Throw e, w') => snd (emit (EvUncaught e) w')
  end.

(** What the host does next: a frame, the timers coming due, or the
    pointer moving. *)
Inductive input : Type :=
| Frame
| TimerFires
| MouseMove (clientX clientY : num).

Section Loop.
Variable G : Type.
Variable dispatch : callback -> M G unit.
Variable on_mouse : num -> num -> M G unit.

Definition run_all (cbs : list callback) (w : world G) : world G :=
  fold_left (fun w cb => run_callback (dispatch cb) w) cbs w.

Definition step (w : world G) (i : input) : world G :=
  let h := host w in
  match i with
  | Frame =>
      run_all (frame_queue h) (World (globals w) (take_frames h))
  | TimerFires =>
      run_all (map fst (timer_queue h)) (World (globals w) (take_timers h))
  | MouseMove x y =>
      if mouse_listener h then run_callback (on_mouse x y) w else w
  end.

Definition run (w : world G) (inputs : list input) : world G :=
  fold_left step inputs w.
End Loop.

End Host.

Notation "x <- c1 ;; c2" := (bind c1 (fun x => c2))
  (at level 61, c1 at next level, right associativity).
Notation "c1 ;; c2" := (bind c1 (fun _ => c2))
  (at level 61, right associativity).

(** Counting what a trace shows. *)
Section Traces.
Context {num : Type}.

Definition is_diagnostic (e : @event num) : bool :=
  match e with EvConsoleError _ _ => true | _ => false end.

Definition is_animation_request (e : @event num) : bool :=
  match e with
  | EvRequestAnimationFrame _ | EvSetTimeout _ _ => true
  | _ => false
  end.

Definition is_uncaught (e : @event num) : bool :=
  match e with EvUncaught _ => true | _ => false end.

Definition is_render (e : @event num) : bool :=
  match e with EvRender => true | _ => false end.

Definition is_canvas (e : @event num) : bool :=
  match e with EvAppendCanvas => true | _ => false end.

Definition count (p : @event num -> bool) (tr : list (@event num)) : nat :=
  List.length (filter p tr).

Definition diagnostics := count is_diagnostic.
Definition animation_requests := count is_animation_request.
Definition uncaught := count is_uncaught.
End Traces.

(** ** tool2.js: the sphere *)

Module Sphere.
Section Script.
Context {num : Type} {N : JsNum num}.
Variable E : @env num.

Inductive colour : Type :=
| Hex (rgb : Z)
| HSL (h s l : num).

Record mesh : Type := Mesh {
  scale : num * num * num;
  color : colour;
  rotation_x : num;
  rotation_y : num
}.

Record camera_t : Type := Camera {
  fov : num;
  aspect : num;
  position_z : num
}.

(** [let scene, camera, renderer, sphere, analyser, audioContext,
    frequencyData, mouseX = 0, mouseY = 0;] with [None] for
    [undefined]. *)
Record globals_t : Type := Globals {
  scene : option unit;
  camera : option camera_t;
  renderer : option unit;
  sphere : option mesh;
  analyser : option analyser_node;
  audioContext : option unit;
  frequencyData : option (list byte);
  mouseX : num;
  mouseY : num
}.

Definition globals0 : globals_t :=
  Globals None None None None None None None (of_Z 0) (of_Z 0).

Definition set_scene v g :=
  Globals v (camera g) (renderer g) (sphere g) (analyser g)
          (audioContext g) (frequencyData g) (mouseX g) (mouseY g).
Definition set_camera v g :=
  Globals (scene g) v (renderer g) (sphere g) (analyser g)
          (audioContext g) (frequencyData g) (mouseX g) (mouseY g).
Definition set_renderer v g :=
  Globals (scene g) (camera g) v (sphere g) (analyser g)
          (audioContext g) (frequencyData g) (mouseX g) (mouseY g).
Definition set_sphere v g :=
  Globals (scene g) (camera g) (renderer g) v (analyser g)
          (audioContext g) (frequencyData g) (mouseX g) (mouseY g).
Definition set_analyser v g :=
  Globals (scene g) (camera g) (renderer g) (sphere g) v
          (audioContext g) (frequencyData g) (mouseX g) (mouseY g).
Definition set_audioContext v g :=
  Globals (scene g) (camera g) (renderer g) (sphere g) (analyser g)
          v (frequencyData g) (mouseX g) (mouseY g).
Definition set_frequencyData v g :=
  Globals (scene g) (camera g) (renderer g) (sphere g) (analyser g)
          (audioContext g) v (mouseX g) (mouseY g).
Definition set_mouseX v g :=
  Globals (scene g) (camera g) (renderer g) (sphere g) (analyser g)
          (audioContext g) (frequencyData g) v (mouseY g).
Definition set_mouseY v g :=
  Globals (scene g) (camera g) (renderer g) (sphere g) (analyser g)
          (audioContext g) (frequencyData g) (mouseX g) v.

Local Abbreviation script := (@M num globals_t).
Local Abbreviation page := (@world num globals_t).

(** [async function initAudio()] *)
Definition initAudio : script unit :=
  update (set_audioContext (Some tt)) ;;
  update (set_analyser (Some createAnalyser)) ;;
  try_catch
    (getUserMedia E ;;                         (* await getUserMedia(...) *)
     g <- get_globals ;;
     a <- deref "analyser" (analyser g) ;;
     let a := Analyser (fftSize a) true in     (* source.connect(analyser) *)
     let a := Analyser 256 (has_source a) in   (* analyser.fftSize = 256 *)
     update (set_analyser (Some a)) ;;
     update (set_frequencyData (Some (new_Uint8Array (frequencyBinCount a)))))
    (fun error => emit (EvConsoleError "Error accessing microphone" error)).

(** The value passed three times to [sphere.scale.set]. *)
Definition scale_of (averageFrequency : num) : num :=
  add (of_Z 1) (div averageFrequency (of_Z 128)).

(** [function animate()] *)
Definition animate : script unit :=
  requestAnimationFrame CbAnimate ;;
  g <- get_globals ;;
  match analyser g with
  | Some a =>
      data <- getByteFrequencyData E a (frequencyData g) ;;
      update (set_frequencyData (Some data)) ;;
      let averageFrequency := getAverageFrequency data in
      s <- deref "sphere" (sphere g) ;;
      update (set_sphere (Some
        (Mesh (scale_of averageFrequency, scale_of averageFrequency,
               scale_of averageFrequency)
              (HSL (div averageFrequency (of_Z 256)) (of_Z 1) (decimal 0.5))
              (rotation_x s) (rotation_y s)))) ;;
      (* Chaotically change the camera's FOV *)
      c <- deref "camera" (camera g) ;;
      update (set_camera (Some
        (Camera (add (of_Z 750) (mul averageFrequency (decimal 0.01)))
                (aspect c) (position_z c)))) ;;
      emit EvUpdateProjectionMatrix
  | None => ret tt
  end ;;
  g <- get_globals ;;
  s <- deref "sphere" (sphere g) ;;
  let rx := add (rotation_x s)
                (mul (sub (mouseY g) (rotation_x s)) (decimal 0.05)) in
  let ry := add (rotation_y s)
                (mul (sub (mouseX g) (rotation_y s)) (decimal 0.05)) in
  update (set_sphere (Some (Mesh (scale s) (color s) rx ry))) ;;
  _ <- deref "renderer" (renderer g) ;;
  emit EvRender.

(** [function initThreeJS()] *)
Definition initThreeJS : script unit :=
  update (set_scene (Some tt)) ;;
  update (set_camera (Some
    (Camera (of_Z 75) (div (innerWidth E) (innerHeight E)) (of_Z 0)))) ;;
  update (set_renderer (Some tt)) ;;
  emit (EvSetSize (innerWidth E) (innerHeight E)) ;;
  emit EvAppendCanvas ;;
  update (set_sphere (Some
    (Mesh (of_Z 1, of_Z 1, of_Z 1) (Hex 16777215) (of_Z 0) (of_Z 0)))) ;;
  g <- get_globals ;;
  c <- deref "camera" (camera g) ;;
  update (set_camera (Some (Camera (fov c) (aspect c) (of_Z 10)))) ;;
  add_mousemove_listener ;;
  animate.

(** [function onMouseMove(event)] *)
Definition onMouseMove (clientX clientY : num) : script unit :=
  update (set_mouseX
    (sub (mul (div clientX (innerWidth E)) (of_Z 2)) (of_Z 1))) ;;
  update (set_mouseY
    (add (mul (neg (div clientY (innerHeight E))) (of_Z 2)) (of_Z 1))).

(** The click listener of the start button. *)
Definition on_click : script unit :=
  initAudio ;;                                 (* await initAudio() *)
  initThreeJS ;;
  hide_start_button.

Definition dispatch (cb : callback) : script unit :=
  match cb with
  | CbAnimate => animate
  | _ => ret tt
  end.

Definition world0 : page := World globals0 host0.

(** The page after one click on the start button. *)
Definition clicked : page := run_callback on_click world0.

(** A run: one click, then whatever the host does. *)
Definition session (inputs : list input) : page :=
  run dispatch onMouseMove clicked inputs.

End Script.
End Sphere.

(** ** The rose canvas script *)

Module Rose.
Section Script.
Context {num : Type} {N : JsNum num}.
Variable E : @env num.

(** [let audioContext; let analyser; let volume = 0;
    let lastUpdateTime = 0;] *)
Record globals_t : Type := Globals {
  audioContext : option unit;
  analyser : option analyser_node;
  volume : num;
  lastUpdateTime : num
}.

Definition globals0 : globals_t := Globals None None (of_Z 0) (of_Z 0).

Definition set_audioContext v g :=
  Globals v (analyser g) (volume g) (lastUpdateTime g).
Definition set_analyser v g :=
  Globals (audioContext g) v (volume g) (lastUpdateTime g).
Definition set_volume v g :=
  Globals (audioContext g) (analyser g) v (lastUpdateTime g).
Definition set_lastUpdateTime v g :=
  Globals (audioContext g) (analyser g) (volume g) v.

Local Abbreviation script := (@M num globals_t).
Local Abbreviation page := (@world num globals_t).

Definition centerX : num := div (canvas_width E) (of_Z 2).
Definition centerY : num := div (canvas_height E) (of_Z 2).
Definition numPetals : nat := 10.

(** [function updateAudioData()] *)
Definition updateAudioData : script unit :=
  g <- get_globals ;;
  a <- deref "analyser" (analyser g) ;;
  let bufferLength := frequencyBinCount a in
  let dataArray := new_Uint8Array bufferLength in
  dataArray <- getByteFrequencyData E a (Some dataArray) ;;
  let sum := reduce_sum dataArray in
  (* Normalized volume (0-1) *)
  update (set_volume (div (div sum (array_length dataArray)) (of_Z 128))).

(** [function drawCenterObject(color)] *)
Definition drawCenterObject (color : @hsl num) : script unit :=
  g <- get_globals ;;
  emit (EvCenter (mul (of_Z 5) (add (of_Z 1) (mul (volume g) (of_Z 3)))) color).

(** [function drawPetal(x, y, angle, petalLength, petalWidth, color)]:
    one stroked ellipse.  The angle of the caller is
    [turn * Math.PI * rnd] and the centre lies at distance [radius] in
    that direction from the canvas centre; the petal is recorded by
    these polar data. *)
Definition drawPetal (turn rnd radius petalLength petalWidth : num)
           (color : @hsl num) : script unit :=
  emit (EvPetal turn rnd radius petalLength petalWidth color).

(** The body of the loop of [drawRose]: four draws of [Math.random()],
    then [drawPetal]. *)
Definition petal (color : @hsl num) (i : nat) : script unit :=
  g <- get_globals ;;
  rnd <- host_read (random E) ;;
  let turn := mul (div (of_Z (Z.of_nat i)) (of_Z (Z.of_nat numPetals))) (of_Z 20) in
  r1 <- host_read (random E) ;;
  let radius := add (of_Z 5) (mul (mul r1 (of_Z 300)) (volume g)) in
  r2 <- host_read (random E) ;;
  let petalLength := add (of_Z 30) (mul (mul r2 (of_Z 300)) (volume g)) in
  r3 <- host_read (random E) ;;
  let petalWidth := add (of_Z 15) (mul (mul r3 (of_Z 300)) (volume g)) in
  drawPetal turn rnd radius petalLength petalWidth color.

Fixpoint for_each (body : nat -> script unit) (indices : list nat) : script unit :=
  match indices with
  | [] => ret tt
  | i :: rest => body i ;; for_each body rest
  end.

(** [function drawRose(color)] *)
Definition drawRose (color : @hsl num) : script unit :=
  for_each (petal color) (seq 0 numPetals).

(** [function drawAnimation()] *)
Definition drawAnimation : script unit :=
  currentTime <- host_read (now E) ;;
  g <- get_globals ;;
  let timeDiff := sub currentTime (lastUpdateTime g) in
  update (set_lastUpdateTime currentTime) ;;
  emit EvClearRect ;;
  updateAudioData ;;
  g <- get_globals ;;
  a <- deref "analyser" (analyser g) ;;
  let bufferLength := frequencyBinCount a in
  let dataArray := new_Uint8Array bufferLength in
  dataArray <- getByteTimeDomainData E a (Some dataArray) ;;
  let color := getPitchColor dataArray in
  drawRose color ;;
  drawCenterObject color ;;
  g <- get_globals ;;
  let delay := sub (of_Z 10) (mul (volume g) (of_Z 900)) in
  setTimeout CbRequestDraw delay.

(** The click listener of the start button, up to its return: the
    microphone request is pending, with [on_stream] as its only
    reaction. *)
Definition on_click : script unit :=
  update (set_audioContext (Some tt)) ;;
  update (set_analyser (Some createAnalyser)) ;;
  g <- get_globals ;;
  a <- deref "analyser" (analyser g) ;;
  update (set_analyser (Some (Analyser 2048 (has_source a)))) ;;
  hide_start_button.

(** [.then(function(stream) { ... })] *)
Definition on_stream : script unit :=
  g <- get_globals ;;
  a <- deref "analyser" (analyser g) ;;
  update (set_analyser (Some (Analyser (fftSize a) true))) ;;
  t <- host_read (now E) ;;
  update (set_lastUpdateTime t) ;;
  drawAnimation.

(** The request settles.  There is no rejection handler: a rejection
    reaches the host unhandled. *)
Definition settle (w : page) : page :=
  match microphone E with
  | Granted => run_callback on_stream w
  | Rejected e => snd (emit (EvUncaught (MediaError e)) w)
  end.

Definition dispatch (cb : callback) : script unit :=
  match cb with
  | CbDrawAnimation => drawAnimation
  | CbRequestDraw => requestAnimationFrame CbDrawAnimation
  | CbAnimate => ret tt
  end.

Definition no_mouse (clientX clientY : num) : script unit := ret tt.

Definition world0 : page := World globals0 host0.

(** The page after one click and the answer to the request. *)
Definition clicked : page := settle (run_callback on_click world0).

Definition session (inputs : list input) : page :=
  run dispatch no_mouse clicked inputs.

End Script.
End Rose.

(** ** Binary64 numbers

    The numbers a browser computes with.  Integers go through the
    63-bit conversion, which is exact below 2^53. *)

Definition float_of_Z (z : Z) : float :=
  match z with
  | Z0 => PrimFloat.of_uint63 0%uint63
  | Zpos _ => PrimFloat.of_uint63 (Uint63.of_Z z)
  | Zneg p => PrimFloat.opp (PrimFloat.of_uint63 (Uint63.of_Z (Zpos p)))
  end.

#[export] Instance binary64 : JsNum float := {
  of_Z := float_of_Z;
  decimal q := PrimFloat.div (float_of_Z (Qnum q)) (float_of_Z (Zpos (Qden q)));
  neg_infinity := PrimFloat.neg_infinity;
  add := PrimFloat.add;
  sub := PrimFloat.sub;
  mul := PrimFloat.mul;
  div := PrimFloat.div;
  neg := PrimFloat.opp;
  lt := PrimFloat.ltb;
  strict_eq := PrimFloat.eqb;
  is_nan := PrimFloat.is_nan
}.

(** ** Notions the properties are stated with *)

Definition byte_value (b : byte) : Z := Z.of_N (Byte.to_N b).

(** The sum of the samples of a snapshot. *)
Definition total (snapshot : list byte) : Z :=
  fold_right (fun b s => byte_value b + s) 0 snapshot.

(** The arithmetic mean of a non-empty snapshot. *)
Definition arithmetic_mean (snapshot : list byte) : Q :=
  inject_Z (total snapshot) / inject_Z (Z.of_nat (List.length snapshot)).

Definition value_at (snapshot : list byte) (i : nat) : Z :=
  byte_value (nth i snapshot x00).

(** Index [k] holds the maximum and no other index does. *)
Definition unique_maximum_at (snapshot : list byte) (k : nat) : Prop :=
  (k < List.length snapshot)%nat /\
  forall j, (j < List.length snapshot)%nat -> j <> k ->
            value_at snapshot j < value_at snapshot k.

(** Index [k] is the lowest index that holds the maximum. *)
Definition first_maximum_at (snapshot : list byte) (k : nat) : Prop :=
  (k < List.length snapshot)%nat /\
  (forall j, (j < List.length snapshot)%nat ->
             value_at snapshot j <= value_at snapshot k) /\
  (forall j, (j < k)%nat -> value_at snapshot j < value_at snapshot k).

(** The snapshot of the end-to-end scenario: 2048 bytes, all 0 except
    index 1024, which is 255. *)
Definition scenario : list byte := repeat x00 1024 ++ xff :: repeat x00 1023.

(** The snapshot an analyser read returns for a fresh array: the
    [n]-th host value, brought to the analyser's bin count. *)
Definition fresh_snapshot (stream : nat -> list byte) (a : analyser_node)
           (n : nat) : list byte :=
  copy_into (new_Uint8Array (frequencyBinCount a))
            (resize (frequencyBinCount a) (stream n)).

(** A browser for examples: it answers the microphone request with
    [m], reports [level] in every frequency bin and the scenario
    snapshot as wave form, draws 1/2 as every random number and counts
    its clock in reads. *)
Definition sample_env (m : mic_response) (level : byte) : @env xnum :=
  Env m (fun _ => repeat level 2048) (fun _ => scenario)
      (fun _ => Fin (1 # 2)) (fun n => Fin (inject_Z (Z.of_nat n)))
      (Fin 800) (Fin 600) (Fin 400) (Fin 400).

(** A value lies between two others, whichever is the larger. *)
Definition between (a b x : Q) : Prop :=
  (a <= x <= b)%Q \/ (b <= x <= a)%Q.

(** The sphere page once audio and scene are set up: the state in
    which [animate] runs its whole body. *)
Definition sphere_ready {num : Type} (g : @Sphere.globals_t num)
           (a : analyser_node) (data : list byte)
           (s : @Sphere.mesh num) (c : @Sphere.camera_t num) : Prop :=
  Sphere.analyser g = Some a /\
  Sphere.frequencyData g = Some data /\
  Sphere.sphere g = Some s /\
  Sphere.camera g = Some c /\
  Sphere.renderer g = Some tt.

(** A sphere page that is set up, for examples: the scene as
    [initThreeJS] builds it, a 128-bin snapshot, the pointer at
    (1/2, -1/4) and the sphere turned to (1, 0). *)
Definition ready_mesh : @Sphere.mesh xnum :=
  Sphere.Mesh (Fin 1, Fin 1, Fin 1) (Sphere.Hex 16777215) (Fin 1) (Fin 0).
Definition ready_camera : @Sphere.camera_t xnum :=
  Sphere.Camera (Fin 75) (Fin (4 # 3)) (Fin 10).
Definition ready_globals : @Sphere.globals_t xnum :=
  Sphere.Globals (Some tt) (Some ready_camera) (Some tt) (Some ready_mesh)
                 (Some (Analyser 256 true)) (Some tt)
                 (Some (new_Uint8Array 128)) (Fin (1 # 2)) (Fin (- (1 # 4))).
Definition ready_host : @host_state xnum :=
  HostState [] [CbAnimate] [] true true 0.

(** A rose page whose audio is set up, for examples. *)
Definition rose_ready_globals : @Rose.globals_t xnum :=
  Rose.Globals (Some tt) (Some (Analyser 2048 true)) (Fin 0) (Fin 0).

(** The pages of the end-to-end scenario: analysers with 2048 bins whose
    frequency and time-domain data are both the scenario snapshot. *)
Definition scenario_env : @env xnum :=
  Env Granted (fun _ => scenario) (fun _ => scenario)
      (fun _ => Fin (1 # 2)) (fun _ => Fin 0)
      (Fin 800) (Fin 600) (Fin 400) (Fin 400).
Definition scenario_sphere_globals : @Sphere.globals_t xnum :=
  Sphere.Globals (Some tt) (Some ready_camera) (Some tt) (Some ready_mesh)
                 (Some (Analyser 4096 true)) (Some tt)
                 (Some (new_Uint8Array 2048)) (Fin 0) (Fin 0).
Definition scenario_rose_globals : @Rose.globals_t xnum :=
  Rose.Globals (Some tt) (Some (Analyser 4096 true)) (Fin 0) (Fin 0).

(** A binary64 browser for examples: half-scale in every bin, an
    800 by 600 window. *)
Definition float_env : @env float :=
  Env Granted (fun _ => repeat x80 128) (fun _ => []) (fun _ => 0.5%float)
      (fun _ => 0%float) 800%float 600%float 400%float 400%float.

(** The pointer moves to the top right corner, then 200 frames pass. *)
Definition float_session : @world float (@Sphere.globals_t float) :=
  Sphere.session float_env (MouseMove 800%float 0%float :: repeat Frame 200).

(** A browser in which the user denies the microphone. *)
Definition rejecting_env : @env xnum := sample_env (Rejected NotAllowedError) x00.

(** A failure that leaves no mark but one diagnostic: nothing scheduled
    for animation, one diagnostic, nothing uncaught. *)
Definition quiet_failure {num : Type} (tr : list (@event num)) : Prop :=
  animation_requests tr = 0%nat /\ diagnostics tr = 1%nat /\ uncaught tr = 0%nat.

(** A sphere page left un-started: one diagnostic, nothing scheduled,
    no canvas added, the start button still shown. *)
Definition left_unstarted {num : Type}
           (w : @world num (@Sphere.globals_t num)) : Prop :=
  diagnostics (trace (host w)) = 1%nat /\
  animation_requests (trace (host w)) = 0%nat /\
  count is_canvas (trace (host w)) = 0%nat /\
  button_hidden (host w) = false.

(** What the sphere's click handler does when the request is rejected,
    up to the first statement of [animate]. *)
Definition sphere_failure_prefix {num : Type} (E : @env num) (e : mic_error)
  : list (@event num) :=
  [EvConsoleError "Error accessing microphone" (MediaError e);
   EvSetSize (innerWidth E) (innerHeight E);
   EvAppendCanvas;
   EvAddMouseMoveListener;
   EvRequestAnimationFrame CbAnimate].

(** The sphere page running without audio data: the scene exists, the
    analyser exists but no snapshot array does, [animate] is pending. *)
Definition started_without_audio {num : Type} (E : @env num) (e : mic_error)
           (w : @world num (@Sphere.globals_t num)) : Prop :=
  (exists a, Sphere.analyser (globals w) = Some a) /\
  Sphere.frequencyData (globals w) = None /\
  (exists s, Sphere.sphere (globals w) = Some s) /\
  frame_queue (host w) = [CbAnimate] /\
  timer_queue (host w) = [] /\
  mouse_listener (host w) = true /\
  button_hidden (host w) = false /\
  exists rest,
    trace (host w) = sphere_failure_prefix E e ++ rest /\
    diagnostics rest = 0%nat /\
    count is_canvas rest = 0%nat /\
    count is_render rest = 0%nat /\
    (1 <= uncaught rest)%nat.

(** The rose page after a rejected request: the button is hidden and
    the rejection went unhandled; nothing is pending. *)
Definition rose_inert {num : Type} (e : mic_error)
           (w : @world num (@Rose.globals_t num)) : Prop :=
  trace (host w) = [EvHideStartButton; EvUncaught (MediaError e)] /\
  frame_queue (host w) = [] /\
  timer_queue (host w) = [] /\
  mouse_listener (host w) = false /\
  button_hidden (host w) = true.

(** Canvas drawing calls. *)
Definition is_drawing {num : Type} (e : @event num) : bool :=
  match e with
  | EvClearRect | EvPetal _ _ _ _ _ _ | EvCenter _ _ => true
  | _ => false
  end.

(** From [h] to [h'] the script only drew on the canvas and consumed
    host values: nothing was scheduled, logged or hidden. *)
Definition drawn {num : Type} (h h' : @host_state num) : Prop :=
  frame_queue h' = frame_queue h /\
  timer_queue h' = timer_queue h /\
  button_hidden h' = button_hidden h /\
  mouse_listener h' = mouse_listener h /\
  exists tr, trace h' = trace h ++ tr /\ forallb is_drawing tr = true.

(** The rose page in its loop: the analyser exists and no exception
    has reached the host. *)
Definition rose_running {num : Type} (w : @world num (@Rose.globals_t num)) : Prop :=
  (exists a, Rose.analyser (globals w) = Some a) /\
  uncaught (trace (host w)) = 0%nat.

(** A delay passed to [setTimeout] that is below zero. *)
Definition negative_delay (e : @event xnum) : bool :=
  match e with
  | EvSetTimeout _ (Fin q) => negb (Qle_bool 0 q)
  | EvSetTimeout _ _ => false
  | _ => true
  end.

(** The volume of the rose page is a number between 0 and 255/128, and
    its analyser, once created, has at least one bin. *)
Definition volume_in_range (w : @world xnum (@Rose.globals_t xnum)) : Prop :=
  (exists v, Rose.volume (globals w) = Fin v /\ 0 <= v <= 255 / 128)%Q /\
  (forall a, Rose.analyser (globals w) = Some a -> (0 < frequencyBinCount a)%nat).

(** The per-tick smoothing factor and what is left of a distance after
    one tick. *)
Definition easing : Q := 0.05.
Definition decay : Q := 0.95.

(** ** Notions for the further properties *)

(** The lowest index holding the maximum, found in one scan from the
    right end; 0 for the empty snapshot. *)
Fixpoint first_argmax (snapshot : list byte) : nat :=
  match snapshot with
  | [] => 0%nat
  | b :: rest =>
      match rest with
      | [] => 0%nat
      | _ :: _ =>
          if (value_at rest (first_argmax rest) <=? byte_value b)%Z
          then 0%nat
          else S (first_argmax rest)
      end
  end.

Section MoreTraces.
Context {num : Type}.

Definition is_petal (e : @event num) : bool :=
  match e with EvPetal _ _ _ _ _ _ => true | _ => false end.

Definition is_clear (e : @event num) : bool :=
  match e with EvClearRect => true | _ => false end.

Definition is_center (e : @event num) : bool :=
  match e with EvCenter _ _ => true | _ => false end.

Definition is_timeout (e : @event num) : bool :=
  match e with EvSetTimeout _ _ => true | _ => false end.

Definition is_frame_request (e : @event num) : bool :=
  match e with EvRequestAnimationFrame _ => true | _ => false end.

(** The frames among the inputs of a session. *)
Definition frames (inputs : list (@input num)) : nat :=
  List.length (filter (fun i => match i with Frame => true | _ => false end) inputs).

(** What can happen to the sphere page: the host's inputs, or a click
    on the start button (with the microphone answer already in). *)
Inductive user_input : Type :=
| UClick
| UHost (i : @input num).

Definition clicks (visit : list user_input) : nat :=
  List.length (filter (fun u => match u with UClick => true | _ => false end) visit).

End MoreTraces.

Section Visits.
Context {num : Type} {N : JsNum num}.
Variable E : @env num.

(** The sphere page from its load on, with any number of clicks. *)
Definition sphere_act (w : @world num (@Sphere.globals_t num))
           (u : @user_input num) : @world num (@Sphere.globals_t num) :=
  match u with
  | UClick => run_callback (Sphere.on_click E) w
  | UHost i => step (Sphere.dispatch E) (Sphere.onMouseMove E) w i
  end.

Definition sphere_visit (visit : list (@user_input num))
  : @world num (@Sphere.globals_t num) :=
  fold_left sphere_act visit Sphere.world0.

(** The petal the loop of [drawRose] draws for index [i] when the next
    unread host value is number [r]. *)
Definition petal_event (color : @hsl num) (volume : num) (r i : nat) : @event num :=
  EvPetal (mul (div (of_Z (Z.of_nat i)) (of_Z (Z.of_nat Rose.numPetals))) (of_Z 20))
          (random E r)
          (add (of_Z 5) (mul (mul (random E (S r)) (of_Z 300)) volume))
          (add (of_Z 30) (mul (mul (random E (S (S r))) (of_Z 300)) volume))
          (add (of_Z 15) (mul (mul (random E (S (S (S r)))) (of_Z 300)) volume))
          color.

Fixpoint petal_events (color : @hsl num) (volume : num) (r : nat)
         (indices : list nat) : list (@event num) :=
  match indices with
  | [] => []
  | i :: rest =>
      petal_event color volume r i
      :: petal_events color volume (S (S (S (S r)))) rest
  end.

(** The events of one [drawAnimation], for the page's analyser [a] and
    the host values from number [r] on. *)
Definition tick_events (a : analyser_node) (r : nat) : list (@event num) :=
  let volume := div (getAverageFrequency (fresh_snapshot (spectrum E) a (S r)))
                    (of_Z 128) in
  let color := getPitchColor (fresh_snapshot (waveform E) a (S (S r))) in
  EvClearRect
  :: petal_events color volume (S (S (S r))) (seq 0 Rose.numPetals)
  ++ [EvCenter (mul (of_Z 5) (add (of_Z 1) (mul volume (of_Z 3)))) color;
      EvSetTimeout CbRequestDraw (sub (of_Z 10) (mul volume (of_Z 900)))].

End Visits.

(** The sphere page in its loop: set up with 128 bins, [animate] the
    only pending callback, the button hidden, nothing thrown. *)
Definition sphere_looping {num : Type} (w : @world num (@Sphere.globals_t num)) : Prop :=
  (exists data s c,
      sphere_ready (globals w) (Analyser 256 true) data s c /\
      List.length data = 128%nat) /\
  frame_queue (host w) = [CbAnimate] /\
  timer_queue (host w) = [] /\
  mouse_listener (host w) = true /\
  button_hidden (host w) = true /\
  uncaught (trace (host w)) = 0%nat.

(** The rose page in its loop: the analyser has 1024 bins, exactly one
    callback is pending (the timer of the last tick or the frame request
    it turned into), the button is hidden, no pointer listener exists,
    nothing was thrown, and the trace holds ten petals, one centre disk
    and one timer per cleared canvas. *)
Definition rose_looping {num : Type} (w : @world num (@Rose.globals_t num)) : Prop :=
  Rose.analyser (globals w) = Some (Analyser 2048 true) /\
  ((frame_queue (host w) = [] /\ map fst (timer_queue (host w)) = [CbRequestDraw]) \/
   (frame_queue (host w) = [CbDrawAnimation] /\ timer_queue (host w) = [])) /\
  button_hidden (host w) = true /\
  mouse_listener (host w) = false /\
  uncaught (trace (host w)) = 0%nat /\
  diagnostics (trace (host w)) = 0%nat /\
  count is_petal (trace (host w)) = (10 * count is_clear (trace (host w)))%nat /\
  count is_center (trace (host w)) = count is_clear (trace (host w)) /\
  count is_timeout (trace (host w)) = count is_clear (trace (host w)).

(** The looks of the sphere lie in the ranges byte-valued snapshots
    allow. *)
Definition sphere_looks_in_range (w : @world xnum (@Sphere.globals_t xnum)) : Prop :=
  (exists s q hue,
      Sphere.sphere (globals w) = Some s /\
      Sphere.scale s = (Fin q, Fin q, Fin q) /\
      (1 <= q <= 383 / 128)%Q /\
      Sphere.color s = Sphere.HSL (Fin hue) (Fin 1) (Fin 0.5) /\
      (0 <= hue <= 255 / 256)%Q) /\
  (exists c f,
      Sphere.camera (globals w) = Some c /\
      Sphere.fov c = Fin f /\
      (750 <= f <= 750 + 255 / 100)%Q /\
      Sphere.position_z c = Fin 10).

(** Pointer and rotation lie in [-1, 1]. *)
Definition sphere_turn_in_range (w : @world xnum (@Sphere.globals_t xnum)) : Prop :=
  exists s mx my rx ry,
    Sphere.sphere (globals w) = Some s /\
    Sphere.mouseX (globals w) = Fin mx /\
    Sphere.mouseY (globals w) = Fin my /\
    Sphere.rotation_x s = Fin rx /\
    Sphere.rotation_y s = Fin ry /\
    (- (1) <= mx <= 1)%Q /\ (- (1) <= my <= 1)%Q /\
    (- (1) <= rx <= 1)%Q /\ (- (1) <= ry <= 1)%Q.

(** A pointer event inside a window of width [W] and height [H]. *)
Definition inside_window (W H : Q) (i : @input xnum) : Prop :=
  match i with
  | MouseMove (Fin x) (Fin y) => (0 <= x <= W)%Q /\ (0 <= y <= H)%Q
  | MouseMove _ _ => False
  | _ => True
  end.

(** A petal of the rose within the bounds volume [v] allows. *)
Definition petal_in_range (v : Q) (e : @event xnum) : Prop :=
  match e with
  | EvPetal (Fin _) (Fin rnd) (Fin radius) (Fin len) (Fin wid) _ =>
      (0 <= rnd < 1)%Q /\
      (5 <= radius <= 5 + 300 * v)%Q /\
      (30 <= len <= 30 + 300 * v)%Q /\
      (15 <= wid <= 15 + 300 * v)%Q
  | _ => False
  end.

Section Animated.
Context {num : Type} {N : JsNum num}.
Variable E : @env num.

(** The globals after one [animate] on a page that is set up. *)
Definition animated (g : Sphere.globals_t) (a : analyser_node) (data : list byte)
           (s : Sphere.mesh) (c : Sphere.camera_t) (r : nat) : Sphere.globals_t :=
  let data' := copy_into data (resize (frequencyBinCount a) (spectrum E r)) in
  let avg := getAverageFrequency data' in
  Sphere.Globals (Sphere.scene g)
    (Some (Sphere.Camera (add (of_Z 750) (mul avg (decimal 0.01)))
                         (Sphere.aspect c) (Sphere.position_z c)))
    (Sphere.renderer g)
    (Some (Sphere.Mesh
             (Sphere.scale_of avg, Sphere.scale_of avg, Sphere.scale_of avg)
             (Sphere.HSL (div avg (of_Z 256)) (of_Z 1) (decimal 0.5))
             (add (Sphere.rotation_x s)
                  (mul (sub (Sphere.mouseY g) (Sphere.rotation_x s)) (decimal 0.05)))
             (add (Sphere.rotation_y s)
                  (mul (sub (Sphere.mouseX g) (Sphere.rotation_y s)) (decimal 0.05)))))
    (Sphere.analyser g) (Sphere.audioContext g) (Some data')
    (Sphere.mouseX g) (Sphere.mouseY g).

End Animated.

(** A browser whose window has width 0. *)
Definition zero_width_env : @env xnum :=
  Env Granted (fun _ => repeat x40 2048) (fun _ => scenario)
      (fun _ => Fin (1 # 2)) (fun n => Fin (inject_Z (Z.of_nat n)))
      (Fin 0) (Fin 600) (Fin 400) (Fin 400).

(** The sphere page after [c] clicks that were all rejected: [c]
    diagnostics, [c] canvases, [c] pending [animate] callbacks, nothing
    rendered, the button shown. *)
Definition piled_up {num : Type} (c : nat)
           (w : @world num (@Sphere.globals_t num)) : Prop :=
  frame_queue (host w) = repeat CbAnimate c /\
  timer_queue (host w) = [] /\
  button_hidden (host w) = false /\
  diagnostics (trace (host w)) = c /\
  count is_canvas (trace (host w)) = c /\
  count is_render (trace (host w)) = 0%nat /\
  Sphere.frequencyData (globals w) = None /\
  ((1 <= c)%nat -> exists a, Sphere.analyser (globals w) = Some a).

(** * Properties *)

Unset Implicit Arguments.

(** ** Exact numbers *)

Local Open Scope Q_scope.

Lemma same_refl (a : xnum) : a =n= a.
Proof. destruct a; simpl; auto with qarith. Qed.

Lemma same_Fin (a : xnum) (q : Q) :
  a =n= Fin q <-> exists p, a = Fin p /\ p == q.
Proof.
  split.
  - destruct a as [p| | |]; simpl; intros H; try contradiction.
    exists p; split; [reflexivity | exact H].
  - intros [p [-> H]]. exact H.
Qed.

Lemma Qcompare_pos (q : Q) : 0 < q -> (q ?= 0) = Gt.
Proof. intros H. apply Qgt_alt. exact H. Qed.

Lemma xdiv_pos (p q : Q) : 0 < q -> xdiv (Fin p) (Fin q) = Fin (p / q).
Proof. intros H. unfold xdiv. rewrite (Qcompare_pos q H). reflexivity. Qed.

Lemma byte_value_range (b : byte) : (0 <= byte_value b <= 255)%Z.
Proof.
  unfold byte_value. pose proof (Byte.to_N_bounded b). lia.
Qed.

Lemma of_byte_exact (b : byte) : of_byte b = Fin (inject_Z (byte_value b)).
Proof. reflexivity. Qed.

Lemma inject_Z_pos (z : Z) : (0 < z)%Z -> 0 < inject_Z z.
Proof. intros H. change 0 with (inject_Z 0). rewrite <- Zlt_Qlt. exact H. Qed.

Lemma inject_Z_nonneg (z : Z) : (0 <= z)%Z -> 0 <= inject_Z z.
Proof. intros H. change 0 with (inject_Z 0). rewrite <- Zle_Qle. exact H. Qed.

(** ** The sum and the mean *)

Lemma total_range (snapshot : list byte) :
  (0 <= total snapshot <= 255 * Z.of_nat (List.length snapshot))%Z.
Proof.
  induction snapshot as [|b rest IH]; simpl; [lia|].
  pose proof (byte_value_range b). lia.
Qed.

Lemma total_repeat (b : byte) (n : nat) :
  total (repeat b n) = (byte_value b * Z.of_nat n)%Z.
Proof.
  induction n as [|n IH]; [simpl; lia|].
  change (total (repeat b (S n))) with (byte_value b + total (repeat b n))%Z.
  rewrite IH. lia.
Qed.

(** The left fold of the source adds up the samples, whatever finite
    number it starts from. *)
Lemma fold_add_bytes (snapshot : list byte) :
  forall q : Q,
    exists r, fold_left (fun a b => xadd a (of_byte b)) snapshot (Fin q) = Fin r
              /\ r == q + inject_Z (total snapshot).
Proof.
  induction snapshot as [|b rest IH]; intros q.
  - exists q. split; [reflexivity | simpl; ring].
  - cbn [fold_left]. rewrite of_byte_exact. cbn [xadd].
    destruct (IH (q + inject_Z (byte_value b))) as [r [Hr Hq]].
    exists r. split; [exact Hr|].
    rewrite Hq. simpl total. rewrite inject_Z_plus. ring.
Qed.

Lemma reduce_sum_exact (snapshot : list byte) :
  exists r, reduce_sum snapshot = Fin r /\ r == inject_Z (total snapshot).
Proof.
  destruct (fold_add_bytes snapshot (inject_Z 0)) as [r [Hr Hq]].
  exists r. split; [exact Hr|]. rewrite Hq. change (inject_Z 0) with 0. ring.
Qed.

Lemma length_pos_inject (A : Type) (l : list A) :
  l <> [] -> 0 < inject_Z (Z.of_nat (List.length l)).
Proof.
  intros H. apply inject_Z_pos. destruct l; [contradiction | simpl; lia].
Qed.

Lemma getAverageFrequency_exact (snapshot : list byte) :
  snapshot <> [] ->
  exists m, getAverageFrequency snapshot = Fin m /\ m == arithmetic_mean snapshot.
Proof.
  intros Hne.
  destruct (reduce_sum_exact snapshot) as [r [Hr Hq]].
  exists (r / inject_Z (Z.of_nat (List.length snapshot))). split.
  - unfold getAverageFrequency, array_length. cbv zeta. rewrite Hr.
    exact (xdiv_pos _ _ (length_pos_inject _ snapshot Hne)).
  - unfold arithmetic_mean. rewrite Hq. reflexivity.
Qed.

Lemma arithmetic_mean_repeat (b : byte) (n : nat) :
  (0 < n)%nat -> arithmetic_mean (repeat b n) == inject_Z (byte_value b).
Proof.
  intros Hn. unfold arithmetic_mean.
  rewrite total_repeat, repeat_length, inject_Z_mult.
  field. intros H0.
  assert (0 < inject_Z (Z.of_nat n)) by (apply inject_Z_pos; lia).
  lra.
Qed.

Lemma arithmetic_mean_range (snapshot : list byte) :
  snapshot <> [] -> 0 <= arithmetic_mean snapshot <= 255.
Proof.
  intros Hne. unfold arithmetic_mean.
  pose proof (total_range snapshot) as [Hlo Hhi].
  pose proof (length_pos_inject _ snapshot Hne) as Hn.
  apply inject_Z_nonneg in Hlo.
  rewrite Zle_Qle, inject_Z_mult in Hhi. change (inject_Z 255) with 255 in Hhi.
  split.
  - apply Qle_shift_div_l; [exact Hn | lra].
  - apply Qle_shift_div_r; [exact Hn | lra].
Qed.

(** ** Reading a snapshot *)

Lemma resize_length (n : nat) (l : list byte) : List.length (resize n l) = n.
Proof.
  unfold resize. rewrite length_firstn, length_app, repeat_length. lia.
Qed.

Lemma copy_into_length (dst src : list byte) :
  List.length (copy_into dst src) = List.length dst.
Proof.
  unfold copy_into. rewrite length_app, length_firstn, length_skipn. lia.
Qed.

Lemma fresh_snapshot_length (stream : nat -> list byte) (a : analyser_node) (n : nat) :
  List.length (fresh_snapshot stream a n) = frequencyBinCount a.
Proof.
  unfold fresh_snapshot, new_Uint8Array.
  rewrite copy_into_length, repeat_length. reflexivity.
Qed.

Lemma nonempty_length (A : Type) (l : list A) : (0 < List.length l)%nat -> l <> [].
Proof. destruct l; simpl; [lia | discriminate]. Qed.

Section RoseAudio.
Context {num : Type} {N : JsNum num}.
Variable E : @env num.

(** One call of [updateAudioData] on a page whose analyser exists:
    it reads one snapshot and stores its mean divided by 128. *)
Lemma updateAudioData_run (g : Rose.globals_t) (h : host_state) (a : analyser_node) :
  Rose.analyser g = Some a ->
  Rose.updateAudioData E (World g h) =
  (Ok tt,
   World (Rose.set_volume
            (div (getAverageFrequency (fresh_snapshot (spectrum E) a (reads h)))
                 (of_Z 128)) g)
         (consume h)).
Proof.
  intros Ha. unfold Rose.updateAudioData, bind, get_globals. simpl.
  rewrite Ha. reflexivity.
Qed.
End RoseAudio.

(** C2. [getAverageFrequency] returns the arithmetic mean of a non-empty
    snapshot, and [updateAudioData] stores that mean divided by 128; a
    snapshot of [n > 0] zeros has mean 0, one of [n > 0] bytes 255 has
    mean 255. *)
Theorem average_is_arithmetic_mean :
  (forall snapshot : list byte,
      snapshot <> [] ->
      getAverageFrequency snapshot =n= Fin (arithmetic_mean snapshot)) /\
  (forall (E : env) (g : Rose.globals_t) (h : host_state) (a : analyser_node),
      Rose.analyser g = Some a ->
      (0 < frequencyBinCount a)%nat ->
      exists w',
        Rose.updateAudioData E (World g h) = (Ok tt, w') /\
        Rose.volume (globals w') =n=
          Fin (arithmetic_mean (fresh_snapshot (spectrum E) a (reads h)) / 128)) /\
  (forall n : nat, (0 < n)%nat -> getAverageFrequency (repeat x00 n) =n= Fin 0) /\
  (forall n : nat, (0 < n)%nat -> getAverageFrequency (repeat xff n) =n= Fin 255).
Proof.
  assert (Hmean : forall snapshot : list byte, snapshot <> [] ->
            getAverageFrequency snapshot =n= Fin (arithmetic_mean snapshot)).
  { intros snapshot Hne. apply same_Fin. apply getAverageFrequency_exact, Hne. }
  assert (Hrep : forall (b : byte) (n : nat), (0 < n)%nat ->
            getAverageFrequency (repeat b n) =n= Fin (inject_Z (byte_value b))).
  { intros b n Hn.
    assert (Hne : repeat b n <> []) by (destruct n; [lia | discriminate]).
    destruct (getAverageFrequency_exact _ Hne) as [m [Hm Hq]].
    rewrite Hm. simpl. rewrite Hq. apply arithmetic_mean_repeat, Hn. }
  split; [exact Hmean|]. split; [|split].
  - intros E g h a Ha Hbins.
    rewrite (updateAudioData_run E g h a Ha).
    eexists; split; [reflexivity|].
    cbn [globals Rose.volume Rose.set_volume].
    set (snapshot := fresh_snapshot (spectrum E) a (reads h)).
    assert (Hne : snapshot <> []).
    { apply nonempty_length. unfold snapshot.
      rewrite fresh_snapshot_length. exact Hbins. }
    destruct (getAverageFrequency_exact _ Hne) as [m [Hm Hq]].
    rewrite Hm. simpl. rewrite Hq. reflexivity.
  - intros n Hn. exact (Hrep x00 n Hn).
  - intros n Hn. exact (Hrep xff n Hn).
Qed.

Lemma average_is_arithmetic_mean_witness :
  (arithmetic_mean [x01; x02; x06] == 3 /\
   getAverageFrequency [x01; x02; x06] =n= Fin (arithmetic_mean [x01; x02; x06])) /\
  getAverageFrequency (repeat x00 128) =n= Fin 0 /\
  getAverageFrequency (repeat xff 1024) =n= Fin 255.
Proof.
  destruct average_is_arithmetic_mean as [Hmean [_ [Hzero Hfull]]].
  split; [split|split].
  - reflexivity.
  - apply Hmean. discriminate.
  - apply Hzero. lia.
  - apply Hfull. lia.
Defined.

(** C10. On an empty snapshot the mean is the unguarded division 0/0:
    [getAverageFrequency] returns NaN, and [updateAudioData] on an
    analyser without bins completes normally with a NaN volume. *)
Theorem empty_snapshot_mean_is_NaN :
  @getAverageFrequency xnum exact [] = NaN /\
  forall (E : @env xnum) (g : Rose.globals_t) (h : host_state) (a : analyser_node),
    Rose.analyser g = Some a ->
    frequencyBinCount a = 0%nat ->
    Rose.updateAudioData E (World g h) =
    (Ok tt, World (Rose.set_volume NaN g) (consume h)).
Proof.
  split; [reflexivity|].
  intros E g h a Ha Hz.
  rewrite (updateAudioData_run E g h a Ha).
  assert (Hnil : fresh_snapshot (spectrum E) a (reads h) = []).
  { apply length_zero_iff_nil. rewrite fresh_snapshot_length. exact Hz. }
  rewrite Hnil. reflexivity.
Qed.

Lemma empty_snapshot_mean_is_NaN_witness :
  Rose.updateAudioData (sample_env Granted xff)
    (World (Rose.Globals (Some tt) (Some (Analyser 0 true)) (Fin 0) (Fin 0)) host0) =
  (Ok tt,
   World (Rose.Globals (Some tt) (Some (Analyser 0 true)) NaN (Fin 0)) (consume host0)).
Proof.
  apply (proj2 empty_snapshot_mean_is_NaN
           (sample_env Granted xff)
           (Rose.Globals (Some tt) (Some (Analyser 0 true)) (Fin 0) (Fin 0))
           host0 (Analyser 0 true)); reflexivity.
Defined.

(** ** The dominant bucket *)

Lemma max2_bytes (z v : Z) :
  max2 (Fin (inject_Z z)) (Fin (inject_Z v)) = Fin (inject_Z (Z.max z v)).
Proof.
  unfold max2. cbn [is_nan exact x_is_nan lt xlt].
  assert (Hc : (inject_Z z ?= inject_Z v) = (z ?= v)%Z).
  { unfold Qcompare, inject_Z. simpl. rewrite !Z.mul_1_r. reflexivity. }
  rewrite Hc. unfold Z.max. destruct (z ?= v)%Z; reflexivity.
Qed.

Lemma fold_max2_bytes (snapshot : list byte) :
  forall z : Z,
    fold_left max2 (map of_byte snapshot) (Fin (inject_Z z)) =
    Fin (inject_Z (fold_left Z.max (map byte_value snapshot) z)).
Proof.
  induction snapshot as [|b rest IH]; intros z; [reflexivity|].
  cbn [map fold_left]. rewrite of_byte_exact, max2_bytes. apply IH.
Qed.

Lemma fold_max_ge_start (l : list Z) : forall z, (z <= fold_left Z.max l z)%Z.
Proof.
  induction l as [|v l IH]; intros z; simpl; [lia|].
  specialize (IH (Z.max z v)). lia.
Qed.

Lemma fold_max_ge_each (l : list Z) :
  forall z v, In v l -> (v <= fold_left Z.max l z)%Z.
Proof.
  induction l as [|u l IH]; intros z v Hin; [contradiction|].
  simpl. destruct Hin as [-> | Hin].
  - pose proof (fold_max_ge_start l (Z.max z v)). lia.
  - apply IH, Hin.
Qed.

Lemma fold_max_attained (l : list Z) :
  forall z, fold_left Z.max l z = z \/ In (fold_left Z.max l z) l.
Proof.
  induction l as [|u l IH]; intros z; simpl; [left; reflexivity|].
  destruct (IH (Z.max z u)) as [H | H].
  - rewrite H. destruct (Z.max_spec z u) as [[_ ->] | [_ ->]]; auto.
  - right; right; exact H.
Qed.

Lemma value_at_in (snapshot : list byte) (j : nat) :
  (j < List.length snapshot)%nat -> In (value_at snapshot j) (map byte_value snapshot).
Proof.
  intros Hj. unfold value_at. apply in_map, nth_In, Hj.
Qed.

Lemma in_values (snapshot : list byte) (v : Z) :
  In v (map byte_value snapshot) ->
  exists j, (j < List.length snapshot)%nat /\ value_at snapshot j = v.
Proof.
  intros Hin. apply in_map_iff in Hin. destruct Hin as [b [Hb Hin]].
  destruct (In_nth _ _ x00 Hin) as [j [Hj Hnth]].
  exists j. split; [exact Hj|]. unfold value_at. rewrite Hnth. exact Hb.
Qed.

(** [Math.max(...dataArray)] is the value at any index that holds the
    maximum. *)
Lemma Math_max_at (snapshot : list byte) (k : nat) :
  (k < List.length snapshot)%nat ->
  (forall j, (j < List.length snapshot)%nat ->
             (value_at snapshot j <= value_at snapshot k)%Z) ->
  Math_max (map of_byte snapshot) = Fin (inject_Z (value_at snapshot k)).
Proof.
  intros Hk Hmax. destruct snapshot as [|b rest]; [simpl in Hk; lia|].
  unfold Math_max. cbn [map fold_left].
  change (max2 neg_infinity (of_byte b)) with (Fin (inject_Z (byte_value b))).
  rewrite fold_max2_bytes. do 2 f_equal.
  set (m := fold_left Z.max (map byte_value rest) (byte_value b)).
  assert (Hin : In m (map byte_value (b :: rest))).
  { destruct (fold_max_attained (map byte_value rest) (byte_value b)) as [H | H].
    - left. symmetry. exact H.
    - right. exact H. }
  destruct (in_values _ _ Hin) as [j [Hj Hv]].
  assert (Hge : (value_at (b :: rest) k <= m)%Z).
  { pose proof (value_at_in (b :: rest) k Hk) as Hk'.
    destruct Hk' as [Hk' | Hk'].
    - rewrite <- Hk'. apply fold_max_ge_start.
    - apply fold_max_ge_each, Hk'. }
  specialize (Hmax j Hj). lia.
Qed.

Lemma strict_eq_bytes (z v : Z) :
  strict_eq (Fin (inject_Z z)) (Fin (inject_Z v)) = (z =? v)%Z.
Proof.
  cbn [strict_eq exact xeq].
  destruct (Z.eqb_spec z v) as [-> | Hne].
  - apply Qeq_bool_iff. reflexivity.
  - apply not_true_is_false. intros H. apply Qeq_bool_iff in H.
    apply Hne. apply inject_Z_injective. exact H.
Qed.

(** [indexOf] returns the lowest index whose value is the one sought. *)
Lemma indexOf_from_first (snapshot : list byte) :
  forall (i : Z) (k : nat),
    (k < List.length snapshot)%nat ->
    (forall j, (j < k)%nat -> value_at snapshot j <> value_at snapshot k) ->
    indexOf_from i snapshot (Fin (inject_Z (value_at snapshot k))) =
    (i + Z.of_nat k)%Z.
Proof.
  induction snapshot as [|b rest IH]; intros i k Hk Hfirst; [simpl in Hk; lia|].
  cbn [indexOf_from]. rewrite of_byte_exact, strict_eq_bytes.
  destruct k as [|k].
  - unfold value_at. cbn [nth]. rewrite Z.eqb_refl. lia.
  - assert (Hb : (byte_value b =? value_at (b :: rest) (S k))%Z = false).
    { apply Z.eqb_neq. apply (Hfirst 0%nat). lia. }
    rewrite Hb.
    change (value_at (b :: rest) (S k)) with (value_at rest k).
    rewrite IH.
    + lia.
    + simpl in Hk. lia.
    + intros j Hj. apply (Hfirst (S j)). lia.
Qed.

(** The hue of the source for winning index [k] in a snapshot of
    length [n]. *)
Lemma hue_of_index (k n : nat) :
  (k < n)%nat ->
  exists hue,
    xmul (xdiv (Fin (inject_Z (Z.of_nat k))) (Fin (inject_Z (Z.of_nat n))))
         (Fin (inject_Z 360)) = Fin hue /\
    hue == inject_Z (Z.of_nat k) / inject_Z (Z.of_nat n) * 360 /\
    0 <= hue < 360.
Proof.
  intros Hk.
  assert (Hn : 0 < inject_Z (Z.of_nat n)) by (apply inject_Z_pos; lia).
  rewrite (xdiv_pos _ _ Hn). cbn [xmul].
  eexists. split; [reflexivity|]. change (inject_Z 360) with 360.
  split; [reflexivity|].
  assert (Hk0 : 0 <= inject_Z (Z.of_nat k)) by (apply inject_Z_nonneg; lia).
  assert (Hkn : inject_Z (Z.of_nat k) < inject_Z (Z.of_nat n))
    by (rewrite <- Zlt_Qlt; lia).
  set (x := inject_Z (Z.of_nat k)) in *. set (y := inject_Z (Z.of_nat n)) in *.
  assert (H0 : 0 <= x / y) by (apply Qle_shift_div_l; [exact Hn | lra]).
  assert (H1 : x / y < 1) by (apply Qlt_shift_div_r; [exact Hn | lra]).
  lra.
Qed.

Lemma getPitchColor_first_maximum (snapshot : list byte) (k : nat) :
  first_maximum_at snapshot k ->
  exists hue,
    getPitchColor snapshot = Hsl (Fin hue) 100 50 /\
    hue == inject_Z (Z.of_nat k) / inject_Z (Z.of_nat (List.length snapshot)) * 360 /\
    0 <= hue < 360.
Proof.
  intros [Hk [Hmax Hfirst]].
  unfold getPitchColor, indexOf. cbv zeta.
  rewrite (Math_max_at snapshot k Hk Hmax).
  rewrite (indexOf_from_first snapshot 0 k Hk).
  - rewrite Z.add_0_l.
    destruct (hue_of_index _ _ Hk) as [hue [Hhue Hrange]].
    exists hue. split; [|exact Hrange].
    unfold array_length. cbn [of_Z exact mul div]. rewrite Hhue. reflexivity.
  - intros j Hj. specialize (Hfirst j Hj). lia.
Qed.

Lemma unique_maximum_is_first (snapshot : list byte) (k : nat) :
  unique_maximum_at snapshot k -> first_maximum_at snapshot k.
Proof.
  intros [Hk Huniq]. split; [exact Hk|]. split.
  - intros j Hj. destruct (Nat.eq_dec j k) as [-> | Hne]; [lia|].
    specialize (Huniq j Hj Hne). lia.
  - intros j Hj. apply Huniq; lia.
Qed.

(** C3. For a snapshot of length [n] whose maximum is at index [k]
    only, the hue of [getPitchColor] is (k/n)*360 and lies in [0,360);
    when several indices hold the maximum, the lowest of them takes the
    place of [k]. *)
Theorem dominant_hue_first_index_wins :
  (forall (snapshot : list byte) (k : nat),
      unique_maximum_at snapshot k ->
      exists hue,
        getPitchColor snapshot = Hsl (Fin hue) 100 50 /\
        hue == inject_Z (Z.of_nat k) / inject_Z (Z.of_nat (List.length snapshot)) * 360 /\
        0 <= hue < 360) /\
  (forall (snapshot : list byte) (k : nat),
      first_maximum_at snapshot k ->
      exists hue,
        getPitchColor snapshot = Hsl (Fin hue) 100 50 /\
        hue == inject_Z (Z.of_nat k) / inject_Z (Z.of_nat (List.length snapshot)) * 360 /\
        0 <= hue < 360).
Proof.
  split.
  - intros snapshot k H.
    apply getPitchColor_first_maximum, unique_maximum_is_first, H.
  - intros snapshot k H. apply getPitchColor_first_maximum, H.
Qed.

Lemma dominant_hue_first_index_wins_witness :
  (exists hue,
      getPitchColor [x01; x09; x02] = Hsl (Fin hue) 100 50 /\
      hue == inject_Z 1 / inject_Z 3 * 360 /\ 0 <= hue < 360) /\
  (exists hue,
      getPitchColor [x01; x05; x05; x02] = Hsl (Fin hue) 100 50 /\
      hue == inject_Z 1 / inject_Z 4 * 360 /\ 0 <= hue < 360).
Proof.
  destruct dominant_hue_first_index_wins as [Huniq Hfirst].
  split.
  - apply (Huniq [x01; x09; x02] 1%nat).
    split; [simpl; lia|].
    intros j Hj Hne. unfold value_at, byte_value.
    destruct j as [|[|[|j]]]; simpl in *; lia.
  - apply (Hfirst [x01; x05; x05; x02] 1%nat).
    split; [simpl; lia|]. split.
    + intros j Hj. unfold value_at, byte_value.
      destruct j as [|[|[|[|j]]]]; simpl in *; lia.
    + intros j Hj. unfold value_at, byte_value.
      destruct j as [|j]; simpl in *; lia.
Defined.

(** ** One tick of the sphere *)

Section SphereTick.
Context {num : Type} {N : JsNum num}.
Variable E : @env num.

(** [animate] on a page that is set up: the frame request comes first,
    then one analyser read, the scale, colour and field of view from its
    mean, the eased rotation, and one render call. *)
Lemma animate_run (g : Sphere.globals_t) (h : host_state) (a : analyser_node)
      (data : list byte) (s : Sphere.mesh) (c : Sphere.camera_t) :
  sphere_ready g a data s c ->
  let data' := copy_into data (resize (frequencyBinCount a) (spectrum E (reads h))) in
  let avg := getAverageFrequency data' in
  Sphere.animate E (World g h) =
  (Ok tt,
   World
     (Sphere.Globals (Sphere.scene g)
        (Some (Sphere.Camera (add (of_Z 750) (mul avg (decimal 0.01)))
                             (Sphere.aspect c) (Sphere.position_z c)))
        (Sphere.renderer g)
        (Some (Sphere.Mesh
                 (Sphere.scale_of avg, Sphere.scale_of avg, Sphere.scale_of avg)
                 (Sphere.HSL (div avg (of_Z 256)) (of_Z 1) (decimal 0.5))
                 (add (Sphere.rotation_x s)
                      (mul (sub (Sphere.mouseY g) (Sphere.rotation_x s)) (decimal 0.05)))
                 (add (Sphere.rotation_y s)
                      (mul (sub (Sphere.mouseX g) (Sphere.rotation_y s)) (decimal 0.05)))))
        (Sphere.analyser g) (Sphere.audioContext g) (Some data')
        (Sphere.mouseX g) (Sphere.mouseY g))
     (record_event EvRender
        (record_event EvUpdateProjectionMatrix
           (consume
              (enqueue_frame CbAnimate
                 (record_event (EvRequestAnimationFrame CbAnimate) h)))))).
Proof.
  intros [Ha [Hd [Hs [Hc Hr]]]].
  destruct g as [sc cam ren sph an ctx fd mx my]. simpl in *. subst.
  reflexivity.
Qed.

End SphereTick.

Section SphereFrames.
Context {num : Type} {N : JsNum num}.
Variable E : @env num.

(** A frame on a page that is set up and has [animate] as its only
    pending frame callback runs exactly one [animate]; the page stays in
    that state and the pointer stays where it was. *)
Lemma frame_step (w : world Sphere.globals_t) (a : analyser_node)
      (data : list byte) (s : Sphere.mesh) (c : Sphere.camera_t) :
  sphere_ready (globals w) a data s c ->
  frame_queue (host w) = [CbAnimate] ->
  exists data' s' c',
    let w' := step (Sphere.dispatch E) (Sphere.onMouseMove E) w Frame in
    sphere_ready (globals w') a data' s' c' /\
    frame_queue (host w') = [CbAnimate] /\
    Sphere.mouseX (globals w') = Sphere.mouseX (globals w) /\
    Sphere.mouseY (globals w') = Sphere.mouseY (globals w) /\
    Sphere.rotation_x s' =
      add (Sphere.rotation_x s)
          (mul (sub (Sphere.mouseY (globals w)) (Sphere.rotation_x s)) (decimal 0.05)) /\
    Sphere.rotation_y s' =
      add (Sphere.rotation_y s)
          (mul (sub (Sphere.mouseX (globals w)) (Sphere.rotation_y s)) (decimal 0.05)).
Proof.
  intros Hready Hq. destruct w as [g h]. cbn [globals host] in *.
  pose proof (animate_run E g (take_frames h) a data s c Hready) as Hrun.
  cbv zeta in Hrun.
  unfold step. cbn [host globals]. rewrite Hq.
  unfold run_all. cbn [fold_left Sphere.dispatch]. unfold run_callback.
  rewrite Hrun.
  destruct Hready as [Ha [Hd [Hs [Hc Hr]]]].
  do 3 eexists. cbv zeta. cbn [globals host].
  repeat split; try reflexivity; try assumption.
Qed.

End SphereFrames.

(** ** Sphere scale *)

Lemma scale_of_exact (avg : Q) : Sphere.scale_of (Fin avg) = Fin (1 + avg / 128).
Proof. reflexivity. Qed.

(** C5. The scale [animate] sets is 1 + avg/128 on all three axes, with
    avg the mean of the snapshot read in that tick; it is monotone in
    avg and is 1 at avg = 0. *)
Theorem sphere_scale_follows_average :
  (forall (E : @env xnum) (g : Sphere.globals_t) (h : host_state)
          (a : analyser_node) (data : list byte)
          (s : Sphere.mesh) (c : Sphere.camera_t),
      sphere_ready g a data s c ->
      exists w' s',
        Sphere.animate E (World g h) = (Ok tt, w') /\
        Sphere.sphere (globals w') = Some s' /\
        let avg := getAverageFrequency
                     (copy_into data
                        (resize (frequencyBinCount a) (spectrum E (reads h)))) in
        Sphere.scale s' = (Sphere.scale_of avg, Sphere.scale_of avg, Sphere.scale_of avg)) /\
  (forall avg : Q, 0 <= avg -> Sphere.scale_of (Fin avg) =n= Fin (1 + avg / 128)) /\
  (forall avg1 avg2 : Q,
      0 <= avg1 -> avg1 <= avg2 ->
      exists s1 s2,
        Sphere.scale_of (Fin avg1) = Fin s1 /\
        Sphere.scale_of (Fin avg2) = Fin s2 /\
        s1 <= s2) /\
  Sphere.scale_of (Fin 0) =n= Fin 1.
Proof.
  split; [|split; [|split]].
  - intros E g h a data s c Hready.
    pose proof (animate_run E g h a data s c Hready) as Hrun. cbv zeta in Hrun.
    rewrite Hrun. do 2 eexists.
    split; [reflexivity|]. split; reflexivity.
  - intros avg _. rewrite scale_of_exact. apply same_refl.
  - intros avg1 avg2 _ Hle. rewrite !scale_of_exact.
    do 2 eexists. split; [reflexivity|]. split; [reflexivity|].
    apply Qplus_le_r. apply Qmult_le_compat_r; [exact Hle|].
    apply Qinv_le_0_compat. lra.
  - reflexivity.
Qed.

Lemma sphere_scale_follows_average_witness :
  (exists w' s',
      Sphere.animate (sample_env Granted xff) (World ready_globals ready_host)
      = (Ok tt, w') /\
      Sphere.sphere (globals w') = Some s' /\
      let avg := getAverageFrequency
                   (copy_into (new_Uint8Array 128)
                      (resize (frequencyBinCount (Analyser 256 true))
                         (spectrum (sample_env Granted xff) (reads ready_host)))) in
      Sphere.scale s' = (Sphere.scale_of avg, Sphere.scale_of avg, Sphere.scale_of avg)) /\
  (exists s1 s2,
      Sphere.scale_of (Fin 0) = Fin s1 /\ Sphere.scale_of (Fin 255) = Fin s2 /\ s1 <= s2).
Proof.
  destruct sphere_scale_follows_average as [Htick [_ [Hmono _]]].
  split.
  - apply (Htick (sample_env Granted xff) ready_globals ready_host
                 (Analyser 256 true) (new_Uint8Array 128) ready_mesh ready_camera).
    unfold sphere_ready. repeat (split; [reflexivity|]). reflexivity.
  - apply Hmono; lra.
Defined.

(** ** Rotation smoothing *)

Lemma decay_succ (k : nat) : decay ^ Z.of_nat (S k) == decay * decay ^ Z.of_nat k.
Proof.
  rewrite Nat2Z.inj_succ. unfold Z.succ. rewrite Z.add_comm.
  rewrite Qpower_plus by (unfold decay; lra).
  rewrite Qpower_1_r. reflexivity.
Qed.

Lemma decay_range (k : nat) : 0 <= decay ^ Z.of_nat k <= 1.
Proof.
  induction k as [|k IH].
  - simpl. lra.
  - rewrite decay_succ. unfold decay in *. nra.
Qed.

(** One eased step on exact numbers. *)
Lemma ease_exact (old target : Q) :
  add (Fin old) (mul (sub (Fin target) (Fin old)) (decimal 0.05)) =n=
  Fin (old + (target - old) * easing).
Proof. simpl. unfold easing. ring. Qed.

Lemma ease_between (old target : Q) :
  between old target (old + (target - old) * easing).
Proof.
  unfold between, easing.
  destruct (Qlt_le_dec old target); [left | right]; lra.
Qed.

Lemma between_trans (a b x y : Q) : between a b x -> between x b y -> between a b y.
Proof. unfold between. intros [H | H] [H' | H']; lra. Qed.

(** The rotation about one axis after [k] frames, as the source
    computes it. *)
Lemma eased_closed_form (k : nat) :
  forall (r0 r target : Q),
    r == target - (target - (r0 + (target - r0) * easing)) * decay ^ Z.of_nat k ->
    r == target - (target - r0) * decay ^ Z.of_nat (S k).
Proof.
  intros r0 r target H. rewrite decay_succ, H. unfold easing, decay. ring.
Qed.

Lemma frames_ease (E : @env xnum) (k : nat) :
  forall (w : world Sphere.globals_t) (a : analyser_node) (data : list byte)
         (s : Sphere.mesh) (c : Sphere.camera_t) (tx ty r0x r0y : Q),
    sphere_ready (globals w) a data s c ->
    frame_queue (host w) = [CbAnimate] ->
    Sphere.mouseY (globals w) = Fin tx ->
    Sphere.mouseX (globals w) = Fin ty ->
    Sphere.rotation_x s = Fin r0x ->
    Sphere.rotation_y s = Fin r0y ->
    exists sk rx ry,
      Sphere.sphere
        (globals (run (Sphere.dispatch E) (Sphere.onMouseMove E) w (repeat Frame k)))
      = Some sk /\
      Sphere.rotation_x sk = Fin rx /\
      rx == tx - (tx - r0x) * decay ^ Z.of_nat k /\
      between r0x tx rx /\
      Sphere.rotation_y sk = Fin ry /\
      ry == ty - (ty - r0y) * decay ^ Z.of_nat k /\
      between r0y ty ry.
Proof.
  induction k as [|k IH]; intros w a data s c tx ty r0x r0y Hready Hq Hmy Hmx Hrx Hry.
  - exists s, r0x, r0y. cbn [repeat run fold_left].
    destruct Hready as [_ [_ [Hs _]]].
    repeat split; try assumption; try (simpl; ring); unfold between; try lra.
  - destruct (frame_step E w a data s c Hready Hq)
      as [data' [s' [c' [Hready' [Hq' [Hmx' [Hmy' [Hrx' Hry']]]]]]]].
    cbv zeta in *.
    set (w' := step (Sphere.dispatch E) (Sphere.onMouseMove E) w Frame) in *.
    rewrite Hmy, Hrx in Hrx'. rewrite Hmx, Hry in Hry'.
    rewrite Hmx in Hmx'. rewrite Hmy in Hmy'.
    destruct (IH w' a data' s' c' tx ty
                 (r0x + (tx - r0x) * easing) (r0y + (ty - r0y) * easing)
                 Hready' Hq' Hmy' Hmx')
      as [sk [rx [ry [Hsk [Hx [Hxe [Hxb [Hy [Hye Hyb]]]]]]]]].
    + rewrite Hrx'. simpl. unfold easing. f_equal.
    + rewrite Hry'. simpl. unfold easing. f_equal.
    + exists sk, rx, ry.
      unfold run in *. cbn [repeat fold_left]. fold w'.
      repeat split; try assumption.
      * apply eased_closed_form, Hxe.
      * exact (between_trans _ _ _ _ (ease_between r0x tx) Hxb).
      * apply eased_closed_form, Hye.
      * exact (between_trans _ _ _ _ (ease_between r0y ty) Hyb).
Qed.

(** C4. With the pointer held at a target, one [animate] moves each
    rotation from [old] to [old + (target - old) * 0.05]; after [k]
    frames the rotation is [target - (target - r0) * 0.95^k], and it
    lies between the initial rotation and the target.  ([rotation.x]
    follows [mouseY], [rotation.y] follows [mouseX].) *)
Theorem rotation_eases_geometrically :
  (forall (E : @env xnum) (g : Sphere.globals_t) (h : host_state)
          (a : analyser_node) (data : list byte)
          (s : Sphere.mesh) (c : Sphere.camera_t) (tx ty r0x r0y : Q),
      sphere_ready g a data s c ->
      Sphere.mouseY g = Fin tx ->
      Sphere.mouseX g = Fin ty ->
      Sphere.rotation_x s = Fin r0x ->
      Sphere.rotation_y s = Fin r0y ->
      exists w' s',
        Sphere.animate E (World g h) = (Ok tt, w') /\
        Sphere.sphere (globals w') = Some s' /\
        Sphere.rotation_x s' =n= Fin (r0x + (tx - r0x) * easing) /\
        Sphere.rotation_y s' =n= Fin (r0y + (ty - r0y) * easing)) /\
  (forall (E : @env xnum) (k : nat) (w : world Sphere.globals_t)
          (a : analyser_node) (data : list byte)
          (s : Sphere.mesh) (c : Sphere.camera_t) (tx ty r0x r0y : Q),
      sphere_ready (globals w) a data s c ->
      frame_queue (host w) = [CbAnimate] ->
      Sphere.mouseY (globals w) = Fin tx ->
      Sphere.mouseX (globals w) = Fin ty ->
      Sphere.rotation_x s = Fin r0x ->
      Sphere.rotation_y s = Fin r0y ->
      exists sk rx ry,
        Sphere.sphere
          (globals (run (Sphere.dispatch E) (Sphere.onMouseMove E) w (repeat Frame k)))
        = Some sk /\
        Sphere.rotation_x sk = Fin rx /\
        rx == tx - (tx - r0x) * decay ^ Z.of_nat k /\
        between r0x tx rx /\
        Sphere.rotation_y sk = Fin ry /\
        ry == ty - (ty - r0y) * decay ^ Z.of_nat k /\
        between r0y ty ry).
Proof.
  split.
  - intros E g h a data s c tx ty r0x r0y Hready Hmy Hmx Hrx Hry.
    pose proof (animate_run E g h a data s c Hready) as Hrun. cbv zeta in Hrun.
    rewrite Hrun. do 2 eexists.
    split; [reflexivity|]. split; [reflexivity|].
    cbn [Sphere.rotation_x Sphere.rotation_y].
    rewrite Hmy, Hmx, Hrx, Hry. split; apply ease_exact.
  - intros E k. apply frames_ease.
Qed.

Lemma rotation_eases_geometrically_witness :
  exists sk rx ry,
    Sphere.sphere
      (globals (run (Sphere.dispatch (sample_env Granted xff))
                    (Sphere.onMouseMove (sample_env Granted xff))
                    (World ready_globals ready_host) (repeat Frame 3)))
    = Some sk /\
    Sphere.rotation_x sk = Fin rx /\
    rx == - (1 # 4) - (- (1 # 4) - 1) * decay ^ Z.of_nat 3 /\
    between 1 (- (1 # 4)) rx /\
    Sphere.rotation_y sk = Fin ry /\
    ry == (1 # 2) - ((1 # 2) - 0) * decay ^ Z.of_nat 3 /\
    between 0 (1 # 2) ry.
Proof.
  apply (proj2 rotation_eases_geometrically
           (sample_env Granted xff) 3%nat (World ready_globals ready_host)
           (Analyser 256 true) (new_Uint8Array 128) ready_mesh ready_camera
           (- (1 # 4)) (1 # 2) 1 0);
    try reflexivity.
  unfold sphere_ready. repeat (split; [reflexivity|]). reflexivity.
Defined.

(** The smoothing replayed in binary64, where 0.05 is rounded: from
    rotation 0 with the pointer target at 1, after 200 frames the
    rotation is above 1 - 2^-14 and still below the target. *)
Lemma rotation_binary64_sample :
  Sphere.mouseY (globals float_session) = 1%float /\
  exists s,
    Sphere.sphere (globals float_session) = Some s /\
    PrimFloat.ltb 0.99993896484375%float (Sphere.rotation_x s) = true /\
    PrimFloat.ltb (Sphere.rotation_x s) 1%float = true.
Proof.
  split; [vm_compute; reflexivity|].
  eexists. split; [vm_compute; reflexivity|].
  split; vm_compute; reflexivity.
Qed.

(** ** Traces *)

Lemma count_app {num : Type} (p : @event num -> bool) (a b : list (@event num)) :
  count p (a ++ b) = (count p a + count p b)%nat.
Proof. unfold count. rewrite filter_app, length_app. reflexivity. Qed.

(** ** One tick of the rose *)

Lemma drawn_refl {num : Type} (h : @host_state num) : drawn h h.
Proof.
  unfold drawn. repeat (split; [reflexivity|]).
  exists []. split; [symmetry; apply app_nil_r | reflexivity].
Qed.

Lemma drawn_trans {num : Type} (h1 h2 h3 : @host_state num) :
  drawn h1 h2 -> drawn h2 h3 -> drawn h1 h3.
Proof.
  intros [Hf [Ht [Hb [Hm [tr [Htr Hd]]]]]] [Hf' [Ht' [Hb' [Hm' [tr' [Htr' Hd']]]]]].
  unfold drawn. rewrite Hf', Ht', Hb', Hm'.
  repeat (split; [assumption|]).
  exists (tr ++ tr'). split.
  - rewrite Htr', Htr. symmetry. apply app_assoc.
  - rewrite forallb_app, Hd, Hd'. reflexivity.
Qed.

Lemma drawn_consume {num : Type} (h : @host_state num) : drawn h (consume h).
Proof.
  unfold drawn, consume. cbn. repeat (split; [reflexivity|]).
  exists []. split; [symmetry; apply app_nil_r | reflexivity].
Qed.

Lemma drawn_record {num : Type} (e : @event num) (h : @host_state num) :
  is_drawing e = true -> drawn h (record_event e h).
Proof.
  intros He. unfold drawn, record_event. cbn. repeat (split; [reflexivity|]).
  exists [e]. split; [reflexivity|]. cbn. rewrite He. reflexivity.
Qed.

Section RoseTick.
Context {num : Type} {N : JsNum num}.
Variable E : @env num.

Lemma petal_run (color : hsl) (i : nat) (g : Rose.globals_t) (h : host_state) :
  exists h', Rose.petal E color i (World g h) = (Ok tt, World g h') /\ drawn h h'.
Proof.
  eexists. split.
  - unfold Rose.petal, bind. cbn. reflexivity.
  - do 4 (eapply drawn_trans; [apply drawn_consume|]).
    apply drawn_record. reflexivity.
Qed.

Lemma for_each_petal_run (color : hsl) (indices : list nat) :
  forall (g : Rose.globals_t) (h : host_state),
    exists h',
      Rose.for_each (Rose.petal E color) indices (World g h) = (Ok tt, World g h') /\
      drawn h h'.
Proof.
  induction indices as [|i rest IH]; intros g h.
  - exists h. split; [reflexivity | apply drawn_refl].
  - destruct (petal_run color i g h) as [h1 [H1 D1]].
    destruct (IH g h1) as [h2 [H2 D2]].
    exists h2. split; [|exact (drawn_trans _ _ _ D1 D2)].
    cbn [Rose.for_each]. unfold bind. rewrite H1. exact H2.
Qed.

Lemma drawRose_run (color : hsl) (g : Rose.globals_t) (h : host_state) :
  exists h', Rose.drawRose E color (World g h) = (Ok tt, World g h') /\ drawn h h'.
Proof. apply for_each_petal_run. Qed.

(** [drawAnimation] on a page whose analyser exists: the time stamp
    and the volume are stored, the canvas is drawn, and the last call
    is [setTimeout] with the delay computed from the new volume. *)
Lemma drawAnimation_run (g : Rose.globals_t) (h : host_state) (a : analyser_node) :
  Rose.analyser g = Some a ->
  exists h1,
    let g' := Rose.Globals (Rose.audioContext g) (Some a)
                (div (getAverageFrequency
                        (fresh_snapshot (spectrum E) a (S (reads h))))
                     (of_Z 128))
                (now E (reads h)) in
    let delay := sub (of_Z 10) (mul (Rose.volume g') (of_Z 900)) in
    Rose.drawAnimation E (World g h) =
    (Ok tt,
     World g' (enqueue_timer CbRequestDraw (timer_delay delay)
                 (record_event (EvSetTimeout CbRequestDraw delay) h1))) /\
    drawn h h1.
Proof.
  intros Ha. destruct g as [ctx an vol last]. cbn in Ha. subst an.
  set (vol' := div (getAverageFrequency
                      (fresh_snapshot (spectrum E) a (S (reads h)))) (of_Z 128)).
  set (g' := Rose.Globals ctx (Some a) vol' (now E (reads h))).
  set (h0 := consume (consume (record_event EvClearRect (consume h)))).
  set (color := getPitchColor
                  (fresh_snapshot (waveform E) a (S (S (reads h))))).
  destruct (drawRose_run color g' h0) as [h1 [Hrose Drose]].
  exists (record_event
            (EvCenter (mul (of_Z 5) (add (of_Z 1) (mul vol' (of_Z 3)))) color) h1).
  split.
  - assert (Hsplit :
      Rose.drawAnimation E (World (Rose.Globals ctx (Some a) vol last) h) =
      bind (Rose.drawRose E color) (fun _ =>
        bind (Rose.drawCenterObject color) (fun _ =>
          bind get_globals (fun g =>
            setTimeout CbRequestDraw
              (sub (of_Z 10) (mul (Rose.volume g) (of_Z 900))))))
        (World g' h0)) by reflexivity.
    rewrite Hsplit. unfold bind at 1. rewrite Hrose. reflexivity.
  - apply (drawn_trans h h1 _); [|apply drawn_record; reflexivity].
    apply (drawn_trans h h0 h1); [|exact Drose].
    unfold h0.
    apply (drawn_trans h (consume h) _); [apply drawn_consume|].
    apply (drawn_trans _ (record_event EvClearRect (consume h)) _);
      [apply drawn_record; reflexivity|].
    apply (drawn_trans _ (consume (record_event EvClearRect (consume h))) _);
      apply drawn_consume.
Qed.

End RoseTick.

(** ** Rose scheduling *)

Section RoseTimer.
Context {num : Type} {N : JsNum num}.
Variable E : @env num.

(** When the timer of [drawAnimation] comes due, its callback asks for
    the next animation frame; the delay it was set with plays no part. *)
Lemma timer_fires (w : world Rose.globals_t) (d : num) :
  timer_queue (host w) = [(CbRequestDraw, d)] ->
  step (Rose.dispatch E) Rose.no_mouse w TimerFires =
  World (globals w)
        (enqueue_frame CbDrawAnimation
           (record_event (EvRequestAnimationFrame CbDrawAnimation)
              (take_timers (host w)))).
Proof.
  intros Hq. unfold step. rewrite Hq. reflexivity.
Qed.

End RoseTimer.

Lemma drawn_uncaught {num : Type} (h h' : @host_state num) :
  drawn h h' -> uncaught (trace h') = uncaught (trace h).
Proof.
  intros [_ [_ [_ [_ [tr [Htr Hd]]]]]]. rewrite Htr.
  unfold uncaught. rewrite count_app.
  assert (Hz : count is_uncaught tr = 0%nat).
  { clear Htr. induction tr as [|e tr IH]; [reflexivity|].
    cbn [forallb] in Hd. apply andb_true_iff in Hd. destruct Hd as [He Hd].
    unfold count in *. cbn [filter].
    destruct e; try discriminate He; cbn [is_uncaught]; apply IH, Hd. }
  rewrite Hz. apply Nat.add_0_r.
Qed.

Section RoseRunning.
Context {num : Type} {N : JsNum num}.
Variable E : @env num.

Lemma drawAnimation_keeps_running (w : world Rose.globals_t) :
  rose_running w -> rose_running (run_callback (Rose.drawAnimation E) w).
Proof.
  intros [[a Ha] Hu]. destruct w as [g h]. cbn [globals host] in *.
  destruct (drawAnimation_run E g h a Ha) as [h1 [Hrun Hdrawn]].
  cbv zeta in Hrun. unfold run_callback. rewrite Hrun. split.
  - exists a. reflexivity.
  - cbn [host trace enqueue_timer record_event].
    unfold uncaught in *. rewrite count_app.
    fold (uncaught (trace h1)). rewrite (drawn_uncaught h h1 Hdrawn).
    unfold uncaught. rewrite Hu. reflexivity.
Qed.

Lemma dispatch_keeps_running (cb : callback) (w : world Rose.globals_t) :
  rose_running w -> rose_running (run_callback (Rose.dispatch E cb) w).
Proof.
  intros Hw. destruct cb; cbn [Rose.dispatch].
  - exact Hw.
  - apply drawAnimation_keeps_running, Hw.
  - destruct Hw as [Ha Hu]. split; [exact Ha|].
    destruct w as [g h]. cbn [run_callback requestAnimationFrame bind emit
                              update_host host globals trace
                              enqueue_frame record_event] in *.
    unfold uncaught in *. rewrite count_app, Hu. reflexivity.
Qed.

Lemma run_all_keeps_running (cbs : list callback) :
  forall w : world Rose.globals_t,
    rose_running w -> rose_running (run_all (Rose.dispatch E) cbs w).
Proof.
  induction cbs as [|cb rest IH]; intros w Hw; [exact Hw|].
  unfold run_all in *. cbn [fold_left]. apply IH, dispatch_keeps_running, Hw.
Qed.

Lemma step_keeps_running (w : world Rose.globals_t) (i : input) :
  rose_running w -> rose_running (step (Rose.dispatch E) Rose.no_mouse w i).
Proof.
  intros Hw. destruct i as [| |x y]; cbn [step].
  - apply run_all_keeps_running. exact Hw.
  - apply run_all_keeps_running. exact Hw.
  - destruct (mouse_listener (host w)); exact Hw.
Qed.

Lemma clicked_running :
  microphone E = Granted -> rose_running (Rose.clicked E).
Proof.
  intros Hmic. unfold Rose.clicked, Rose.settle. rewrite Hmic.
  set (w1 := run_callback Rose.on_click Rose.world0).
  set (g2 := Rose.Globals (Some tt) (Some (Analyser 2048 true))
                          (of_Z 0) (now E 0%nat)).
  assert (Hsplit : Rose.on_stream E w1 =
                   Rose.drawAnimation E (World g2 (consume (host w1)))).
  { unfold Rose.on_stream, bind. cbn [get_globals]. reflexivity. }
  assert (Hrun : run_callback (Rose.on_stream E) w1 =
                 run_callback (Rose.drawAnimation E)
                   (World g2 (consume (host w1)))).
  { unfold run_callback. rewrite Hsplit. reflexivity. }
  rewrite Hrun. apply drawAnimation_keeps_running. split.
  - eexists. reflexivity.
  - reflexivity.
Qed.

Lemma session_running (inputs : list input) :
  microphone E = Granted -> rose_running (Rose.session E inputs).
Proof.
  intros Hmic. unfold Rose.session, run.
  generalize (clicked_running Hmic). generalize (Rose.clicked E).
  induction inputs as [|i rest IH]; intros w Hw; [exact Hw|].
  cbn [fold_left]. apply IH, step_keeps_running, Hw.
Qed.

End RoseRunning.

(** C6. In every number system the delay [drawAnimation] passes to
    [setTimeout] is [10 - volume * 900], with the volume just stored;
    the call is the last of the tick and the tick completes normally
    whatever the sign of the delay.  When the timer fires, the next
    animation frame is requested, and in no session with a granted
    request does an exception reach the host.  On exact numbers the
    delay is the rational 10 - v*900. *)
Theorem rose_delay_is_ten_minus_volume_times_900 :
  (forall (num : Type) (N : JsNum num) (E : @env num)
          (g : Rose.globals_t) (h : host_state) (a : analyser_node),
      Rose.analyser g = Some a ->
      exists w' h1,
        let delay := sub (of_Z 10) (mul (Rose.volume (globals w')) (of_Z 900)) in
        Rose.drawAnimation E (World g h) = (Ok tt, w') /\
        host w' = enqueue_timer CbRequestDraw (timer_delay delay)
                    (record_event (EvSetTimeout CbRequestDraw delay) h1) /\
        drawn h h1 /\
        Rose.analyser (globals w') = Some a) /\
  (forall (num : Type) (N : JsNum num) (E : @env num)
          (w : world Rose.globals_t) (d : num),
      timer_queue (host w) = [(CbRequestDraw, d)] ->
      step (Rose.dispatch E) Rose.no_mouse w TimerFires =
      World (globals w)
            (enqueue_frame CbDrawAnimation
               (record_event (EvRequestAnimationFrame CbDrawAnimation)
                  (take_timers (host w))))) /\
  (forall (num : Type) (N : JsNum num) (E : @env num) (inputs : list input),
      microphone E = Granted ->
      uncaught (trace (host (Rose.session E inputs))) = 0%nat) /\
  (forall v : Q,
      sub (of_Z 10) (mul (Fin v) (of_Z 900)) =n= Fin (10 - v * 900)).
Proof.
  split; [|split; [|split]].
  - intros num N E g h a Ha.
    destruct (drawAnimation_run E g h a Ha) as [h1 [Hrun Hdrawn]].
    cbv zeta in Hrun.
    eexists. exists h1. cbv zeta.
    split; [exact Hrun|]. cbn [host globals Rose.volume Rose.analyser].
    split; [reflexivity|]. split; [exact Hdrawn | reflexivity].
  - intros num N E w d Hq. exact (timer_fires E w d Hq).
  - intros num N E inputs Hmic. exact (proj2 (session_running E inputs Hmic)).
  - intros v. simpl. ring.
Qed.

Lemma rose_delay_is_ten_minus_volume_times_900_witness :
  (exists w' h1,
      let delay := sub (of_Z 10) (mul (Rose.volume (globals w')) (of_Z 900)) in
      Rose.drawAnimation (sample_env Granted xff) (World rose_ready_globals host0)
      = (Ok tt, w') /\
      host w' = enqueue_timer CbRequestDraw (timer_delay delay)
                  (record_event (EvSetTimeout CbRequestDraw delay) h1) /\
      drawn host0 h1 /\
      Rose.analyser (globals w') = Some (Analyser 2048 true)) /\
  step (Rose.dispatch (sample_env Granted xff)) Rose.no_mouse
       (World rose_ready_globals
              (HostState [] [] [(CbRequestDraw, Fin (- 890))] true false 0))
       TimerFires =
  World rose_ready_globals
        (enqueue_frame CbDrawAnimation
           (record_event (EvRequestAnimationFrame CbDrawAnimation)
              (take_timers
                 (HostState [] [] [(CbRequestDraw, Fin (- 890))] true false 0)))).
Proof.
  destruct rose_delay_is_ten_minus_volume_times_900 as [Htick [Hfire _]].
  split.
  - apply (Htick xnum exact (sample_env Granted xff) rose_ready_globals host0
                 (Analyser 2048 true)).
    reflexivity.
  - apply (Hfire xnum exact (sample_env Granted xff)
                 (World rose_ready_globals
                    (HostState [] [] [(CbRequestDraw, Fin (- 890))] true false 0))
                 (Fin (- 890))).
    reflexivity.
Defined.

(** ** Rose volume *)

Lemma volume_of_snapshot (snapshot : list byte) :
  snapshot <> [] ->
  exists v,
    div (getAverageFrequency snapshot) (of_Z 128) = Fin v /\
    v == arithmetic_mean snapshot / 128 /\
    0 <= v <= 255 / 128.
Proof.
  intros Hne.
  destruct (getAverageFrequency_exact snapshot Hne) as [m [Hm Hq]].
  pose proof (arithmetic_mean_range snapshot Hne) as Hrange.
  rewrite Hm. exists (m / 128). split; [reflexivity|].
  split; [rewrite Hq; reflexivity|].
  rewrite Hq. split.
  - apply Qle_shift_div_l; lra.
  - apply Qle_shift_div_r; [lra|]. field_simplify. lra.
Qed.

Lemma zero_in_range : 0 <= 0 <= 255 / 128.
Proof. split; vm_compute; discriminate. Qed.

Lemma volume_in_range_globals (w w' : world Rose.globals_t) :
  globals w' = globals w -> volume_in_range w -> volume_in_range w'.
Proof. unfold volume_in_range. intros ->. auto. Qed.

Section RoseInvariant.
Variable E : @env xnum.

Lemma drawAnimation_volume (g : Rose.globals_t) (h : host_state) (a : analyser_node) :
  Rose.analyser g = Some a ->
  (0 < frequencyBinCount a)%nat ->
  exists w' v,
    Rose.drawAnimation E (World g h) = (Ok tt, w') /\
    Rose.volume (globals w') = Fin v /\
    v == arithmetic_mean (fresh_snapshot (spectrum E) a (S (reads h))) / 128 /\
    0 <= v <= 255 / 128 /\
    Rose.analyser (globals w') = Some a.
Proof.
  intros Ha Hbins.
  destruct (drawAnimation_run E g h a Ha) as [h1 [Hrun _]]. cbv zeta in Hrun.
  assert (Hne : fresh_snapshot (spectrum E) a (S (reads h)) <> []).
  { apply nonempty_length. rewrite fresh_snapshot_length. exact Hbins. }
  destruct (volume_of_snapshot _ Hne) as [v [Hv [Hmean Hrange]]].
  eexists. exists v. split; [exact Hrun|].
  cbn [globals Rose.volume Rose.analyser].
  split; [exact Hv|]. split; [exact Hmean|]. split; [exact Hrange | reflexivity].
Qed.

Lemma drawAnimation_keeps_range (w : world Rose.globals_t) :
  volume_in_range w -> volume_in_range (run_callback (Rose.drawAnimation E) w).
Proof.
  intros [[v [Hv Hrange]] Hbins]. destruct w as [g h]. cbn [globals] in *.
  destruct (Rose.analyser g) as [a|] eqn:Ha.
  - destruct (drawAnimation_volume g h a Ha (Hbins a eq_refl))
      as [w' [v' [Hrun [Hv' [_ [Hrange' Ha']]]]]].
    unfold run_callback. rewrite Hrun. split.
    + exists v'. split; assumption.
    + intros a' Ha''. rewrite Ha' in Ha''. inversion Ha''; subst. auto.
  - destruct g as [ctx an vol last]. cbn in Ha, Hv. subst an vol.
    split.
    + exists v. split; [reflexivity | exact Hrange].
    + intros a' Ha'. discriminate Ha'.
Qed.

Lemma dispatch_keeps_range (cb : callback) (w : world Rose.globals_t) :
  volume_in_range w -> volume_in_range (run_callback (Rose.dispatch E cb) w).
Proof.
  intros Hw. destruct cb; cbn [Rose.dispatch].
  - exact Hw.
  - apply drawAnimation_keeps_range, Hw.
  - exact (volume_in_range_globals w _ eq_refl Hw).
Qed.

Lemma run_all_keeps_range (cbs : list callback) :
  forall w : world Rose.globals_t,
    volume_in_range w -> volume_in_range (run_all (Rose.dispatch E) cbs w).
Proof.
  induction cbs as [|cb rest IH]; intros w Hw; [exact Hw|].
  unfold run_all in *. cbn [fold_left]. apply IH, dispatch_keeps_range, Hw.
Qed.

Lemma step_keeps_range (w : world Rose.globals_t) (i : input) :
  volume_in_range w -> volume_in_range (step (Rose.dispatch E) Rose.no_mouse w i).
Proof.
  intros Hw. destruct i as [| |x y]; cbn [step].
  - apply run_all_keeps_range. exact (volume_in_range_globals w _ eq_refl Hw).
  - apply run_all_keeps_range. exact (volume_in_range_globals w _ eq_refl Hw).
  - destruct (mouse_listener (host w)); exact Hw.
Qed.

Lemma run_keeps_range (inputs : list input) :
  forall w : world Rose.globals_t,
    volume_in_range w ->
    volume_in_range (run (Rose.dispatch E) Rose.no_mouse w inputs).
Proof.
  induction inputs as [|i rest IH]; intros w Hw; [exact Hw|].
  unfold run in *. cbn [fold_left]. apply IH, step_keeps_range, Hw.
Qed.

Lemma clicked_in_range : volume_in_range (Rose.clicked E).
Proof.
  unfold Rose.clicked, Rose.settle.
  set (w1 := run_callback Rose.on_click Rose.world0).
  assert (Hw1 : volume_in_range w1).
  { split.
    - exists 0. split; [reflexivity | exact zero_in_range].
    - intros a Ha. cbv in Ha. inversion Ha; subst. cbv. lia. }
  destruct (microphone E) as [|e].
  - set (g2 := Rose.Globals (Some tt) (Some (Analyser 2048 true))
                            (of_Z 0) (now E 0%nat)).
    assert (Hsplit : Rose.on_stream E w1 =
                     Rose.drawAnimation E (World g2 (consume (host w1)))).
    { unfold Rose.on_stream, bind. cbn [get_globals]. reflexivity. }
    assert (Hrun : run_callback (Rose.on_stream E) w1 =
                   run_callback (Rose.drawAnimation E)
                     (World g2 (consume (host w1)))).
    { unfold run_callback. rewrite Hsplit. reflexivity. }
    rewrite Hrun. apply drawAnimation_keeps_range.
    split.
    + exists 0. split; [reflexivity | exact zero_in_range].
    + intros a Ha. cbv in Ha. inversion Ha; subst. cbv. lia.
  - exact (volume_in_range_globals w1 _ eq_refl Hw1).
Qed.

Lemma session_in_range (inputs : list input) :
  volume_in_range (Rose.session E inputs).
Proof. apply run_keeps_range, clicked_in_range. Qed.

End RoseInvariant.

(** C7. The volume of the rose page is 0 before the first tick; each
    [drawAnimation] sets it to the mean of the frequency snapshot it
    reads divided by 128, a value in [0, 255/128]; this holds after
    every input of every session; and the value is not clamped to 1:
    a snapshot of bytes 255 gives 255/128. *)
Theorem rose_volume_nonnegative_unclamped :
  Rose.volume (@Rose.globals0 xnum exact) = Fin 0 /\
  (forall (E : @env xnum) (g : Rose.globals_t) (h : host_state) (a : analyser_node),
      Rose.analyser g = Some a ->
      (0 < frequencyBinCount a)%nat ->
      exists w' v,
        Rose.drawAnimation E (World g h) = (Ok tt, w') /\
        Rose.volume (globals w') = Fin v /\
        v == arithmetic_mean (fresh_snapshot (spectrum E) a (S (reads h))) / 128 /\
        0 <= v <= 255 / 128) /\
  (forall (E : @env xnum) (inputs : list input),
      exists v,
        Rose.volume (globals (Rose.session E inputs)) = Fin v /\
        0 <= v <= 255 / 128) /\
  (exists v,
      Rose.volume (globals (Rose.session (sample_env Granted xff) [])) = Fin v /\
      v == 255 / 128 /\ 1 < v).
Proof.
  split; [reflexivity|]. split; [|split].
  - intros E g h a Ha Hbins.
    destruct (drawAnimation_volume E g h a Ha Hbins)
      as [w' [v [Hrun [Hv [Hmean [Hrange _]]]]]].
    exists w', v. repeat split; try assumption; apply Hrange.
  - intros E inputs. exact (proj1 (session_in_range E inputs)).
  - eexists. split; [vm_compute; reflexivity|].
    split; vm_compute; reflexivity.
Qed.

Lemma rose_volume_nonnegative_unclamped_witness :
  exists w' v,
    Rose.drawAnimation (sample_env Granted xff) (World rose_ready_globals host0)
    = (Ok tt, w') /\
    Rose.volume (globals w') = Fin v /\
    v == arithmetic_mean
           (fresh_snapshot (spectrum (sample_env Granted xff))
                           (Analyser 2048 true) (S (reads (@host0 xnum)))) / 128 /\
    0 <= v <= 255 / 128.
Proof.
  apply (proj1 (proj2 rose_volume_nonnegative_unclamped)
           (sample_env Granted xff) rose_ready_globals host0 (Analyser 2048 true)).
  - reflexivity.
  - vm_compute. lia.
Defined.

(** ** The end-to-end numeric scenario *)

(** C8. For the snapshot of 2048 bytes that is 0 except 255 at index
    1024: the mean is 255/2048 (0.1245 to four places), the hue is 180,
    the sphere scale is 1 + 255/2048/128 (1.00097 to five places) and
    the rose volume is 255/2048/128 (0.001 to four places); a sphere
    tick and a rose tick on 2048-bin analysers holding that snapshot
    set exactly these values. *)
Theorem scenario_features :
  (List.length scenario = 2048%nat /\ total scenario = 255%Z /\
   nth 1024 scenario x00 = xff) /\
  (getAverageFrequency scenario =n= Fin (255 / 2048) /\
   Qabs (255 / 2048 - 0.1245) <= 0.0001) /\
  (exists hue, getPitchColor scenario = Hsl (Fin hue) 100 50 /\ hue == 180) /\
  (Sphere.scale_of (getAverageFrequency scenario) =n= Fin (1 + 255 / 2048 / 128) /\
   Qabs (1 + 255 / 2048 / 128 - 1.00097) <= 0.00001) /\
  (div (getAverageFrequency scenario) (of_Z 128) =n= Fin (255 / 2048 / 128) /\
   Qabs (255 / 2048 / 128 - 0.001) <= 0.0001) /\
  (exists w' s' q,
      Sphere.animate scenario_env (World scenario_sphere_globals host0) = (Ok tt, w') /\
      Sphere.sphere (globals w') = Some s' /\
      Sphere.scale s' = (Fin q, Fin q, Fin q) /\
      q == 1 + 255 / 2048 / 128) /\
  (exists w' v r hue,
      Rose.drawAnimation scenario_env (World scenario_rose_globals host0) = (Ok tt, w') /\
      Rose.volume (globals w') = Fin v /\
      v == 255 / 2048 / 128 /\
      In (EvCenter r (Hsl (Fin hue) 100 50)) (trace (host w')) /\
      hue == 180).
Proof.
  split; [repeat split; vm_compute; reflexivity|].
  split; [split; [vm_compute; reflexivity | vm_compute; discriminate]|].
  split; [eexists; split; vm_compute; reflexivity|].
  split; [split; [vm_compute; reflexivity | vm_compute; discriminate]|].
  split; [split; [vm_compute; reflexivity | vm_compute; discriminate]|].
  split.
  - do 3 eexists. split; [vm_compute; reflexivity|].
    split; [reflexivity|]. split; [reflexivity|]. vm_compute. reflexivity.
  - do 4 eexists. split; [vm_compute; reflexivity|].
    split; [reflexivity|]. split; [vm_compute; reflexivity|].
    split; [cbn [host trace]; do 11 right; left; reflexivity|].
    vm_compute. reflexivity.
Qed.

(** The same scenario, and the empty snapshot, computed in IEEE
    binary64: the four values are exactly representable, so the browser
    obtains them without rounding. *)
Lemma scenario_binary64 :
  @getAverageFrequency float binary64 scenario = 0.12451171875%float /\
  hsl_hue (@getPitchColor float binary64 scenario) = 180%float /\
  Sphere.scale_of (@getAverageFrequency float binary64 scenario)
  = 0x1.003fcp+0%float /\
  div (@getAverageFrequency float binary64 scenario) (of_Z 128)
  = 0x1.fep-11%float /\
  @getAverageFrequency float binary64 (repeat xff 1024) = 255%float /\
  @getAverageFrequency float binary64 (repeat x00 128) = 0%float /\
  PrimFloat.is_nan (@getAverageFrequency float binary64 []) = true.
Proof. repeat split; vm_compute; reflexivity. Qed.

(** ** Rejected microphone request *)

Section Rejected.
Context {num : Type} {N : JsNum num}.
Variable E : @env num.
Variable e : mic_error.
Hypothesis Hmic : microphone E = Rejected e.

(** [animate] with an analyser but no snapshot array: the frame request
    is made, then the analyser call throws. *)
Lemma animate_without_data (g : Sphere.globals_t) (h : host_state) (a : analyser_node) :
  Sphere.analyser g = Some a ->
  Sphere.frequencyData g = None ->
  Sphere.animate E (World g h) =
  (Throw (TypeError "parameter 1 is not of type 'Uint8Array'"),
   World g (enqueue_frame CbAnimate
              (record_event (EvRequestAnimationFrame CbAnimate) h))).
Proof.
  intros Ha Hd. destruct g as [sc cam ren sph an ctx fd mx my].
  cbn in Ha, Hd. subst. reflexivity.
Qed.

Lemma initAudio_rejected (g : Sphere.globals_t) (h : host_state) :
  Sphere.initAudio E (World g h) =
  (Ok tt,
   World (Sphere.set_analyser (Some createAnalyser)
            (Sphere.set_audioContext (Some tt) g))
         (record_event
            (EvConsoleError "Error accessing microphone" (MediaError e)) h)).
Proof.
  unfold Sphere.initAudio, bind, try_catch, getUserMedia.
  cbn [update globals host]. rewrite Hmic. reflexivity.
Qed.

Lemma sphere_clicked_rejected : started_without_audio E e (Sphere.clicked E).
Proof.
  unfold Sphere.clicked, run_callback, Sphere.on_click.
  unfold bind at 1. unfold Sphere.world0. rewrite initAudio_rejected.
  unfold started_without_audio.
  split; [eexists; reflexivity|]. split; [reflexivity|].
  split; [eexists; reflexivity|].
  split; [reflexivity|]. split; [reflexivity|]. split; [reflexivity|].
  split; [reflexivity|].
  exists [EvUncaught (TypeError "parameter 1 is not of type 'Uint8Array'")].
  split; [reflexivity|]. split; [reflexivity|]. split; [reflexivity|].
  split; [reflexivity|]. apply Nat.le_refl.
Qed.

Lemma sphere_step_rejected (w : world Sphere.globals_t) (i : input) :
  started_without_audio E e w ->
  started_without_audio E e (step (Sphere.dispatch E) (Sphere.onMouseMove E) w i).
Proof.
  intros [[a Ha] [Hd [[s Hs] [Hf [Ht [Hm [Hb
            [rest [Htr [Hdiag [Hcanvas [Hrender Huncaught]]]]]]]]]]]].
  destruct w as [g h]. cbn [globals host] in *.
  destruct i as [| |x y]; cbn [step host globals].
  - rewrite Hf. unfold run_all. cbn [fold_left Sphere.dispatch].
    unfold run_callback. rewrite (animate_without_data g _ a Ha Hd).
    cbn [snd emit update_host globals host].
    unfold started_without_audio. cbn [globals host].
    split; [exists a; exact Ha|]. split; [exact Hd|]. split; [exists s; exact Hs|].
    split; [reflexivity|]. split; [exact Ht|]. split; [exact Hm|].
    split; [exact Hb|].
    exists (rest ++ [EvRequestAnimationFrame CbAnimate;
                     EvUncaught (TypeError "parameter 1 is not of type 'Uint8Array'")]).
    split; [|split; [|split; [|split]]].
    + cbn [trace record_event enqueue_frame take_frames]. rewrite Htr.
      rewrite <- !app_assoc. reflexivity.
    + unfold diagnostics in *. rewrite count_app, Hdiag. reflexivity.
    + rewrite count_app, Hcanvas. reflexivity.
    + rewrite count_app, Hrender. reflexivity.
    + unfold uncaught in *. rewrite count_app. lia.
  - rewrite Ht. unfold run_all. cbn [map fold_left].
    unfold started_without_audio. cbn [globals host].
    split; [exists a; exact Ha|]. split; [exact Hd|]. split; [exists s; exact Hs|].
    split; [exact Hf|]. split; [reflexivity|]. split; [exact Hm|].
    split; [exact Hb|].
    exists rest. repeat split; assumption.
  - rewrite Hm. destruct g as [sc cam ren sph an ctx fd mx my].
    cbn in Ha, Hd, Hs. subst.
    unfold started_without_audio. cbn.
    split; [exists a; reflexivity|]. split; [reflexivity|].
    split; [exists s; reflexivity|].
    split; [exact Hf|]. split; [exact Ht|]. split; [exact Hm|].
    split; [exact Hb|].
    exists rest. repeat split; assumption.
Qed.

Lemma sphere_session_rejected (inputs : list input) :
  started_without_audio E e (Sphere.session E inputs).
Proof.
  unfold Sphere.session, run.
  generalize sphere_clicked_rejected. generalize (Sphere.clicked E).
  induction inputs as [|i rest IH]; intros w Hw; [exact Hw|].
  cbn [fold_left]. apply IH, sphere_step_rejected, Hw.
Qed.

Lemma rose_clicked_rejected : rose_inert e (Rose.clicked E).
Proof.
  unfold Rose.clicked, Rose.settle. rewrite Hmic.
  unfold rose_inert. repeat split; reflexivity.
Qed.

Lemma rose_step_rejected (w : world Rose.globals_t) (i : input) :
  rose_inert e w -> rose_inert e (step (Rose.dispatch E) Rose.no_mouse w i).
Proof.
  intros [Htr [Hf [Ht [Hm Hb]]]].
  destruct w as [g h]. cbn [globals host] in *.
  destruct i as [| |x y]; cbn [step host globals].
  - rewrite Hf. unfold rose_inert. cbn. repeat split; assumption.
  - rewrite Ht. unfold rose_inert. cbn. repeat split; assumption.
  - rewrite Hm. unfold rose_inert. cbn. repeat split; assumption.
Qed.

Lemma rose_session_rejected (inputs : list input) :
  rose_inert e (Rose.session E inputs).
Proof.
  unfold Rose.session, run.
  generalize rose_clicked_rejected. generalize (Rose.clicked E).
  induction inputs as [|i rest IH]; intros w Hw; [exact Hw|].
  cbn [fold_left]. apply IH, rose_step_rejected, Hw.
Qed.

End Rejected.

Lemma failure_prefix_counts {num : Type} (E : @env num) (e : mic_error) :
  diagnostics (sphere_failure_prefix E e) = 1%nat /\
  animation_requests (sphere_failure_prefix E e) = 1%nat /\
  count is_canvas (sphere_failure_prefix E e) = 1%nat.
Proof. repeat split; reflexivity. Qed.

(** C1, as the code has it.  When the microphone request is rejected:
    the rose page schedules no animation callback and logs nothing, the
    rejection reaching the host unhandled; the sphere page logs exactly
    one diagnostic and then goes on to build the scene and call
    [animate], so an animation callback is requested. *)
Theorem rejection_rose_silent_sphere_logs_and_starts :
  forall (num : Type) (N : JsNum num) (E : @env num) (e : mic_error)
         (inputs : list input),
    microphone E = Rejected e ->
    (trace (host (Rose.session E inputs))
     = [EvHideStartButton; EvUncaught (MediaError e)] /\
     animation_requests (trace (host (Rose.session E inputs))) = 0%nat /\
     diagnostics (trace (host (Rose.session E inputs))) = 0%nat) /\
    (diagnostics (trace (host (Sphere.session E inputs))) = 1%nat /\
     (1 <= animation_requests (trace (host (Sphere.session E inputs))))%nat /\
     exists rest,
       trace (host (Sphere.session E inputs)) = sphere_failure_prefix E e ++ rest /\
       diagnostics rest = 0%nat).
Proof.
  intros num N E e inputs Hmic. split.
  - destruct (rose_session_rejected E e Hmic inputs) as [Htr _].
    rewrite Htr. repeat split; reflexivity.
  - destruct (sphere_session_rejected E e Hmic inputs)
      as [_ [_ [_ [_ [_ [_ [_ [rest [Htr [Hdiag _]]]]]]]]]].
    rewrite Htr.
    destruct (failure_prefix_counts E e) as [Hd [Ha _]].
    split; [|split].
    + unfold diagnostics in *. rewrite count_app, Hd, Hdiag. reflexivity.
    + unfold animation_requests in *. rewrite count_app, Ha. lia.
    + exists rest. split; [reflexivity | exact Hdiag].
Qed.

Lemma rejection_rose_silent_sphere_logs_and_starts_witness :
  (trace (host (Rose.session rejecting_env [Frame; TimerFires]))
   = [EvHideStartButton; EvUncaught (MediaError NotAllowedError)] /\
   animation_requests (trace (host (Rose.session rejecting_env [Frame; TimerFires]))) = 0%nat /\
   diagnostics (trace (host (Rose.session rejecting_env [Frame; TimerFires]))) = 0%nat) /\
  (diagnostics (trace (host (Sphere.session rejecting_env [Frame; TimerFires]))) = 1%nat /\
   (1 <= animation_requests
           (trace (host (Sphere.session rejecting_env [Frame; TimerFires]))))%nat /\
   exists rest,
     trace (host (Sphere.session rejecting_env [Frame; TimerFires]))
     = sphere_failure_prefix rejecting_env NotAllowedError ++ rest /\
     diagnostics rest = 0%nat).
Proof.
  apply (rejection_rose_silent_sphere_logs_and_starts
           xnum exact rejecting_env NotAllowedError [Frame; TimerFires]).
  reflexivity.
Defined.

(** C1 as worded fails on both pages: after a rejected request the
    sphere page has requested an animation frame, and the rose page has
    logged no diagnostic. *)
Lemma rejection_is_not_quiet :
  microphone rejecting_env = Rejected NotAllowedError /\
  animation_requests (trace (host (Sphere.session rejecting_env []))) = 1%nat /\
  diagnostics (trace (host (Rose.session rejecting_env []))) = 0%nat /\
  ~ quiet_failure (trace (host (Sphere.session rejecting_env []))) /\
  ~ quiet_failure (trace (host (Rose.session rejecting_env []))).
Proof.
  split; [reflexivity|]. split; [reflexivity|]. split; [reflexivity|].
  split; intros [Ha [Hd _]]; vm_compute in Ha, Hd; discriminate.
Qed.

(** C9, as the code has it.  When audio access fails, the sphere page
    logs exactly one diagnostic, [initAudio] returns normally, and the
    click handler goes on: the canvas is added to the document, the
    pointer listener is registered, the sphere exists and [animate] is
    pending after every input. *)
Theorem sphere_failure_logged_then_started :
  forall (num : Type) (N : JsNum num) (E : @env num) (e : mic_error)
         (inputs : list input),
    microphone E = Rejected e ->
    (forall (g : Sphere.globals_t) (h : host_state),
        exists w1, Sphere.initAudio E (World g h) = (Ok tt, w1)) /\
    diagnostics (trace (host (Sphere.session E inputs))) = 1%nat /\
    count is_canvas (trace (host (Sphere.session E inputs))) = 1%nat /\
    mouse_listener (host (Sphere.session E inputs)) = true /\
    (exists s, Sphere.sphere (globals (Sphere.session E inputs)) = Some s) /\
    frame_queue (host (Sphere.session E inputs)) = [CbAnimate].
Proof.
  intros num N E e inputs Hmic. split.
  - intros g h. eexists. apply (initAudio_rejected E e Hmic).
  - destruct (sphere_session_rejected E e Hmic inputs)
      as [_ [_ [Hs [Hf [_ [Hm [_ [rest [Htr [Hdiag [Hcanvas _]]]]]]]]]]].
    rewrite Htr.
    destruct (failure_prefix_counts E e) as [Hd [_ Hc]].
    split; [|split; [|split; [|split]]].
    + unfold diagnostics in *. rewrite count_app, Hd, Hdiag. reflexivity.
    + rewrite count_app, Hc, Hcanvas. reflexivity.
    + exact Hm.
    + exact Hs.
    + exact Hf.
Qed.

Lemma sphere_failure_logged_then_started_witness :
  (forall (g : Sphere.globals_t) (h : host_state),
      exists w1, Sphere.initAudio rejecting_env (World g h) = (Ok tt, w1)) /\
  diagnostics (trace (host (Sphere.session rejecting_env [Frame; Frame]))) = 1%nat /\
  count is_canvas (trace (host (Sphere.session rejecting_env [Frame; Frame]))) = 1%nat /\
  mouse_listener (host (Sphere.session rejecting_env [Frame; Frame])) = true /\
  (exists s, Sphere.sphere (globals (Sphere.session rejecting_env [Frame; Frame])) = Some s) /\
  frame_queue (host (Sphere.session rejecting_env [Frame; Frame])) = [CbAnimate].
Proof.
  apply (sphere_failure_logged_then_started
           xnum exact rejecting_env NotAllowedError [Frame; Frame]).
  reflexivity.
Defined.

(** C9 as worded fails: after a rejected request the sphere page is
    not left un-started; a canvas has been added and an animation frame
    requested. *)
Lemma sphere_is_not_left_unstarted :
  microphone rejecting_env = Rejected NotAllowedError /\
  count is_canvas (trace (host (Sphere.session rejecting_env []))) = 1%nat /\
  frame_queue (host (Sphere.session rejecting_env [])) = [CbAnimate] /\
  ~ left_unstarted (Sphere.session rejecting_env []).
Proof.
  split; [reflexivity|]. split; [reflexivity|]. split; [reflexivity|].
  intros [_ [Ha _]]. vm_compute in Ha. discriminate.
Qed.

(** ** Further facts about the two start-up paths *)

(** After a rejected request the sphere's [animate] runs on every frame
    with an analyser but no snapshot array: each run requests the next
    frame and then throws, so nothing is ever rendered, at least one
    exception reaches the host, and the statement hiding the start
    button is never reached. *)
Lemma sphere_without_audio_throws_each_frame :
  forall (num : Type) (N : JsNum num) (E : @env num) (e : mic_error)
         (inputs : list input),
    microphone E = Rejected e ->
    button_hidden (host (Sphere.session E inputs)) = false /\
    count is_render (trace (host (Sphere.session E inputs))) = 0%nat /\
    (1 <= uncaught (trace (host (Sphere.session E inputs))))%nat.
Proof.
  intros num N E e inputs Hmic.
  destruct (sphere_session_rejected E e Hmic inputs)
    as [_ [_ [_ [_ [_ [_ [Hb [rest [Htr [_ [_ [Hrender Huncaught]]]]]]]]]]]].
  rewrite Htr. split; [exact Hb|]. split.
  - rewrite count_app, Hrender. reflexivity.
  - unfold uncaught in *. rewrite count_app. lia.
Qed.

Lemma sphere_without_audio_throws_each_frame_witness :
  button_hidden (host (Sphere.session rejecting_env [Frame; Frame])) = false /\
  count is_render (trace (host (Sphere.session rejecting_env [Frame; Frame]))) = 0%nat /\
  (1 <= uncaught (trace (host (Sphere.session rejecting_env [Frame; Frame]))))%nat.
Proof.
  apply (sphere_without_audio_throws_each_frame
           xnum exact rejecting_env NotAllowedError [Frame; Frame]).
  reflexivity.
Defined.

(** When the request is granted, the sphere's click handler leaves the
    page set up with 128 bins, [animate] pending, the pointer at the
    origin and the start button hidden. *)
Lemma sphere_granted_is_ready :
  forall (num : Type) (N : JsNum num) (E : @env num),
    microphone E = Granted ->
    exists data s c,
      sphere_ready (globals (Sphere.clicked E)) (Analyser 256 true) data s c /\
      List.length data = 128%nat /\
      frame_queue (host (Sphere.clicked E)) = [CbAnimate] /\
      button_hidden (host (Sphere.clicked E)) = true /\
      uncaught (trace (host (Sphere.clicked E))) = 0%nat.
Proof.
  intros num N E Hmic.
  assert (Haudio : forall g h,
             Sphere.initAudio E (World g h) =
             (Ok tt,
              World (Sphere.set_frequencyData (Some (new_Uint8Array 128))
                       (Sphere.set_analyser (Some (Analyser 256 true))
                          (Sphere.set_analyser (Some createAnalyser)
                             (Sphere.set_audioContext (Some tt) g)))) h)).
  { intros g h. unfold Sphere.initAudio, bind, try_catch, getUserMedia.
    cbn [update globals host]. rewrite Hmic. reflexivity. }
  assert (Hclicked :
    Sphere.clicked E =
    run_callback (Sphere.initThreeJS E ;; hide_start_button)
      (World (Sphere.set_frequencyData (Some (new_Uint8Array 128))
                (Sphere.set_analyser (Some (Analyser 256 true))
                   (Sphere.set_analyser (Some createAnalyser)
                      (Sphere.set_audioContext (Some tt) Sphere.globals0))))
             host0)).
  { unfold Sphere.clicked, run_callback, Sphere.on_click, Sphere.world0.
    unfold bind at 1 3. rewrite Haudio. reflexivity. }
  rewrite Hclicked.
  do 3 eexists. unfold sphere_ready.
  cbn -[copy_into resize new_Uint8Array getAverageFrequency].
  split; [repeat (split; [reflexivity|]); reflexivity|].
  split; [rewrite copy_into_length; reflexivity|].
  repeat (split; [reflexivity|]). reflexivity.
Qed.

Lemma sphere_granted_is_ready_witness :
  exists data s c,
    sphere_ready (globals (Sphere.clicked (sample_env Granted xff)))
                 (Analyser 256 true) data s c /\
    List.length data = 128%nat /\
    frame_queue (host (Sphere.clicked (sample_env Granted xff))) = [CbAnimate] /\
    button_hidden (host (Sphere.clicked (sample_env Granted xff))) = true /\
    uncaught (trace (host (Sphere.clicked (sample_env Granted xff)))) = 0%nat.
Proof.
  apply (sphere_granted_is_ready xnum exact (sample_env Granted xff)).
  reflexivity.
Defined.

(** A loud rose session replayed: with every bin at 255 the volume is
    255/128 and each delay is negative, the timer entry is clamped to 0,
    and after two timer/frame rounds three ticks have run, nothing was
    thrown and the next timer is pending. *)
Lemma rose_loud_session_runs :
  setTimeout (G := Rose.globals_t) CbRequestDraw (Fin (- 890))
             (World rose_ready_globals host0)
  = (Ok tt,
     World rose_ready_globals
           (enqueue_timer CbRequestDraw (Fin 0)
              (record_event (EvSetTimeout CbRequestDraw (Fin (- 890))) host0))) /\
  animation_requests
    (trace (host (Rose.session (sample_env Granted xff)
                               [TimerFires; Frame; TimerFires; Frame]))) = 5%nat /\
  uncaught
    (trace (host (Rose.session (sample_env Granted xff)
                               [TimerFires; Frame; TimerFires; Frame]))) = 0%nat /\
  forallb negative_delay
    (trace (host (Rose.session (sample_env Granted xff)
                               [TimerFires; Frame; TimerFires; Frame]))) = true /\
  map fst (timer_queue (host (Rose.session (sample_env Granted xff)
                               [TimerFires; Frame; TimerFires; Frame])))
  = [CbRequestDraw].
Proof. repeat split; vm_compute; reflexivity. Qed.

(** * Further properties of the code *)

Ltac host_simpl :=
  cbn [globals host trace frame_queue timer_queue button_hidden mouse_listener
       reads record_event consume enqueue_frame enqueue_timer take_frames
       take_timers hide_button listen_mouse app].

(** ** The mean, its range and its extremes *)

Lemma byte_value_inj (a b : byte) : byte_value a = byte_value b -> a = b.
Proof.
  unfold byte_value. intros H. apply N2Z.inj in H.
  pose proof (Byte.of_to_N a) as Ha. rewrite H, Byte.of_to_N in Ha.
  inversion Ha. reflexivity.
Qed.

Lemma total_zero_iff (snapshot : list byte) :
  total snapshot = 0%Z <-> Forall (fun b => b = x00) snapshot.
Proof.
  induction snapshot as [|b rest IH]; simpl.
  - split; [constructor | reflexivity].
  - pose proof (byte_value_range b). pose proof (total_range rest).
    split.
    + intros H1. constructor.
      * apply byte_value_inj. change (byte_value x00) with 0%Z. lia.
      * apply IH. lia.
    + intros H1. inversion H1 as [|? ? Hb Hrest]; subst.
      apply IH in Hrest. rewrite Hrest. reflexivity.
Qed.

Lemma total_full_iff (snapshot : list byte) :
  total snapshot = (255 * Z.of_nat (List.length snapshot))%Z <->
  Forall (fun b => b = xff) snapshot.
Proof.
  induction snapshot as [|b rest IH].
  - simpl. split; [constructor | reflexivity].
  - pose proof (byte_value_range b). pose proof (total_range rest).
    cbn [total fold_right List.length]. fold (total rest).
    rewrite Nat2Z.inj_succ. split.
    + intros H1. constructor.
      * apply byte_value_inj. change (byte_value xff) with 255%Z. lia.
      * apply IH. lia.
    + intros H1. inversion H1 as [|? ? Hb Hrest]; subst.
      apply IH in Hrest. rewrite Hrest. change (byte_value xff) with 255%Z. lia.
Qed.

Lemma mean_times_length (snapshot : list byte) :
  snapshot <> [] ->
  arithmetic_mean snapshot * inject_Z (Z.of_nat (List.length snapshot))
  == inject_Z (total snapshot).
Proof.
  intros Hne. unfold arithmetic_mean.
  pose proof (length_pos_inject _ snapshot Hne) as Hn.
  field. intros H0. rewrite H0 in Hn. apply (Qlt_irrefl 0), Hn.
Qed.

(** The mean of a non-empty snapshot is a number between 0 and 255; it
    is 0 only for silence in every bin and 255 only for every bin at
    full scale. *)
Theorem mean_range_and_extremes :
  forall snapshot : list byte,
    snapshot <> [] ->
    exists m,
      getAverageFrequency snapshot = Fin m /\
      0 <= m <= 255 /\
      (m == 0 <-> Forall (fun b => b = x00) snapshot) /\
      (m == 255 <-> Forall (fun b => b = xff) snapshot).
Proof.
  intros snapshot Hne.
  destruct (getAverageFrequency_exact snapshot Hne) as [m [Hm Hq]].
  pose proof (arithmetic_mean_range snapshot Hne) as Hrange.
  pose proof (mean_times_length snapshot Hne) as Hprod.
  pose proof (length_pos_inject _ snapshot Hne) as Hn.
  exists m. split; [exact Hm|]. rewrite Hq. split; [exact Hrange|].
  set (n := inject_Z (Z.of_nat (List.length snapshot))) in *.
  split.
  - rewrite <- total_zero_iff. split.
    + intros H0. rewrite H0 in Hprod.
      apply inject_Z_injective. rewrite <- Hprod. change (inject_Z 0) with 0. ring.
    + intros H0. rewrite H0 in Hprod. change (inject_Z 0) with 0 in Hprod.
      apply Qmult_integral in Hprod. destruct Hprod as [H | H]; [exact H|].
      rewrite H in Hn. exfalso. apply (Qlt_irrefl 0), Hn.
  - rewrite <- total_full_iff. split.
    + intros H0. rewrite H0 in Hprod.
      apply inject_Z_injective. rewrite <- Hprod, inject_Z_mult. reflexivity.
    + intros H0. rewrite H0, inject_Z_mult in Hprod. fold n in Hprod.
      change (inject_Z 255) with 255 in Hprod.
      assert (Hz : (arithmetic_mean snapshot - 255) * n == 0).
      { setoid_replace ((arithmetic_mean snapshot - 255) * n)
          with (arithmetic_mean snapshot * n - 255 * n) by ring.
        rewrite Hprod. ring. }
      apply Qmult_integral in Hz. destruct Hz as [H | H].
      * lra.
      * rewrite H in Hn. exfalso. apply (Qlt_irrefl 0), Hn.
Qed.

Lemma mean_range_and_extremes_witness :
  exists m,
    getAverageFrequency [x00; xff] = Fin m /\
    0 <= m <= 255 /\
    (m == 0 <-> Forall (fun b => b = x00) [x00; xff]) /\
    (m == 255 <-> Forall (fun b => b = xff) [x00; xff]).
Proof. apply (mean_range_and_extremes [x00; xff]). discriminate. Defined.

(** ** The dominant bucket on every snapshot *)

Lemma first_argmax_is_first_maximum (snapshot : list byte) :
  snapshot <> [] -> first_maximum_at snapshot (first_argmax snapshot).
Proof.
  induction snapshot as [|b rest IH]; intros Hne; [contradiction|].
  destruct rest as [|c rest'].
  - cbn [first_argmax]. split; [simpl; lia|]. split.
    + intros j Hj. simpl in Hj. assert (j = 0%nat) by lia. subst. lia.
    + intros j Hj. lia.
  - assert (Hrest : c :: rest' <> []) by discriminate.
    specialize (IH Hrest). destruct IH as [Hk [Hmax Hfirst]].
    set (k := first_argmax (c :: rest')) in *.
    change (first_argmax (b :: c :: rest'))
      with (if (value_at (c :: rest') k <=? byte_value b)%Z then 0%nat else S k).
    destruct (Z.leb_spec (value_at (c :: rest') k) (byte_value b)) as [Hle | Hlt].
    + split; [simpl; lia|]. split.
      * intros j Hj. destruct j as [|j]; [lia|].
        change (value_at (b :: c :: rest') (S j)) with (value_at (c :: rest') j).
        change (value_at (b :: c :: rest') 0) with (byte_value b).
        assert (Hj' : (j < List.length (c :: rest'))%nat) by (simpl in Hj |- *; lia).
        specialize (Hmax j Hj'). lia.
      * intros j Hj. lia.
    + split; [simpl in Hk |- *; lia|]. split.
      * intros j Hj.
        change (value_at (b :: c :: rest') (S k)) with (value_at (c :: rest') k).
        destruct j as [|j].
        -- change (value_at (b :: c :: rest') 0) with (byte_value b). lia.
        -- change (value_at (b :: c :: rest') (S j)) with (value_at (c :: rest') j).
           apply Hmax. simpl in Hj |- *. lia.
      * intros j Hj.
        change (value_at (b :: c :: rest') (S k)) with (value_at (c :: rest') k).
        destruct j as [|j].
        -- change (value_at (b :: c :: rest') 0) with (byte_value b). lia.
        -- change (value_at (b :: c :: rest') (S j)) with (value_at (c :: rest') j).
           apply Hfirst. lia.
Qed.

(** On every non-empty snapshot the two passes of [getPitchColor]
    ([Math.max], then [indexOf]) find the index a single left-to-right
    scan for the first maximum finds; the maximum is always found, and
    the hue, 360 times that index over the length, lies in [0, 360). *)
Theorem pitch_hue_is_first_argmax :
  forall snapshot : list byte,
    snapshot <> [] ->
    @indexOf xnum exact snapshot (Math_max (map of_byte snapshot))
    = Z.of_nat (first_argmax snapshot) /\
    (first_argmax snapshot < List.length snapshot)%nat /\
    exists hue,
      getPitchColor snapshot = Hsl (Fin hue) 100 50 /\
      hue == inject_Z (Z.of_nat (first_argmax snapshot))
             / inject_Z (Z.of_nat (List.length snapshot)) * 360 /\
      0 <= hue < 360.
Proof.
  intros snapshot Hne.
  pose proof (first_argmax_is_first_maximum snapshot Hne) as Hfm.
  destruct Hfm as [Hk [Hmax Hfirst]].
  split; [|split; [exact Hk|]].
  - unfold indexOf.
    rewrite (Math_max_at snapshot (first_argmax snapshot) Hk Hmax).
    rewrite (indexOf_from_first snapshot 0 (first_argmax snapshot) Hk).
    + apply Z.add_0_l.
    + intros j Hj. specialize (Hfirst j Hj). lia.
  - apply getPitchColor_first_maximum. split; [exact Hk|]. split; assumption.
Qed.

Lemma pitch_hue_is_first_argmax_witness :
  @indexOf xnum exact [x03; x07; x07] (Math_max (map of_byte [x03; x07; x07]))
  = Z.of_nat (first_argmax [x03; x07; x07]) /\
  (first_argmax [x03; x07; x07] < List.length [x03; x07; x07])%nat /\
  exists hue,
    getPitchColor [x03; x07; x07] = Hsl (Fin hue) 100 50 /\
    hue == inject_Z (Z.of_nat (first_argmax [x03; x07; x07]))
           / inject_Z (Z.of_nat (List.length [x03; x07; x07])) * 360 /\
    0 <= hue < 360.
Proof. apply (pitch_hue_is_first_argmax [x03; x07; x07]). discriminate. Defined.

Lemma first_argmax_repeat (b : byte) (n : nat) : first_argmax (repeat b n) = 0%nat.
Proof.
  induction n as [|n IH]; [reflexivity|].
  destruct n as [|n]; [reflexivity|].
  change (repeat b (S (S n))) with (b :: repeat b (S n)).
  change (first_argmax (b :: repeat b (S n)))
    with (if (value_at (repeat b (S n)) (first_argmax (repeat b (S n)))
              <=? byte_value b)%Z
          then 0%nat else S (first_argmax (repeat b (S n)))).
  rewrite IH. unfold value_at. cbn [repeat nth].
  rewrite Z.leb_refl. reflexivity.
Qed.

(** The edges of [getPitchColor]: the empty snapshot gives the hue
    -Infinity ([Math.max()] is -Infinity, [indexOf] answers -1, and
    -1/0 is -Infinity) without any exception; a snapshot whose samples
    are all equal, such as a silent wave form, gives hue 0. *)
Theorem pitch_hue_edges :
  @getPitchColor xnum exact [] = Hsl NInf 100 50 /\
  forall (b : byte) (n : nat),
    (0 < n)%nat ->
    exists hue, getPitchColor (repeat b n) = Hsl (Fin hue) 100 50 /\ hue == 0.
Proof.
  split; [reflexivity|].
  intros b n Hn.
  assert (Hne : repeat b n <> []) by (destruct n; [lia | discriminate]).
  destruct (getPitchColor_first_maximum (repeat b n) (first_argmax (repeat b n))
              (first_argmax_is_first_maximum (repeat b n) Hne))
    as [hue [Hc [Hh _]]].
  exists hue. split; [exact Hc|].
  rewrite Hh, first_argmax_repeat. unfold Qdiv. ring.
Qed.

Lemma pitch_hue_edges_witness :
  exists hue, getPitchColor (repeat x80 1024) = Hsl (Fin hue) 100 50 /\ hue == 0.
Proof. apply (proj2 pitch_hue_edges x80 1024%nat). lia. Defined.

(** ** The sphere loop *)

Section SphereLoop.
Context {num : Type} {N : JsNum num}.
Variable E : @env num.

Lemma frame_step_exact (w : world Sphere.globals_t) (a : analyser_node)
      (data : list byte) (s : Sphere.mesh) (c : Sphere.camera_t) :
  sphere_ready (globals w) a data s c ->
  frame_queue (host w) = [CbAnimate] ->
  step (Sphere.dispatch E) (Sphere.onMouseMove E) w Frame =
  World (animated E (globals w) a data s c (reads (host w)))
        (record_event EvRender
           (record_event EvUpdateProjectionMatrix
              (consume
                 (enqueue_frame CbAnimate
                    (record_event (EvRequestAnimationFrame CbAnimate)
                       (take_frames (host w))))))).
Proof.
  intros Hready Hq. destruct w as [g h]. cbn [globals host] in *.
  pose proof (animate_run E g (take_frames h) a data s c Hready) as Hrun.
  cbv zeta in Hrun.
  unfold step. cbn [host globals]. rewrite Hq.
  unfold run_all. cbn [fold_left Sphere.dispatch]. unfold run_callback.
  rewrite Hrun. reflexivity.
Qed.

Lemma mouse_step_exact (w : world Sphere.globals_t) (x y : num) :
  mouse_listener (host w) = true ->
  step (Sphere.dispatch E) (Sphere.onMouseMove E) w (MouseMove x y) =
  World (Sphere.set_mouseY
           (add (mul (neg (div y (innerHeight E))) (of_Z 2)) (of_Z 1))
           (Sphere.set_mouseX
              (sub (mul (div x (innerWidth E)) (of_Z 2)) (of_Z 1))
              (globals w)))
        (host w).
Proof.
  intros Hm. destruct w as [g h]. cbn [step host globals] in *. rewrite Hm.
  reflexivity.
Qed.

Lemma timer_step_idle (w : world Sphere.globals_t) :
  timer_queue (host w) = [] ->
  step (Sphere.dispatch E) (Sphere.onMouseMove E) w TimerFires = w.
Proof.
  intros Ht. destruct w as [g [tr fq tq bh ml rd]]. cbn in Ht. subst tq.
  reflexivity.
Qed.

(** Every input keeps the loop as it is and adds one render call per
    frame. *)
Lemma looping_step (w : world Sphere.globals_t) (i : input) :
  sphere_looping w ->
  sphere_looping (step (Sphere.dispatch E) (Sphere.onMouseMove E) w i) /\
  count is_render
    (trace (host (step (Sphere.dispatch E) (Sphere.onMouseMove E) w i)))
  = (count is_render (trace (host w)) + frames [i])%nat /\
  count is_canvas
    (trace (host (step (Sphere.dispatch E) (Sphere.onMouseMove E) w i)))
  = count is_canvas (trace (host w)).
Proof.
  intros [[data [s [c [Hready Hlen]]]] [Hf [Ht [Hm [Hb Hu]]]]].
  destruct i as [| |x y].
  - rewrite (frame_step_exact w _ data s c Hready Hf).
    destruct w as [g h]. cbn [globals host] in *.
    split; [|split].
    + split.
      * do 3 eexists. split.
        -- destruct Hready as [Ha [Hd [Hs [Hc Hr]]]].
           unfold sphere_ready, animated. cbn [Sphere.analyser Sphere.frequencyData
             Sphere.sphere Sphere.camera Sphere.renderer].
           repeat split; try reflexivity; assumption.
        -- rewrite copy_into_length. exact Hlen.
      * host_simpl.
        split; [reflexivity|]. split; [exact Ht|]. split; [exact Hm|].
        split; [exact Hb|].
        unfold uncaught in *. rewrite !count_app, Hu. reflexivity.
    + host_simpl. rewrite !count_app. unfold frames. cbn. lia.
    + host_simpl. rewrite !count_app. cbn. lia.
  - rewrite (timer_step_idle w Ht).
    split; [|split; [unfold frames; cbn; lia | reflexivity]].
    split; [exists data, s, c; split; assumption|]. repeat split; assumption.
  - rewrite (mouse_step_exact w x y Hm).
    destruct w as [g h]. cbn [globals host] in *.
    split; [|split; [unfold frames; cbn; lia | reflexivity]].
    split.
    + exists data, s, c. split; [|exact Hlen].
      destruct Hready as [Ha [Hd [Hs [Hc Hr]]]].
      destruct g as [sc cam ren sph an ctx fd mx my]. cbn in *.
      repeat split; assumption.
    + repeat split; assumption.
Qed.

Lemma looping_run (inputs : list input) :
  forall w : world Sphere.globals_t,
    sphere_looping w ->
    sphere_looping (run (Sphere.dispatch E) (Sphere.onMouseMove E) w inputs) /\
    count is_render
      (trace (host (run (Sphere.dispatch E) (Sphere.onMouseMove E) w inputs)))
    = (count is_render (trace (host w)) + frames inputs)%nat /\
    count is_canvas
      (trace (host (run (Sphere.dispatch E) (Sphere.onMouseMove E) w inputs)))
    = count is_canvas (trace (host w)).
Proof.
  induction inputs as [|i rest IH]; intros w Hw.
  - cbn. split; [exact Hw|]. split; [lia | reflexivity].
  - destruct (looping_step w i Hw) as [Hw' [Hr Hc]].
    destruct (IH _ Hw') as [Hw'' [Hr' Hc']].
    unfold run in *. cbn [fold_left].
    split; [exact Hw''|]. split.
    + rewrite Hr', Hr. unfold frames. cbn [filter].
      destruct i; cbn [List.length filter]; lia.
    + rewrite Hc', Hc. reflexivity.
Qed.

Hypothesis Hmic : microphone E = Granted.

(** The page the click handler leaves when the request is granted. *)
Lemma sphere_clicked_granted :
  Sphere.clicked E =
  World
    (animated E
       (Sphere.Globals (Some tt)
          (Some (Sphere.Camera (of_Z 75) (div (innerWidth E) (innerHeight E)) (of_Z 10)))
          (Some tt)
          (Some (Sphere.Mesh (of_Z 1, of_Z 1, of_Z 1) (Sphere.Hex 16777215)
                             (of_Z 0) (of_Z 0)))
          (Some (Analyser 256 true)) (Some tt) (Some (new_Uint8Array 128))
          (of_Z 0) (of_Z 0))
       (Analyser 256 true) (new_Uint8Array 128)
       (Sphere.Mesh (of_Z 1, of_Z 1, of_Z 1) (Sphere.Hex 16777215) (of_Z 0) (of_Z 0))
       (Sphere.Camera (of_Z 75) (div (innerWidth E) (innerHeight E)) (of_Z 10))
       0)
    (HostState
       [EvSetSize (innerWidth E) (innerHeight E); EvAppendCanvas;
        EvAddMouseMoveListener; EvRequestAnimationFrame CbAnimate;
        EvUpdateProjectionMatrix; EvRender; EvHideStartButton]
       [CbAnimate] [] true true 1).
Proof.
  assert (Haudio : forall g h,
             Sphere.initAudio E (World g h) =
             (Ok tt,
              World (Sphere.set_frequencyData (Some (new_Uint8Array 128))
                       (Sphere.set_analyser (Some (Analyser 256 true))
                          (Sphere.set_analyser (Some createAnalyser)
                             (Sphere.set_audioContext (Some tt) g)))) h)).
  { intros g h. unfold Sphere.initAudio, bind, try_catch, getUserMedia.
    cbn [update globals host]. rewrite Hmic. reflexivity. }
  unfold Sphere.clicked, run_callback, Sphere.on_click, Sphere.world0.
  unfold bind at 1. rewrite Haudio. reflexivity.
Qed.

Lemma sphere_clicked_looping : sphere_looping (Sphere.clicked E).
Proof.
  rewrite sphere_clicked_granted. unfold sphere_looping, animated. cbn [globals host].
  split.
  - do 3 eexists. split.
    + unfold sphere_ready.
      cbn [Sphere.analyser Sphere.frequencyData Sphere.sphere Sphere.camera
           Sphere.renderer].
      repeat split; reflexivity.
    + rewrite copy_into_length. reflexivity.
  - repeat split; reflexivity.
Qed.

End SphereLoop.

(** In every session with a granted request the sphere page keeps its
    loop: 128 bins, [animate] the only pending callback and no timer,
    the button hidden, nothing thrown; the canvas was added once and
    the scene is rendered once per frame, the first time in the click
    itself. *)
Theorem sphere_loop_renders_once_per_frame :
  forall (num : Type) (N : JsNum num) (E : @env num) (inputs : list input),
    microphone E = Granted ->
    sphere_looping (Sphere.session E inputs) /\
    count is_render (trace (host (Sphere.session E inputs)))
    = (1 + frames inputs)%nat /\
    count is_canvas (trace (host (Sphere.session E inputs))) = 1%nat.
Proof.
  intros num N E inputs Hmic.
  destruct (looping_run E inputs (Sphere.clicked E) (sphere_clicked_looping E Hmic))
    as [Hloop [Hrender Hcanvas]].
  unfold Sphere.session. split; [exact Hloop|].
  rewrite Hrender, Hcanvas, (sphere_clicked_granted E Hmic).
  split; reflexivity.
Qed.

Lemma sphere_loop_renders_once_per_frame_witness :
  sphere_looping (Sphere.session (sample_env Granted x80)
                                 [Frame; MouseMove (Fin 400) (Fin 300); Frame]) /\
  count is_render
    (trace (host (Sphere.session (sample_env Granted x80)
                                 [Frame; MouseMove (Fin 400) (Fin 300); Frame])))
  = (1 + frames [Frame; MouseMove (Fin 400) (Fin 300); Frame])%nat /\
  count is_canvas
    (trace (host (Sphere.session (sample_env Granted x80)
                                 [Frame; MouseMove (Fin 400) (Fin 300); Frame])))
  = 1%nat.
Proof.
  apply (sphere_loop_renders_once_per_frame xnum exact (sample_env Granted x80)
           [Frame; MouseMove (Fin 400) (Fin 300); Frame]).
  reflexivity.
Defined.

(** ** The looks of the sphere *)

Section SphereLooks.
Variable E : @env xnum.

Lemma animated_looks (g : Sphere.globals_t) (a : analyser_node) (data : list byte)
      (s : Sphere.mesh) (c : Sphere.camera_t) (r : nat) (h : host_state) :
  (0 < List.length data)%nat ->
  Sphere.position_z c = Fin 10 ->
  sphere_looks_in_range (World (animated E g a data s c r) h).
Proof.
  intros Hlen Hz. unfold animated. cbv zeta.
  set (data' := copy_into data (resize (frequencyBinCount a) (spectrum E r))).
  assert (Hne : data' <> []).
  { apply nonempty_length. unfold data'. rewrite copy_into_length. exact Hlen. }
  destruct (getAverageFrequency_exact data' Hne) as [m [Hm Hq]].
  pose proof (arithmetic_mean_range data' Hne) as Hrange.
  rewrite <- Hq in Hrange. rewrite Hm.
  unfold sphere_looks_in_range. cbn [globals Sphere.sphere Sphere.camera].
  split.
  - eexists. exists (1 + m / 128), (m / 256).
    split; [reflexivity|]. cbn [Sphere.scale Sphere.color].
    split; [reflexivity|]. split; [|split; [reflexivity|]].
    + unfold Qdiv. change (/ 128) with (1 # 128). lra.
    + unfold Qdiv. change (/ 256) with (1 # 256). lra.
  - eexists. exists (750 + m * 0.01).
    split; [reflexivity|]. cbn [Sphere.fov Sphere.position_z].
    split; [reflexivity|]. split; [|exact Hz].
    unfold Qdiv. change (/ 100) with (1 # 100). lra.
Qed.

Lemma looks_step (w : world Sphere.globals_t) (i : input) :
  sphere_looping w -> sphere_looks_in_range w ->
  sphere_looks_in_range (step (Sphere.dispatch E) (Sphere.onMouseMove E) w i).
Proof.
  intros [[data [s [c [Hready Hlen]]]] [Hf [Ht [Hm _]]]] Hlooks.
  destruct i as [| |x y].
  - rewrite (frame_step_exact E w _ data s c Hready Hf).
    apply animated_looks; [lia|].
    destruct Hlooks as [_ [c' [f [Hc' [_ [_ Hz]]]]]].
    destruct Hready as [_ [_ [_ [Hc _]]]].
    rewrite Hc in Hc'. inversion Hc'; subst. exact Hz.
  - rewrite (timer_step_idle E w Ht). exact Hlooks.
  - rewrite (mouse_step_exact E w x y Hm).
    destruct w as [g h]. destruct g as [sc cam ren sph an ctx fd mx my].
    exact Hlooks.
Qed.

Lemma looks_run (inputs : list input) :
  forall w : world Sphere.globals_t,
    sphere_looping w -> sphere_looks_in_range w ->
    sphere_looks_in_range (run (Sphere.dispatch E) (Sphere.onMouseMove E) w inputs).
Proof.
  induction inputs as [|i rest IH]; intros w Hloop Hlooks; [exact Hlooks|].
  unfold run in *. cbn [fold_left]. apply IH.
  - exact (proj1 (looping_step E w i Hloop)).
  - apply looks_step; assumption.
Qed.

End SphereLooks.

(** In every session with a granted request the sphere is scaled
    uniformly by a factor between 1 and 383/128, coloured with a hue
    between 0 and 255/256 at saturation 1 and lightness 0.5, and seen
    from z = 10 through a field of view between 750 and 752.55
    degrees. *)
Theorem sphere_looks_stay_in_range :
  forall (E : @env xnum) (inputs : list input),
    microphone E = Granted ->
    sphere_looks_in_range (Sphere.session E inputs).
Proof.
  intros E inputs Hmic. unfold Sphere.session.
  apply looks_run; [exact (sphere_clicked_looping E Hmic)|].
  rewrite (sphere_clicked_granted E Hmic).
  apply animated_looks; [cbn; lia | reflexivity].
Qed.

Lemma sphere_looks_stay_in_range_witness :
  sphere_looks_in_range (Sphere.session (sample_env Granted xff) [Frame; Frame]).
Proof.
  apply (sphere_looks_stay_in_range (sample_env Granted xff) [Frame; Frame]).
  reflexivity.
Defined.

(** ** The pointer and the rotation *)

Lemma unit_interval (x W : Q) : 0 < W -> 0 <= x <= W -> 0 <= x / W <= 1.
Proof.
  intros HW [H0 H1]. split.
  - apply Qle_shift_div_l; [exact HW | lra].
  - apply Qle_shift_div_r; [exact HW | lra].
Qed.

(** [onMouseMove] stores the pointer as 2x/W - 1 and 1 - 2y/H
    and touches nothing else; inside a window of positive size both
    values lie in [-1, 1].  The divisions are not guarded: in a window
    of width 0 the stored x is NaN for a pointer at 0 and an infinity
    otherwise. *)
Theorem pointer_is_normalised :
  (forall (E : @env xnum) (g : Sphere.globals_t) (h : host_state) (W H x y : Q),
      innerWidth E = Fin W -> innerHeight E = Fin H ->
      0 < W -> 0 < H ->
      exists mx my,
        Sphere.onMouseMove E (Fin x) (Fin y) (World g h) =
        (Ok tt, World (Sphere.set_mouseY (Fin my) (Sphere.set_mouseX (Fin mx) g)) h) /\
        mx == 2 * x / W - 1 /\
        my == 1 - 2 * y / H /\
        (0 <= x <= W -> - (1) <= mx <= 1) /\
        (0 <= y <= H -> - (1) <= my <= 1)) /\
  (forall (E : @env xnum) (g : Sphere.globals_t) (h : host_state) (x : Q) (y : xnum),
      innerWidth E = Fin 0 ->
      exists w',
        Sphere.onMouseMove E (Fin x) y (World g h) = (Ok tt, w') /\
        Sphere.mouseX (globals w') =
        match (x ?= 0) with Eq => NaN | Gt => PInf | Lt => NInf end).
Proof.
  split.
  - intros E g h W H x y HW HH HWpos HHpos.
    exists (x / W * 2 - 1), (- (y / H) * 2 + 1).
    split; [|split; [|split; [|split]]].
    + unfold Sphere.onMouseMove, bind, update. cbn [globals host].
      rewrite HW, HH. cbn [div sub mul add neg of_Z exact].
      rewrite (xdiv_pos x W HWpos), (xdiv_pos y H HHpos). reflexivity.
    + field. intros H0. rewrite H0 in HWpos. apply (Qlt_irrefl 0), HWpos.
    + field. intros H0. rewrite H0 in HHpos. apply (Qlt_irrefl 0), HHpos.
    + intros Hx. pose proof (unit_interval x W HWpos Hx). lra.
    + intros Hy. pose proof (unit_interval y H HHpos Hy). lra.
  - intros E g h x y HW. eexists. split.
    + unfold Sphere.onMouseMove, bind, update. cbn [globals host]. reflexivity.
    + cbn [globals Sphere.mouseX Sphere.set_mouseX Sphere.set_mouseY].
      rewrite HW. cbn [div sub mul of_Z exact xdiv]. cbn [Qcompare].
      change (0 ?= 0) with Eq. cbn [signed_inf].
      destruct (x ?= 0); reflexivity.
Qed.

Lemma pointer_is_normalised_witness :
  exists mx my,
    Sphere.onMouseMove (sample_env Granted x00) (Fin 200) (Fin 600)
                       (World ready_globals ready_host) =
    (Ok tt,
     World (Sphere.set_mouseY (Fin my) (Sphere.set_mouseX (Fin mx) ready_globals))
           ready_host) /\
    mx == 2 * 200 / 800 - 1 /\
    my == 1 - 2 * 600 / 600 /\
    (0 <= 200 <= 800 -> - (1) <= mx <= 1) /\
    (0 <= 600 <= 600 -> - (1) <= my <= 1).
Proof.
  apply (proj1 pointer_is_normalised (sample_env Granted x00)
           ready_globals ready_host 800 600 200 600);
    try reflexivity.
Defined.

Section SphereTurn.
Variable E : @env xnum.
Variables W H : Q.
Hypothesis HW : innerWidth E = Fin W.
Hypothesis HH : innerHeight E = Fin H.
Hypothesis HWpos : 0 < W.
Hypothesis HHpos : 0 < H.

Lemma turn_step (w : world Sphere.globals_t) (i : input) :
  sphere_looping w -> inside_window W H i -> sphere_turn_in_range w ->
  sphere_turn_in_range (step (Sphere.dispatch E) (Sphere.onMouseMove E) w i).
Proof.
  intros [[data [s [c [Hready Hlen]]]] [Hf [Ht [Hm _]]]] Hin
         [s' [mx [my [rx [ry [Hs [Hmx [Hmy [Hrx [Hry [Bmx [Bmy [Brx Bry]]]]]]]]]]]]].
  assert (s' = s).
  { destruct Hready as [_ [_ [Hs0 _]]]. rewrite Hs0 in Hs. inversion Hs. reflexivity. }
  subst s'.
  destruct i as [| |x y].
  - rewrite (frame_step_exact E w _ data s c Hready Hf).
    unfold sphere_turn_in_range, animated.
    cbn [globals Sphere.sphere Sphere.mouseX Sphere.mouseY].
    eexists. exists mx, my, (rx + (my - rx) * easing), (ry + (mx - ry) * easing).
    split; [reflexivity|]. split; [exact Hmx|]. split; [exact Hmy|].
    cbn [Sphere.rotation_x Sphere.rotation_y].
    rewrite Hmx, Hmy, Hrx, Hry.
    split; [reflexivity|]. split; [reflexivity|].
    unfold easing. repeat split; lra.
  - rewrite (timer_step_idle E w Ht).
    exists s, mx, my, rx, ry. repeat split; assumption || lra.
  - destruct x as [x| | |]; destruct y as [y| | |]; try contradiction.
    destruct Hin as [Hx Hy].
    rewrite (mouse_step_exact E w (Fin x) (Fin y) Hm).
    rewrite HW, HH. cbn [div sub mul add neg of_Z exact].
    rewrite (xdiv_pos x W HWpos), (xdiv_pos y H HHpos).
    pose proof (unit_interval x W HWpos Hx) as Ht'.
    pose proof (unit_interval y H HHpos Hy) as Hu'.
    remember (x / W) as t eqn:Et. remember (y / H) as u eqn:Eu.
    clear Et Eu.
    destruct w as [g h]. destruct g as [sc cam ren sph an ctx fd gx gy].
    cbn in Hs. subst sph.
    exists s, (t * 2 - 1), (- u * 2 + 1), rx, ry.
    split; [reflexivity|]. split; [reflexivity|]. split; [reflexivity|].
    split; [exact Hrx|]. split; [exact Hry|].
    repeat split; lra.
Qed.

Lemma turn_run (inputs : list input) :
  forall w : world Sphere.globals_t,
    sphere_looping w -> Forall (inside_window W H) inputs ->
    sphere_turn_in_range w ->
    sphere_turn_in_range (run (Sphere.dispatch E) (Sphere.onMouseMove E) w inputs).
Proof.
  induction inputs as [|i rest IH]; intros w Hloop Hin Hturn; [exact Hturn|].
  inversion Hin as [|? ? Hi Hrest]; subst.
  unfold run in *. cbn [fold_left]. apply IH.
  - exact (proj1 (looping_step E w i Hloop)).
  - exact Hrest.
  - apply turn_step; assumption.
Qed.

End SphereTurn.

(** In a window of positive size, as long as every pointer event lies
    inside the window, the pointer target and both rotations stay in
    [-1, 1]: the sphere never turns by more than one radian about either
    axis. *)
Theorem sphere_rotation_stays_within_one :
  forall (E : @env xnum) (W H : Q) (inputs : list input),
    microphone E = Granted ->
    innerWidth E = Fin W -> innerHeight E = Fin H ->
    0 < W -> 0 < H ->
    Forall (inside_window W H) inputs ->
    sphere_turn_in_range (Sphere.session E inputs).
Proof.
  intros E W H inputs Hmic HW HH HWpos HHpos Hin. unfold Sphere.session.
  apply (turn_run E W H HW HH HWpos HHpos inputs);
    [exact (sphere_clicked_looping E Hmic) | exact Hin |].
  rewrite (sphere_clicked_granted E Hmic).
  unfold sphere_turn_in_range, animated.
  cbn [globals Sphere.sphere Sphere.mouseX Sphere.mouseY].
  eexists. exists 0, 0, (0 + (0 - 0) * easing), (0 + (0 - 0) * easing).
  split; [reflexivity|]. split; [reflexivity|]. split; [reflexivity|].
  split; [reflexivity|]. split; [reflexivity|].
  unfold easing. repeat split; lra.
Qed.

Lemma sphere_rotation_stays_within_one_witness :
  sphere_turn_in_range
    (Sphere.session (sample_env Granted x80)
                    [MouseMove (Fin 800) (Fin 0); Frame; Frame]).
Proof.
  apply (sphere_rotation_stays_within_one (sample_env Granted x80) 800 600
           [MouseMove (Fin 800) (Fin 0); Frame; Frame]);
    try reflexivity.
  repeat constructor; cbn; lra.
Defined.

(** ** A window of width zero *)

Lemma ease_from_NaN (m : xnum) :
  add NaN (mul (sub m NaN) (decimal 0.05)) = NaN.
Proof. destruct m; reflexivity. Qed.

Lemma ease_twice_poisoned (r m : xnum) :
  m = NaN \/ m = PInf \/ m = NInf ->
  add (add r (mul (sub m r) (decimal 0.05)))
      (mul (sub m (add r (mul (sub m r) (decimal 0.05)))) (decimal 0.05)) = NaN.
Proof.
  intros [-> | [-> | ->]]; destruct r; reflexivity.
Qed.

Section ZeroWidth.
Variable E : @env xnum.

Lemma nan_step (w : world Sphere.globals_t) (i : input) (s : Sphere.mesh) :
  sphere_looping w ->
  Sphere.sphere (globals w) = Some s ->
  Sphere.rotation_y s = NaN ->
  exists s',
    Sphere.sphere (globals (step (Sphere.dispatch E) (Sphere.onMouseMove E) w i))
    = Some s' /\
    Sphere.rotation_y s' = NaN.
Proof.
  intros [[data [s0 [c [Hready Hlen]]]] [Hf [Ht [Hm _]]]] Hs Hnan.
  assert (s0 = s).
  { destruct Hready as [_ [_ [Hs0 _]]]. rewrite Hs0 in Hs. inversion Hs. reflexivity. }
  subst s0.
  destruct i as [| |x y].
  - rewrite (frame_step_exact E w _ data s c Hready Hf).
    unfold animated. cbn [globals Sphere.sphere].
    eexists. split; [reflexivity|]. cbn [Sphere.rotation_y].
    rewrite Hnan. apply ease_from_NaN.
  - rewrite (timer_step_idle E w Ht). exists s. split; assumption.
  - rewrite (mouse_step_exact E w x y Hm).
    destruct w as [g h]. destruct g as [sc cam ren sph an ctx fd gx gy].
    exists s. split; assumption.
Qed.

Lemma nan_run (inputs : list input) :
  forall (w : world Sphere.globals_t) (s : Sphere.mesh),
    sphere_looping w ->
    Sphere.sphere (globals w) = Some s ->
    Sphere.rotation_y s = NaN ->
    exists s',
      Sphere.sphere (globals (run (Sphere.dispatch E) (Sphere.onMouseMove E) w inputs))
      = Some s' /\
      Sphere.rotation_y s' = NaN.
Proof.
  induction inputs as [|i rest IH]; intros w s Hloop Hs Hnan.
  - exists s. split; assumption.
  - destruct (nan_step w i s Hloop Hs Hnan) as [s' [Hs' Hnan']].
    unfold run in *. cbn [fold_left].
    apply (IH _ s'); [|assumption|assumption].
    exact (proj1 (looping_step E w i Hloop)).
Qed.

Hypothesis Hmic : microphone E = Granted.
Hypothesis HW : innerWidth E = Fin 0.

(** A pointer event in a window of width 0, then two frames. *)
Lemma poisoned_after_two_frames (w : world Sphere.globals_t) (x : Q) (y : xnum) :
  sphere_looping w ->
  exists s,
    Sphere.sphere
      (globals (run (Sphere.dispatch E) (Sphere.onMouseMove E) w
                    [MouseMove (Fin x) y; Frame; Frame])) = Some s /\
    Sphere.rotation_y s = NaN.
Proof.
  intros Hloop.
  pose proof (proj1 (looping_step E w (MouseMove (Fin x) y) Hloop)) as Hloop1.
  destruct Hloop as [[data [s [c [Hready Hlen]]]] [Hf [Ht [Hm _]]]].
  unfold run. cbn [fold_left].
  set (w1 := step (Sphere.dispatch E) (Sphere.onMouseMove E) w (MouseMove (Fin x) y)) in *.
  assert (Hbad : Sphere.mouseX (globals w1) = NaN \/
                 Sphere.mouseX (globals w1) = PInf \/
                 Sphere.mouseX (globals w1) = NInf).
  { unfold w1. rewrite (mouse_step_exact E w (Fin x) y Hm).
    cbn [globals Sphere.mouseX Sphere.set_mouseX Sphere.set_mouseY].
    rewrite HW. cbn [div sub mul of_Z exact xdiv]. cbn [Qcompare].
    change (0 ?= 0) with Eq. cbn [signed_inf].
    destruct (x ?= 0); cbn; auto. }
  pose proof (proj1 (looping_step E w1 Frame Hloop1)) as Hloop2.
  destruct Hloop1 as [[data1 [s1 [c1 [Hready1 Hlen1]]]] [Hf1 _]].
  destruct Hloop2 as [[data2 [s2 [c2 [Hready2 Hlen2]]]] [Hf2 _]].
  rewrite (frame_step_exact E _ _ data2 s2 c2 Hready2 Hf2).
  unfold animated at 1. cbn [globals Sphere.sphere].
  eexists. split; [reflexivity|]. cbn [Sphere.rotation_y].
  assert (Hs2 : Sphere.rotation_y s2 =
                add (Sphere.rotation_y s1)
                    (mul (sub (Sphere.mouseX (globals w1)) (Sphere.rotation_y s1))
                         (decimal 0.05)) /\
                Sphere.mouseX (globals (step (Sphere.dispatch E) (Sphere.onMouseMove E) w1 Frame))
                = Sphere.mouseX (globals w1)).
  { destruct Hready2 as [_ [_ [Hsph2 _]]].
    rewrite (frame_step_exact E w1 _ data1 s1 c1 Hready1 Hf1) in Hsph2 |- *.
    unfold animated in Hsph2 |- *. cbn [globals Sphere.sphere Sphere.mouseX] in Hsph2 |- *.
    inversion Hsph2. split; reflexivity. }
  destruct Hs2 as [Hrot Hmx]. rewrite Hmx, Hrot.
  apply ease_twice_poisoned, Hbad.
Qed.

End ZeroWidth.

(** The division by the window width is not guarded, and its result
    does not go away: in a window of width 0, after any pointer event
    and two frames, [rotation.y] is NaN, and it is NaN after every
    later input, wherever the pointer goes. *)
Theorem zero_width_window_makes_rotation_NaN_for_good :
  forall (E : @env xnum) (before after : list input) (x : Q) (y : xnum),
    microphone E = Granted ->
    innerWidth E = Fin 0 ->
    exists s,
      Sphere.sphere
        (globals (Sphere.session E
                    (before ++ MouseMove (Fin x) y :: Frame :: Frame :: after)))
      = Some s /\
      Sphere.rotation_y s = NaN.
Proof.
  intros E before after x y Hmic HW.
  unfold Sphere.session, run.
  rewrite fold_left_app.
  change (MouseMove (Fin x) y :: Frame :: Frame :: after)
    with ([MouseMove (Fin x) y; Frame; Frame] ++ after).
  rewrite fold_left_app.
  fold (run (Sphere.dispatch E) (Sphere.onMouseMove E) (Sphere.clicked E) before).
  set (w := run (Sphere.dispatch E) (Sphere.onMouseMove E) (Sphere.clicked E) before).
  assert (Hloop : sphere_looping w).
  { exact (proj1 (looping_run E before _ (sphere_clicked_looping E Hmic))). }
  destruct (poisoned_after_two_frames E HW w x y Hloop) as [s [Hs Hnan]].
  fold (run (Sphere.dispatch E) (Sphere.onMouseMove E) w
            [MouseMove (Fin x) y; Frame; Frame]).
  set (w3 := run (Sphere.dispatch E) (Sphere.onMouseMove E) w
                 [MouseMove (Fin x) y; Frame; Frame]) in *.
  assert (Hloop3 : sphere_looping w3).
  { exact (proj1 (looping_run E _ w Hloop)). }
  exact (nan_run E after w3 s Hloop3 Hs Hnan).
Qed.

Lemma zero_width_window_makes_rotation_NaN_for_good_witness :
  exists s,
    Sphere.sphere
      (globals (Sphere.session zero_width_env
                  ([Frame] ++ MouseMove (Fin 3) (Fin 4) :: Frame :: Frame
                           :: [MouseMove (Fin 0) (Fin 0); Frame])))
    = Some s /\
    Sphere.rotation_y s = NaN.
Proof.
  apply (zero_width_window_makes_rotation_NaN_for_good zero_width_env
           [Frame] [MouseMove (Fin 0) (Fin 0); Frame] 3 (Fin 4));
    reflexivity.
Defined.

(** ** Clicking again after a rejection *)

Section PileUp.
Context {num : Type} {N : JsNum num}.
Variable E : @env num.
Variable e : mic_error.
Hypothesis Hmic : microphone E = Rejected e.

Lemma repeat_snoc (A : Type) (x : A) (n : nat) : repeat x n ++ [x] = repeat x (S n).
Proof.
  induction n as [|n IH]; [reflexivity|].
  cbn [repeat app]. rewrite IH. reflexivity.
Qed.

(** Running [k] pending [animate] callbacks on a page without snapshot
    array: each one is queued again and throws. *)
Lemma run_stalled_callbacks (k : nat) :
  forall (g : Sphere.globals_t) (h : host_state) (a : analyser_node),
    Sphere.analyser g = Some a ->
    Sphere.frequencyData g = None ->
    exists h',
      run_all (Sphere.dispatch E) (repeat CbAnimate k) (World g h) = World g h' /\
      frame_queue h' = frame_queue h ++ repeat CbAnimate k /\
      timer_queue h' = timer_queue h /\
      button_hidden h' = button_hidden h /\
      diagnostics (trace h') = diagnostics (trace h) /\
      count is_canvas (trace h') = count is_canvas (trace h) /\
      count is_render (trace h') = count is_render (trace h).
Proof.
  induction k as [|k IH]; intros g h a Ha Hd.
  - exists h. split; [reflexivity|]. rewrite app_nil_r. repeat split; reflexivity.
  - unfold run_all in *. cbn [repeat fold_left Sphere.dispatch].
    unfold run_callback at 2. rewrite (animate_without_data E g h a Ha Hd).
    cbn [snd emit update_host globals host].
    destruct (IH g (record_event
                      (EvUncaught (TypeError "parameter 1 is not of type 'Uint8Array'"))
                      (enqueue_frame CbAnimate
                         (record_event (EvRequestAnimationFrame CbAnimate) h)))
                 a Ha Hd) as [h' [Hrun [Hf [Ht [Hb [Hdg [Hc Hr]]]]]]].
    exists h'. split; [exact Hrun|].
    rewrite Hf, Ht, Hb, Hdg, Hc, Hr. host_simpl.
    split; [rewrite <- app_assoc; reflexivity|].
    split; [reflexivity|]. split; [reflexivity|].
    unfold diagnostics. rewrite !count_app. cbn. repeat split; lia.
Qed.

Lemma click_piles_up (c : nat) (w : world Sphere.globals_t) :
  piled_up c w -> piled_up (S c) (run_callback (Sphere.on_click E) w).
Proof.
  intros [Hf [Ht [Hb [Hdg [Hc [Hr [Hd _]]]]]]].
  destruct w as [g h]. cbn [globals host] in *.
  unfold run_callback, Sphere.on_click.
  unfold bind at 1. rewrite (initAudio_rejected E e Hmic).
  destruct g as [sc cam ren sph an ctx fd mx my]. cbn in Hd. subst fd.
  unfold piled_up. cbn -[count diagnostics repeat].
  rewrite Hf, Ht, Hb, (repeat_snoc _ CbAnimate c).
  split; [reflexivity|]. split; [reflexivity|]. split; [reflexivity|].
  unfold diagnostics in *. rewrite !count_app, Hdg, Hc, Hr. cbn.
  split; [lia|]. split; [lia|]. split; [lia|]. split; [reflexivity|].
  intros _. eexists. reflexivity.
Qed.

Lemma input_keeps_pile (c : nat) (w : world Sphere.globals_t) (i : input) :
  piled_up c w ->
  piled_up c (step (Sphere.dispatch E) (Sphere.onMouseMove E) w i).
Proof.
  intros [Hf [Ht [Hb [Hdg [Hc [Hr [Hd Ha]]]]]]].
  destruct w as [g h]. cbn [globals host] in *.
  destruct i as [| |x y]; cbn [step host globals].
  - rewrite Hf. destruct c as [|c].
    + cbn [repeat run_all fold_left]. unfold run_all. cbn [fold_left].
      unfold piled_up. host_simpl.
      repeat split; try assumption; try reflexivity.
    + destruct (Ha (le_n_S _ _ (Nat.le_0_l c))) as [a Ha'].
      destruct (run_stalled_callbacks (S c) g (take_frames h) a Ha' Hd)
        as [h' [Hrun [Hf' [Ht' [Hb' [Hdg' [Hc' Hr']]]]]]].
      rewrite Hrun. unfold piled_up. cbn [globals host].
      rewrite Hf', Ht', Hb', Hdg', Hc', Hr'. host_simpl.
      repeat split; try assumption; try reflexivity.
  - rewrite Ht. unfold run_all. cbn [map fold_left].
    unfold piled_up. host_simpl. repeat split; assumption.
  - destruct (mouse_listener h).
    + destruct g as [sc cam ren sph an ctx fd mx my].
      unfold piled_up. cbn in *. repeat split; assumption.
    + unfold piled_up. cbn [globals host]. repeat split; assumption.
Qed.

Lemma visit_piles_up (visit : list user_input) :
  forall (c : nat) (w : world Sphere.globals_t),
    piled_up c w ->
    piled_up (c + clicks visit) (fold_left (sphere_act E) visit w).
Proof.
  induction visit as [|u rest IH]; intros c w Hw.
  - cbn. rewrite Nat.add_0_r. exact Hw.
  - cbn [fold_left]. destruct u as [|i]; cbn [sphere_act].
    + replace (c + clicks (UClick :: rest))%nat with (S c + clicks rest)%nat
        by (unfold clicks; cbn; lia).
      apply IH, click_piles_up, Hw.
    + replace (c + clicks (UHost i :: rest))%nat with (c + clicks rest)%nat
        by (unfold clicks; cbn; lia).
      apply IH, input_keeps_pile, Hw.
Qed.

End PileUp.

(** While every request is rejected the start button stays shown, and
    each further click adds one more diagnostic, one more canvas and one
    more pending [animate] callback, whatever frames, timers and
    pointer events come in between; nothing is ever rendered. *)
Theorem rejected_clicks_pile_up :
  forall (num : Type) (N : JsNum num) (E : @env num) (e : mic_error)
         (visit : list user_input),
    microphone E = Rejected e ->
    piled_up (clicks visit) (sphere_visit E visit).
Proof.
  intros num N E e visit Hmic. unfold sphere_visit.
  apply (visit_piles_up E e Hmic visit 0 Sphere.world0).
  unfold piled_up. cbn. repeat split; try reflexivity.
  intros Hc. inversion Hc.
Qed.

Lemma rejected_clicks_pile_up_witness :
  piled_up (@clicks xnum [UClick; UHost Frame; UClick; UHost Frame])
           (sphere_visit rejecting_env [UClick; UHost Frame; UClick; UHost Frame]).
Proof.
  apply (rejected_clicks_pile_up xnum exact rejecting_env NotAllowedError
           [UClick; UHost Frame; UClick; UHost Frame]).
  reflexivity.
Defined.

(** ** Before the click, and the guard of [animate] *)


(** After a click [analyser] is defined whatever the answer to the
    request, so the guard [if (analyser)] of [animate] is taken on every
    frame; the snapshot array [frequencyData] is defined exactly when
    the request was granted. *)
Theorem analyser_guard_is_always_taken :
  forall (num : Type) (N : JsNum num) (E : @env num) (inputs : list input),
    (exists a, Sphere.analyser (globals (Sphere.session E inputs)) = Some a) /\
    ((exists data, Sphere.frequencyData (globals (Sphere.session E inputs)) = Some data)
     <-> microphone E = Granted).
Proof.
  intros num N E inputs. destruct (microphone E) as [|e] eqn:Hmic.
  - destruct (looping_run E inputs (Sphere.clicked E) (sphere_clicked_looping E Hmic))
      as [[[data [s [c [[Ha [Hd _]] _]]]] _] _].
    unfold Sphere.session. split; [eexists; exact Ha|].
    split; [reflexivity|]. intros _. exists data. exact Hd.
  - destruct (sphere_session_rejected E e Hmic inputs) as [[a Ha] [Hd _]].
    split; [exists a; exact Ha|].
    split; [|discriminate]. intros [data Hdata]. rewrite Hd in Hdata. discriminate.
Qed.

(** ** The rose tick, event by event *)

Section RoseExact.
Context {num : Type} {N : JsNum num}.
Variable E : @env num.

Lemma petal_exact (color : hsl) (i : nat) (g : Rose.globals_t) (h : host_state) :
  Rose.petal E color i (World g h) =
  (Ok tt,
   World g (record_event (petal_event E color (Rose.volume g) (reads h) i)
              (consume (consume (consume (consume h)))))).
Proof. reflexivity. Qed.

Lemma for_each_petal_exact (color : hsl) (indices : list nat) :
  forall (g : Rose.globals_t) (h : host_state),
    Rose.for_each (Rose.petal E color) indices (World g h) =
    (Ok tt,
     World g (HostState
                (trace h ++ petal_events E color (Rose.volume g) (reads h) indices)
                (frame_queue h) (timer_queue h) (button_hidden h)
                (mouse_listener h) (reads h + 4 * List.length indices))).
Proof.
  induction indices as [|i rest IH]; intros g h.
  - destruct h as [tr fq tq bh ml rd]. cbn. rewrite app_nil_r, Nat.add_0_r.
    reflexivity.
  - cbn [Rose.for_each]. unfold bind. rewrite petal_exact. rewrite IH.
    destruct h as [tr fq tq bh ml rd]. host_simpl.
    cbn [petal_events List.length]. rewrite <- app_assoc. cbn [app].
    do 3 f_equal. lia.
Qed.

Lemma drawAnimation_exact (g : Rose.globals_t) (h : host_state) (a : analyser_node) :
  Rose.analyser g = Some a ->
  let volume := div (getAverageFrequency
                       (fresh_snapshot (spectrum E) a (S (reads h)))) (of_Z 128) in
  let delay := sub (of_Z 10) (mul volume (of_Z 900)) in
  Rose.drawAnimation E (World g h) =
  (Ok tt,
   World (Rose.Globals (Rose.audioContext g) (Some a) volume (now E (reads h)))
         (HostState (trace h ++ tick_events E a (reads h))
                    (frame_queue h)
                    (timer_queue h ++ [(CbRequestDraw, timer_delay delay)])
                    (button_hidden h) (mouse_listener h) (reads h + 43))).
Proof.
  intros Ha. cbv zeta. destruct g as [ctx an vol last]. cbn in Ha. subst an.
  set (vol' := div (getAverageFrequency
                      (fresh_snapshot (spectrum E) a (S (reads h)))) (of_Z 128)).
  set (g' := Rose.Globals ctx (Some a) vol' (now E (reads h))).
  set (h0 := consume (consume (record_event EvClearRect (consume h)))).
  set (color := getPitchColor
                  (fresh_snapshot (waveform E) a (S (S (reads h))))).
  assert (Hsplit :
      Rose.drawAnimation E (World (Rose.Globals ctx (Some a) vol last) h) =
      bind (Rose.drawRose E color) (fun _ =>
        bind (Rose.drawCenterObject color) (fun _ =>
          bind get_globals (fun g =>
            setTimeout CbRequestDraw
              (sub (of_Z 10) (mul (Rose.volume g) (of_Z 900))))))
        (World g' h0)) by reflexivity.
  rewrite Hsplit. unfold bind at 1. unfold Rose.drawRose.
  rewrite for_each_petal_exact.
  unfold h0, g', tick_events. fold vol'. fold color.
  destruct h as [tr fq tq bh ml rd].
  cbn -[petal_events timer_delay Nat.add Nat.mul].
  unfold update_host, enqueue_timer, record_event.
  cbn [globals host trace frame_queue timer_queue button_hidden mouse_listener reads].
  rewrite <- !app_assoc. cbn [app].
  replace (S (S (S rd)) + 4 * 10)%nat with (rd + 43)%nat by lia.
  reflexivity.
Qed.

End RoseExact.

(** ** The rose loop *)

Lemma count_cons {num : Type} (p : @event num -> bool) (e : @event num)
      (l : list (@event num)) :
  count p (e :: l) = ((if p e then 1 else 0) + count p l)%nat.
Proof. unfold count. cbn [filter]. destruct (p e); reflexivity. Qed.

Section RoseLoop.
Context {num : Type} {N : JsNum num}.
Variable E : @env num.

Lemma count_petal_events (p : event -> bool) (b : bool) (color : hsl) (vol : num) :
  (forall t r1 r2 r3 r4 c, p (EvPetal t r1 r2 r3 r4 c) = b) ->
  forall (indices : list nat) (r : nat),
    count p (petal_events E color vol r indices)
    = if b then List.length indices else 0%nat.
Proof.
  intros Hp. induction indices as [|i rest IH]; intros r.
  - destruct b; reflexivity.
  - cbn [petal_events]. rewrite count_cons. unfold petal_event at 1.
    rewrite Hp, IH. destruct b; reflexivity.
Qed.

Lemma tick_counts (a : analyser_node) (r : nat) :
  count is_clear (tick_events E a r) = 1%nat /\
  count is_petal (tick_events E a r) = 10%nat /\
  count is_center (tick_events E a r) = 1%nat /\
  count is_timeout (tick_events E a r) = 1%nat /\
  uncaught (tick_events E a r) = 0%nat /\
  diagnostics (tick_events E a r) = 0%nat /\
  count is_frame_request (tick_events E a r) = 0%nat.
Proof.
  unfold tick_events, uncaught, diagnostics. cbv zeta.
  rewrite !count_cons, !count_app.
  rewrite (count_petal_events is_clear false) by reflexivity.
  rewrite (count_petal_events is_petal true) by reflexivity.
  rewrite (count_petal_events is_center false) by reflexivity.
  rewrite (count_petal_events is_timeout false) by reflexivity.
  rewrite (count_petal_events is_uncaught false) by reflexivity.
  rewrite (count_petal_events is_diagnostic false) by reflexivity.
  rewrite (count_petal_events is_frame_request false) by reflexivity.
  repeat split; reflexivity.
Qed.

(** One [drawAnimation] on a page with nothing pending: afterwards its
    timer is the one pending callback, and the trace has grown by one
    cleared canvas, ten petals, one centre disk and one timer. *)
Lemma looping_tick (g : Rose.globals_t) (h : host_state) :
  Rose.analyser g = Some (Analyser 2048 true) ->
  frame_queue h = [] -> timer_queue h = [] ->
  button_hidden h = true -> mouse_listener h = false ->
  uncaught (trace h) = 0%nat -> diagnostics (trace h) = 0%nat ->
  count is_petal (trace h) = (10 * count is_clear (trace h))%nat ->
  count is_center (trace h) = count is_clear (trace h) ->
  count is_timeout (trace h) = count is_clear (trace h) ->
  rose_looping (run_callback (Rose.drawAnimation E) (World g h)) /\
  count is_clear (trace (host (run_callback (Rose.drawAnimation E) (World g h))))
  = S (count is_clear (trace h)).
Proof.
  intros Ha Hf Hq Hb Hm Hu Hd Hp Hc Ht.
  pose proof (drawAnimation_exact E g h _ Ha) as Hrun. cbv zeta in Hrun.
  unfold run_callback. rewrite Hrun.
  destruct (tick_counts (Analyser 2048 true) (reads h))
    as [Tc [Tp [Tz [Tt [Tu [Td _]]]]]].
  unfold rose_looping. cbn [globals host Rose.analyser].
  host_simpl. rewrite Hf, Hq.
  unfold uncaught, diagnostics in *.
  rewrite !count_app, Hu, Hd, Hp, Hc, Ht, Tc, Tp, Tz, Tt, Tu, Td.
  split; [|lia].
  split; [reflexivity|]. split; [left; split; reflexivity|].
  split; [exact Hb|]. split; [exact Hm|].
  repeat split; lia.
Qed.

(** Every input keeps the rose loop as it is; only a frame can start a
    tick, and it starts at most one. *)
Lemma rose_looping_step (w : world Rose.globals_t) (i : input) :
  rose_looping w ->
  rose_looping (step (Rose.dispatch E) Rose.no_mouse w i) /\
  (count is_clear (trace (host (step (Rose.dispatch E) Rose.no_mouse w i)))
   <= count is_clear (trace (host w)) + frames [i])%nat.
Proof.
  intros Hw. pose proof Hw as [Ha [Hq [Hb [Hm [Hu [Hd [Hp [Hc Ht]]]]]]]].
  destruct w as [g h]. cbn [globals host] in *.
  destruct i as [| |x y]; cbn [step host globals].
  - destruct Hq as [[Hf Htq] | [Hf Htq]]; rewrite Hf.
    + unfold run_all. cbn [fold_left]. split; [|host_simpl; apply Nat.le_add_r].
      unfold rose_looping. host_simpl. cbn [globals].
      split; [exact Ha|]. split; [left; split; [reflexivity | exact Htq]|].
      repeat split; assumption.
    + unfold run_all. cbn [fold_left Rose.dispatch].
      destruct (looping_tick g (take_frames h) Ha eq_refl Htq Hb Hm Hu Hd Hp Hc Ht)
        as [Hloop Hclear].
      split; [exact Hloop|]. rewrite Hclear. host_simpl.
      unfold frames. cbn [filter List.length]. lia.
  - destruct Hq as [[Hf Htq] | [Hf Htq]].
    + destruct (timer_queue h) as [|[cb d] [|? ?]] eqn:Hqueue;
        try discriminate Htq.
      cbn in Htq. inversion Htq; subst cb.
      unfold run_all. cbn [map fst fold_left Rose.dispatch].
      unfold run_callback, requestAnimationFrame, bind, emit, update_host.
      cbn [globals host].
      split; [|host_simpl; rewrite count_app, count_cons; cbn [is_clear];
               unfold count at 2; cbn [filter List.length]; lia].
      unfold rose_looping. host_simpl. cbn [globals]. rewrite Hf.
      split; [exact Ha|]. split; [right; split; reflexivity|].
      split; [exact Hb|]. split; [exact Hm|].
      unfold uncaught, diagnostics in *.
      rewrite !count_app, Hu, Hd, Hp, Hc, Ht. cbn. repeat split; lia.
    + rewrite Htq. unfold run_all. cbn [map fold_left].
      split; [|host_simpl; apply Nat.le_add_r].
      unfold rose_looping. host_simpl. cbn [globals].
      split; [exact Ha|]. split; [right; split; [exact Hf | reflexivity]|].
      repeat split; assumption.
  - rewrite Hm. split; [exact Hw | apply Nat.le_add_r].
Qed.

Lemma rose_looping_run (inputs : list input) :
  forall w : world Rose.globals_t,
    rose_looping w ->
    rose_looping (run (Rose.dispatch E) Rose.no_mouse w inputs) /\
    (count is_clear (trace (host (run (Rose.dispatch E) Rose.no_mouse w inputs)))
     <= count is_clear (trace (host w)) + frames inputs)%nat.
Proof.
  induction inputs as [|i rest IH]; intros w Hw.
  - cbn. split; [exact Hw | lia].
  - destruct (rose_looping_step w i Hw) as [Hw' Hc].
    destruct (IH _ Hw') as [Hw'' Hc'].
    unfold run in *. cbn [fold_left]. split; [exact Hw''|].
    assert (Hfr : frames (i :: rest) = (frames [i] + frames rest)%nat).
    { unfold frames. cbn [filter]. destruct i; cbn [List.length filter]; lia. }
    rewrite Hfr. lia.
Qed.

Hypothesis Hmic : microphone E = Granted.

Lemma rose_clicked_looping :
  rose_looping (Rose.clicked E) /\
  count is_clear (trace (host (Rose.clicked E))) = 1%nat.
Proof.
  unfold Rose.clicked, Rose.settle. rewrite Hmic.
  set (w1 := run_callback Rose.on_click Rose.world0).
  set (g2 := Rose.Globals (Some tt) (Some (Analyser 2048 true))
                          (of_Z 0) (now E 0%nat)).
  assert (Hsplit : Rose.on_stream E w1 =
                   Rose.drawAnimation E (World g2 (consume (host w1)))).
  { unfold Rose.on_stream, bind. cbn [get_globals]. reflexivity. }
  assert (Hrun : run_callback (Rose.on_stream E) w1 =
                 run_callback (Rose.drawAnimation E)
                   (World g2 (consume (host w1)))).
  { unfold run_callback. rewrite Hsplit. reflexivity. }
  rewrite Hrun.
  destruct (looping_tick g2 (consume (host w1)))
    as [Hloop Hclear]; try reflexivity.
  split; [exact Hloop | exact Hclear].
Qed.

End RoseLoop.

Lemma rose_loop_looping_aux {num : Type} {N : JsNum num} (E : @env num)
      (inputs : list input) :
  microphone E = Granted ->
  button_hidden (host (Rose.session E inputs)) = true /\
  mouse_listener (host (Rose.session E inputs)) = false.
Proof.
  intros Hmic.
  destruct (rose_clicked_looping E Hmic) as [Hloop _].
  destruct (rose_looping_run E inputs (Rose.clicked E) Hloop)
    as [[_ [_ [Hb [Hm _]]]] _].
  split; assumption.
Qed.

(** In every session with a granted request the rose page keeps its
    loop: exactly one callback is pending at any time (the timer of the
    last tick, or the frame request that timer turned into), nothing is
    thrown or logged, and every tick clears the canvas once and draws
    ten petals and one centre disk before setting its timer.  Ticks are
    started by frames only: however negative the delays, there are at
    most as many ticks as frames, plus the one of the click. *)
Theorem rose_loop_one_tick_per_frame_at_most :
  forall (num : Type) (N : JsNum num) (E : @env num) (inputs : list input),
    microphone E = Granted ->
    rose_looping (Rose.session E inputs) /\
    (count is_clear (trace (host (Rose.session E inputs))) <= 1 + frames inputs)%nat.
Proof.
  intros num N E inputs Hmic.
  destruct (rose_clicked_looping E Hmic) as [Hloop Hone].
  destruct (rose_looping_run E inputs (Rose.clicked E) Hloop) as [Hrun Hle].
  unfold Rose.session. split; [exact Hrun|]. rewrite Hone in Hle. exact Hle.
Qed.

Lemma rose_loop_one_tick_per_frame_at_most_witness :
  rose_looping (Rose.session (sample_env Granted xff) [TimerFires; Frame; Frame]) /\
  (count is_clear
     (trace (host (Rose.session (sample_env Granted xff) [TimerFires; Frame; Frame])))
   <= 1 + frames [TimerFires; Frame; @Frame xnum])%nat.
Proof.
  apply (rose_loop_one_tick_per_frame_at_most xnum exact (sample_env Granted xff)
           [TimerFires; Frame; Frame]).
  reflexivity.
Defined.

(** The rose hides its start button in the click itself, before the
    request is answered: the button is hidden in every session, granted
    or rejected.  The page never listens to the pointer, so pointer
    events never change it. *)
Theorem rose_button_always_hidden_pointer_ignored :
  forall (num : Type) (N : JsNum num) (E : @env num) (inputs : list input),
    button_hidden (host (Rose.session E inputs)) = true /\
    mouse_listener (host (Rose.session E inputs)) = false /\
    forall x y : num,
      step (Rose.dispatch E) Rose.no_mouse (Rose.session E inputs) (MouseMove x y)
      = Rose.session E inputs.
Proof.
  intros num N E inputs.
  assert (H : button_hidden (host (Rose.session E inputs)) = true /\
              mouse_listener (host (Rose.session E inputs)) = false).
  { destruct (microphone E) as [|e] eqn:Hmic.
    - destruct (rose_loop_looping_aux E inputs Hmic) as [Hb Hm]. split; assumption.
    - destruct (rose_session_rejected E e Hmic inputs) as [_ [_ [_ [Hm Hb]]]].
      split; assumption. }
  destruct H as [Hb Hm]. split; [exact Hb|]. split; [exact Hm|].
  intros x y. cbn [step]. rewrite Hm. reflexivity.
Qed.

(** ** What the rose draws *)

Section RoseShapes.
Variable E : @env xnum.
Hypothesis Hrandom : forall n, exists q, random E n = Fin q /\ 0 <= q < 1.

Lemma scaled_random (q v base : Q) :
  0 <= q < 1 -> 0 <= v ->
  base <= base + q * 300 * v <= base + 300 * v.
Proof.
  intros [Hq0 Hq1] Hv.
  assert (H0 : 0 <= q * v) by (apply Qmult_le_0_compat; assumption).
  assert (H1 : 0 <= (1 - q) * v) by (apply Qmult_le_0_compat; lra).
  split; nra.
Qed.

Lemma petal_events_in_range (color : hsl) (v : Q) (indices : list nat) :
  0 <= v ->
  forall r : nat,
    Forall (petal_in_range v) (petal_events E color (Fin v) r indices).
Proof.
  intros Hv. induction indices as [|i rest IH]; intros r; [constructor|].
  cbn [petal_events]. constructor; [|apply IH].
  destruct (Hrandom r) as [q0 [E0 B0]].
  destruct (Hrandom (S r)) as [q1 [E1 B1]].
  destruct (Hrandom (S (S r))) as [q2 [E2 B2]].
  destruct (Hrandom (S (S (S r)))) as [q3 [E3 B3]].
  unfold petal_event. rewrite E0, E1, E2, E3.
  cbn [petal_in_range mul div add of_Z exact xmul xdiv xadd Rose.numPetals
       Z.of_nat Pos.of_succ_nat Pos.succ Qcompare inject_Z Qnum Qden
       Z.mul Pos.mul Z.compare Pos.compare Pos.compare_cont].
  split; [exact B0|].
  repeat split; apply (scaled_random _ v _); assumption.
Qed.

End RoseShapes.

(** With random numbers in [0, 1) and a volume v >= 0, [drawRose] draws
    exactly ten petals from forty random numbers, each at a distance
    between 5 and 5 + 300v from the centre, between 30 and 30 + 300v
    long and between 15 and 15 + 300v wide, and it changes nothing else;
    in silence (v = 0) every petal has distance 5, length 30 and width
    15 whatever the random numbers are.  [drawCenterObject] draws one
    disk of radius 5 + 15v. *)
Theorem rose_shapes_within_bounds :
  (forall (E : @env xnum) (color : hsl) (g : Rose.globals_t) (h : host_state) (v : Q),
      (forall n, exists q, random E n = Fin q /\ 0 <= q < 1) ->
      Rose.volume g = Fin v ->
      0 <= v ->
      exists petals,
        Rose.drawRose E color (World g h) =
        (Ok tt,
         World g (HostState (trace h ++ petals) (frame_queue h) (timer_queue h)
                            (button_hidden h) (mouse_listener h) (reads h + 40))) /\
        List.length petals = 10%nat /\
        Forall (petal_in_range v) petals) /\
  (forall (color : hsl) (g : Rose.globals_t) (h : host_state) (v : Q),
      Rose.volume g = Fin v ->
      exists radius,
        Rose.drawCenterObject color (World g h) =
        (Ok tt, World g (record_event (EvCenter (Fin radius) color) h)) /\
        radius == 5 + 15 * v).
Proof.
  split.
  - intros E color g h v Hrandom Hvol Hv.
    exists (petal_events E color (Fin v) (reads h) (seq 0 Rose.numPetals)).
    split; [|split].
    + unfold Rose.drawRose. rewrite for_each_petal_exact, Hvol. reflexivity.
    + clear. generalize (reads h). intros r. reflexivity.
    + apply petal_events_in_range; assumption.
  - intros color g h v Hvol. eexists. split.
    + unfold Rose.drawCenterObject, bind, get_globals, emit, update_host.
      cbn [globals host]. rewrite Hvol. reflexivity.
    + ring.
Qed.

Lemma rose_shapes_within_bounds_witness :
  exists petals,
    Rose.drawRose (sample_env Granted xff) (Hsl (Fin 0) 100 50)
                  (World (Rose.Globals (Some tt) (Some (Analyser 2048 true))
                                       (Fin 1) (Fin 0)) host0) =
    (Ok tt,
     World (Rose.Globals (Some tt) (Some (Analyser 2048 true)) (Fin 1) (Fin 0))
           (HostState (trace (@host0 xnum) ++ petals) (frame_queue (@host0 xnum))
                      (timer_queue (@host0 xnum)) (button_hidden (@host0 xnum))
                      (mouse_listener (@host0 xnum)) (reads (@host0 xnum) + 40))) /\
    List.length petals = 10%nat /\
    Forall (petal_in_range 1) petals.
Proof.
  apply (proj1 rose_shapes_within_bounds (sample_env Granted xff)
           (Hsl (Fin 0) 100 50)
           (Rose.Globals (Some tt) (Some (Analyser 2048 true)) (Fin 1) (Fin 0))
           host0 1).
  - intros n. exists (1 # 2). split; [reflexivity | lra].
  - reflexivity.
  - lra.
Defined.

(** ** The throttle of the rose *)

Lemma timer_delay_exact (d : Q) :
  (0 < d -> @timer_delay xnum exact (Fin d) = Fin d) /\
  (~ 0 < d -> @timer_delay xnum exact (Fin d) = Fin 0).
Proof.
  unfold timer_delay. cbn [lt of_Z exact xlt]. change (inject_Z 0) with 0.
  split; intros H.
  - rewrite Qlt_alt in H. rewrite H. reflexivity.
  - destruct (0 ?= d) eqn:Hc; try reflexivity.
    exfalso. apply H. rewrite Qlt_alt. exact Hc.
Qed.

Lemma below_threshold (snapshot : list byte) :
  snapshot <> [] ->
  (arithmetic_mean snapshot < 64 # 45 <->
   (45 * total snapshot < 64 * Z.of_nat (List.length snapshot))%Z).
Proof.
  intros Hne.
  pose proof (mean_times_length snapshot Hne) as Hprod.
  pose proof (length_pos_inject _ snapshot Hne) as Hn.
  rewrite Zlt_Qlt, !inject_Z_mult, <- Hprod.
  change (inject_Z 45) with 45. change (inject_Z 64) with 64.
  set (n := inject_Z (Z.of_nat (List.length snapshot))) in *.
  set (m := arithmetic_mean snapshot) in *.
  split; intros H.
  - assert (H1 : m * n < (64 # 45) * n) by (apply Qmult_lt_compat_r; assumption).
    lra.
  - apply (proj1 (Qmult_lt_r m (64 # 45) n Hn)). lra.
Qed.

(** One [drawAnimation] on a page whose analyser has at least one bin
    ends with [setTimeout(.., d)] where d = 10 - 900 * (mean / 128)
    lies between 10 - 900 * 255/128 and 10.  The delay is positive
    exactly when 45 times the sum of the frequency bytes is below 64
    times their number (a mean under 64/45); then the timer waits d,
    and otherwise it waits 0. *)
Theorem rose_throttle_only_in_near_silence :
  forall (E : @env xnum) (g : Rose.globals_t) (h : host_state) (a : analyser_node),
    Rose.analyser g = Some a ->
    (0 < frequencyBinCount a)%nat ->
    exists w' d d',
      Rose.drawAnimation E (World g h) = (Ok tt, w') /\
      last (trace (host w')) EvClearRect = EvSetTimeout CbRequestDraw (Fin d) /\
      timer_queue (host w') = timer_queue h ++ [(CbRequestDraw, Fin d')] /\
      d == 10 - 900 * (arithmetic_mean
                         (fresh_snapshot (spectrum E) a (S (reads h))) / 128) /\
      10 - 900 * (255 / 128) <= d <= 10 /\
      (0 < d <->
       (45 * total (fresh_snapshot (spectrum E) a (S (reads h)))
        < 64 * Z.of_nat (List.length
                           (fresh_snapshot (spectrum E) a (S (reads h)))))%Z) /\
      (0 < d -> d' = d) /\
      (~ 0 < d -> d' = 0).
Proof.
  intros E g h a Ha Hbins.
  pose proof (drawAnimation_exact E g h a Ha) as Hrun. cbv zeta in Hrun.
  set (snap := fresh_snapshot (spectrum E) a (S (reads h))) in *.
  assert (Hne : snap <> []).
  { apply nonempty_length. unfold snap. rewrite fresh_snapshot_length. exact Hbins. }
  destruct (getAverageFrequency_exact snap Hne) as [m [Hm Hmean]].
  pose proof (arithmetic_mean_range snap Hne) as [Hlo Hhi].
  pose proof (below_threshold snap Hne) as Hthr.
  assert (Hvol : div (getAverageFrequency snap) (of_Z 128) = Fin (m / 128)).
  { rewrite Hm. apply (xdiv_pos m (inject_Z 128)). reflexivity. }
  assert (Hdelay : sub (of_Z 10) (mul (div (getAverageFrequency snap) (of_Z 128))
                                      (of_Z 900))
                   = Fin (10 - m / 128 * 900)).
  { rewrite Hvol. reflexivity. }
  set (d := 10 - m / 128 * 900) in *.
  assert (Hd : d == 10 - 900 * (arithmetic_mean snap / 128)).
  { unfold d. rewrite Hmean. unfold Qdiv. ring. }
  destruct (timer_delay_exact d) as [Hpos Hneg].
  destruct (Qlt_le_dec 0 d) as [Hlt | Hle].
  - exists (World (Rose.Globals (Rose.audioContext g) (Some a)
                     (div (getAverageFrequency snap) (of_Z 128)) (now E (reads h)))
                  (HostState (trace h ++ tick_events E a (reads h)) (frame_queue h)
                     (timer_queue h ++ [(CbRequestDraw, Fin d)])
                     (button_hidden h) (mouse_listener h) (reads h + 43))), d, d.
    split; [|split; [|split; [|split; [|split; [|split; [|split]]]]]].
    + rewrite Hrun, Hdelay, (Hpos Hlt). reflexivity.
    + cbn [host trace]. unfold tick_events. cbv zeta. fold snap. rewrite Hdelay.
      rewrite app_comm_cons, app_assoc.
      change ([?x; ?y]) with ([x] ++ [y]).
      rewrite app_assoc. apply last_last.
    + reflexivity.
    + exact Hd.
    + rewrite Hd. unfold Qdiv. change (/ 128) with (1 # 128). split; lra.
    + rewrite <- Hthr. rewrite Hd. unfold Qdiv. change (/ 128) with (1 # 128).
      split; intros H; lra.
    + intros _. reflexivity.
    + intros H. contradiction.
  - assert (Hnot : ~ 0 < d) by (intros H; lra).
    exists (World (Rose.Globals (Rose.audioContext g) (Some a)
                     (div (getAverageFrequency snap) (of_Z 128)) (now E (reads h)))
                  (HostState (trace h ++ tick_events E a (reads h)) (frame_queue h)
                     (timer_queue h ++ [(CbRequestDraw, Fin 0)])
                     (button_hidden h) (mouse_listener h) (reads h + 43))), d, 0.
    split; [|split; [|split; [|split; [|split; [|split; [|split]]]]]].
    + rewrite Hrun, Hdelay, (Hneg Hnot). reflexivity.
    + cbn [host trace]. unfold tick_events. cbv zeta. fold snap. rewrite Hdelay.
      rewrite app_comm_cons, app_assoc.
      change ([?x; ?y]) with ([x] ++ [y]).
      rewrite app_assoc. apply last_last.
    + reflexivity.
    + exact Hd.
    + rewrite Hd. unfold Qdiv. change (/ 128) with (1 # 128). split; lra.
    + rewrite <- Hthr. rewrite Hd. unfold Qdiv. change (/ 128) with (1 # 128).
      split; intros H; lra.
    + intros H. contradiction.
    + intros _. reflexivity.
Qed.

Lemma rose_throttle_only_in_near_silence_witness :
  exists w' d d',
    Rose.drawAnimation (sample_env Granted x01)
      (World (Rose.Globals (Some tt) (Some (Analyser 2048 true)) (Fin 0) (Fin 0))
             host0) = (Ok tt, w') /\
    last (trace (host w')) EvClearRect = EvSetTimeout CbRequestDraw (Fin d) /\
    timer_queue (host w') = timer_queue (@host0 xnum) ++ [(CbRequestDraw, Fin d')] /\
    d == 10 - 900 * (arithmetic_mean
                       (fresh_snapshot (spectrum (sample_env Granted x01))
                          (Analyser 2048 true) (S (reads (@host0 xnum)))) / 128) /\
    10 - 900 * (255 / 128) <= d <= 10 /\
    (0 < d <->
     (45 * total (fresh_snapshot (spectrum (sample_env Granted x01))
                    (Analyser 2048 true) (S (reads (@host0 xnum))))
      < 64 * Z.of_nat (List.length
                         (fresh_snapshot (spectrum (sample_env Granted x01))
                            (Analyser 2048 true) (S (reads (@host0 xnum))))))%Z) /\
    (0 < d -> d' = d) /\
    (~ 0 < d -> d' = 0).
Proof.
  apply (rose_throttle_only_in_near_silence (sample_env Granted x01)
           (Rose.Globals (Some tt) (Some (Analyser 2048 true)) (Fin 0) (Fin 0))
           host0 (Analyser 2048 true)).
  - reflexivity.
  - vm_compute. lia.
Defined.
